(** * dengue: calendar grid, colour scale and summary statistics

    A shallow embedding of the computational core of
    [dengue_calendario.py] (function [main]) and of the colour-scale
    fragment it shares with [dengue_estatal.py] and
    [dengue_municipal.py].

    Conventions.
    - A [Timestamp] truncated to a day is its proleptic Gregorian ordinal
      (day 1 is 0001-01-01), an integer in [Z]; a [DatetimeIndex] is a list
      of such ordinals.
    - A pandas column is a list aligned with the index; [NaN] in a column
      of counts is [None].
    - Floating-point values are idealised as exact rationals ([Q]); equality
      on them is [Qeq].
    - A Python exception is a value of [excepcion]; code that can raise
      runs in the [resultado] monad. *)

From Stdlib Require Import ZArith QArith Qround Qabs Lqa Lia String Ascii.
From stdpp Require Import base tactics option list gmap sorting pretty.

Local Open Scope Z_scope.

(** ** Exceptions *)

Inductive excepcion : Type :=
  | IndexError   (* indexing an empty sequence *)
  | ValueError.  (* pandas: length of values does not match length of index *)

Inductive resultado (A : Type) : Type :=
  | Ok (a : A)
  | Err (e : excepcion).
Arguments Ok {A} a.
Arguments Err {A} e.

Definition ligar {A B} (r : resultado A) (k : A -> resultado B) : resultado B :=
  match r with
  | Ok a => k a
  | Err e => Err e
  end.

Notation "x <-- r ;; k" := (ligar r (fun x => k))
  (at level 100, r at next level, right associativity).

(** ** Library model: calendar dates *)

Module Fechas.

(** [calendar.isleap]. *)
Definition is_leap (y : Z) : bool :=
  (y mod 4 =? 0) && (negb (y mod 100 =? 0) || (y mod 400 =? 0)).

(** Days before January 1st of year [y]. *)
Definition days_before_year (y : Z) : Z :=
  let y' := y - 1 in y' * 365 + y' / 4 - y' / 100 + y' / 400.

Definition days_in_month (y m : Z) : Z :=
  if m =? 2 then (if is_leap y then 29 else 28)
  else if (m =? 4) || (m =? 6) || (m =? 9) || (m =? 11) then 30
  else 31.

(** Days of year [y] before the first day of month [m]. *)
Definition days_before_month (y m : Z) : Z :=
  foldl (fun acc k => acc + days_in_month y k) 0 (seqZ 1 (m - 1)).

(** Ordinal of the date [y]-[m]-[d]. *)
Definition ymd2ord (y m d : Z) : Z :=
  days_before_year y + days_before_month y m + d.

(** [Timestamp.dayofweek]: Monday is 0 and Sunday is 6. *)
Definition dayofweek (ord : Z) : nat := Z.to_nat ((ord + 6) mod 7).

(** The same field as pandas computes it from the year, month and day of
    a date, by Sakamoto's method. *)
Definition sakamoto_arr : list Z := [0; 3; 2; 5; 0; 3; 5; 1; 4; 6; 2; 4].

Definition dayofweek_campos (y m d : Z) : nat :=
  let y := if m <? 3 then y - 1 else y in
  let c := y / 100 in
  let g := y - c * 100 in
  let f := 5 * (c mod 4) in
  let e := nth (Z.to_nat (m - 1)) sakamoto_arr 0 in
  Z.to_nat ((-1 + d + e + f + g + g / 4) mod 7).

(** [pd.date_range(inicio, fin)] with daily frequency, both ends included. *)
Definition date_range (inicio fin : Z) : list Z := seqZ inicio (fin - inicio + 1).

End Fechas.

(** ** Library model: numeric reductions of a column

    [dropna] keeps the valid entries of a column of counts, which is what
    every pandas reduction used below does first ([skipna=True]). *)

Local Open Scope Q_scope.

(** A float that may be [NaN] ([None]). *)
Definition flotante : Type := option Q.

Definition dropna (columna : list (option Z)) : list Q :=
  omap (fun v => inject_Z <$> v) columna.

Global Instance Qle_dec (x y : Q) : Decision (x <= y) :=
  Z_le_dec (Qnum x * QDen y) (Qnum y * QDen x).
Global Instance Qlt_dec (x y : Q) : Decision (x < y) :=
  Z_lt_dec (Qnum x * QDen y) (Qnum y * QDen x).

Global Instance Qle_transitiva : Transitive Qle := Qle_trans.
Global Instance Qle_total : Total Qle.
Proof. intros x y. destruct (Qlt_le_dec x y); [left; lra | right; lra]. Qed.

(** [Series.min()]: [NaN] on an empty series. *)
Definition serie_min (valores : list Q) : flotante :=
  match valores with
  | [] => None
  | x :: resto => Some (foldl (fun m v => if decide (m <= v) then m else v) x resto)
  end.

(** Linear interpolation [a + (b - a) * t]. *)
Definition lerp (a b t : Q) : Q := a + (b - a) * t.

(** [Series.quantile(q)] with the default [interpolation="linear"]: on
    the sorted valid values, the virtual index is [(n - 1) * q]; the result
    interpolates the order statistic at its floor and the next one
    (clipped to the last position) by its fractional part. *)
Definition quantile (q : Q) (valores : list Q) : flotante :=
  match valores with
  | [] => None
  | x0 :: _ =>
      let ordenados := merge_sort Qle valores in
      let n := length ordenados in
      let virtual := inject_Z (Z.of_nat (n - 1)) * q in
      let previo := Qfloor virtual in
      let siguiente := Z.min (previo + 1) (Z.of_nat (n - 1)) in
      let gamma := virtual - inject_Z previo in
      Some (lerp (nth (Z.to_nat previo) ordenados x0)
                 (nth (Z.to_nat siguiente) ordenados x0) gamma)
  end.

(** The 95th percentile in the words of the specification: on the sorted
    values, interpolate linearly between the order statistics at the
    floor and at the ceiling of the rank [p * (n - 1)]. It is stated to be
    compared with [quantile]. *)
Definition percentil_spec (p : Q) (valores : list Q) : flotante :=
  match valores with
  | [] => None
  | x0 :: _ =>
      let ordenados := merge_sort Qle valores in
      let rango := p * inject_Z (Z.of_nat (length valores - 1)) in
      let abajo := nth (Z.to_nat (Qfloor rango)) ordenados x0 in
      let arriba := nth (Z.to_nat (Qceiling rango)) ordenados x0 in
      Some (abajo + (rango - inject_Z (Qfloor rango)) * (arriba - abajo))
  end.

(** Equality of floats up to [Qeq]; [NaN] only matches [NaN]. *)
Definition flotante_eq (a b : flotante) : Prop :=
  match a, b with
  | Some x, Some y => x == y
  | None, None => True
  | _, _ => False
  end.

(** [np.linspace(start, stop, num)] with [endpoint=True]: [num] samples
    [start + i * step], [step = (stop - start) / (num - 1)], the last one
    overwritten with [stop]. *)
Definition linspace (start stop : Q) (num : nat) : list Q :=
  let div := (num - 1)%nat in
  let step := (stop - start) / inject_Z (Z.of_nat div) in
  let y := (fun i : nat => inject_Z (Z.of_nat i) * step + start) <$> seq 0 num in
  if decide (1 < num)%nat then <[(num - 1)%nat := stop]> y else y.

(** [NaN] propagates through [np.linspace]. *)
Definition np_linspace (start stop : flotante) (num : nat) : list flotante :=
  match start, stop with
  | Some a, Some b => Some <$> linspace a b num
  | _, _ => replicate num None
  end.

(** ** Library model: number formatting *)

(** Rounding to the nearest integer, ties to even, as the [f] presentation
    type does. *)
Definition redondear (q : Q) : Z :=
  let piso := Qfloor q in
  let resto := q - inject_Z piso in
  match Qcompare resto (1 # 2) with
  | Lt => piso
  | Gt => (piso + 1)%Z
  | Eq => if Z.even piso then piso else (piso + 1)%Z
  end.

(** The [,] option: a comma every three digits, counted from the right.
    [invertidos] holds the digits least significant first and [k] counts
    the digits already in the current group. *)
Fixpoint separar (invertidos : list ascii) (k : nat) : list ascii :=
  match invertidos with
  | [] => []
  | c :: resto =>
      if decide (k = 3%nat) then ","%char :: c :: separar resto 1
      else c :: separar resto (S k)
  end.

Definition miles (digitos : string) : string :=
  string_of_list_ascii (reverse (separar (reverse (list_ascii_of_string digitos)) 0)).

(** [f"{x:,.0f}"]. *)
Definition formato_0f (x : flotante) : string :=
  match x with
  | None => "nan"
  | Some q =>
      let cuerpo := miles (pretty (Z.abs_N (redondear q))) in
      if decide (q < 0) then ("-" ++ cuerpo)%string else cuerpo
  end.

(** ** The colour scale (lines 81-92 of dengue_calendario.py,
       lines 127-138 of dengue_estatal.py) *)

Record Escala : Type := {
  valor_min : flotante;
  valor_max : flotante;
  marcas : list flotante;
  etiquetas : list string
}.

Definition mayor_o_igual : string := "≥".

(** [etiquetas[-1] = f"≥{etiquetas[-1]}"]. *)
Definition marcar_ultima (etiquetas : list string) : resultado (list string) :=
  match last etiquetas with
  | None => Err IndexError
  | Some ultima =>
      Ok (<[pred (length etiquetas) := (mayor_o_igual ++ ultima)%string]> etiquetas)
  end.

(** The scale of [valores] with [num] marks; [num] is the literal 9 in
    dengue_calendario.py, 11 in dengue_estatal.py. *)
Definition escala (valores : list Q) (num : nat) : resultado Escala :=
  let vmin := serie_min valores in
  let vmax := quantile (95 # 100) valores in
  let ms := np_linspace vmin vmax num in
  es <-- marcar_ultima (formato_0f <$> ms) ;;
  Ok {| valor_min := vmin; valor_max := vmax; marcas := ms; etiquetas := es |}.

Local Close Scope Q_scope.

(** ** The calendar grid (lines 73-76 and 107-123 of dengue_calendario.py) *)

(** Lines 107-110: each of the 54 week numbers, seven times in a row. *)
Definition numero_semana : list nat :=
  foldl (fun acc semana => acc ++ replicate 7 semana) [] (seq 0 54).

(** The Python slice [l[a:b]] for non-negative bounds; it never raises and
    stops at the end of [l]. *)
Definition rebanada {A} (l : list A) (a b : nat) : list A :=
  take (b - a) (drop a l).

(** [final[columna] = valores] with a list on the right: pandas refuses a
    list whose length differs from that of the index. *)
Definition asignar_columna {A} (index : list Z) (valores : list A)
  : resultado (list A) :=
  if decide (length valores = length index) then Ok valores else Err ValueError.

(** [final.index[0]]. *)
Definition primera_fecha (index : list Z) : resultado Z :=
  match index with
  | [] => Err IndexError
  | d :: _ => Ok d
  end.

(** Lines 122-123. *)
Definition columna_semana (index : list Z) : resultado (list nat) :=
  primera <-- primera_fecha index ;;
  let pad := Fechas.dayofweek primera in
  asignar_columna index (rebanada numero_semana pad (length index + pad)).

(** The frame [final] once the columns of lines 114 and 123 are in place.
    The column [borde] of line 126 plays no part below and is left out. *)
Record DataFrame : Type := {
  index : list Z;
  total : list (option Z);
  dayofweek : list nat;
  semana : list nat
}.

(** The grid for an arbitrary index; [totales_por_dia] is the resampled
    series of daily counts, keyed by date: a date it does not hold
    becomes [NaN] in the column [total] (lines 73-76). *)
Definition mapa_calendario (index : list Z) (totales_por_dia : gmap Z Z)
  : resultado DataFrame :=
  let total := (fun d => totales_por_dia !! d) <$> index in
  let dias := Fechas.dayofweek <$> index in
  semanas <-- columna_semana index ;;
  Ok {| index := index; total := total; dayofweek := dias; semana := semanas |}.

(** The index that [main] builds: every day of the year. *)
Definition index_anual (anio : Z) : list Z :=
  Fechas.date_range (Fechas.ymd2ord anio 1 1) (Fechas.ymd2ord anio 12 31).

(** [final] as [main] computes it for the year [anio]. *)
Definition main_final (anio : Z) (totales_por_dia : gmap Z Z) : resultado DataFrame :=
  mapa_calendario (index_anual anio) totales_por_dia.

(** One cell of the heat map: row [i] of the frame. *)
Record GridCell : Type := {
  date : Z;
  value : option Z;
  weekday : nat;
  week_index : nat
}.

Definition celda (final : DataFrame) (i : nat) : option GridCell :=
  d ← index final !! i;
  v ← total final !! i;
  w ← dayofweek final !! i;
  s ← semana final !! i;
  Some {| date := d; value := v; weekday := w; week_index := s |}.

(** The scale of the calendar: 9 marks over the valid daily totals. *)
Definition escala_calendario (final : DataFrame) : resultado Escala :=
  escala (dropna (total final)) 9.

(** ** Summary statistics (lines 129-132 of dengue_calendario.py) *)

(** [Series.max()] over the valid entries; [NaN] when there is none. *)
Definition serie_max (columna : list (option Z)) : option Z :=
  foldl (fun m v =>
           match m, v with
           | _, None => m
           | None, Some x => Some x
           | Some y, Some x => if decide (y < x)%Z then Some x else Some y
           end) None columna.

(** [Series.idxmax()]: one pass that keeps the label of the best valid
    entry so far and replaces it only by a strictly greater one. *)
Fixpoint idxmax_desde (mejor : option (Z * Z)) (index : list Z)
    (columna : list (option Z)) : option (Z * Z) :=
  match index, columna with
  | d :: index', v :: columna' =>
      match mejor, v with
      | _, None => idxmax_desde mejor index' columna'
      | None, Some x => idxmax_desde (Some (d, x)) index' columna'
      | Some (_, y), Some x =>
          if decide (y < x)%Z then idxmax_desde (Some (d, x)) index' columna'
          else idxmax_desde mejor index' columna'
      end
  | _, _ => mejor
  end.

Definition idxmax (index : list Z) (columna : list (option Z)) : option Z :=
  fst <$> idxmax_desde None index columna.

(** [Series.sum()]: [NaN] counts for nothing. *)
Definition serie_sum (columna : list (option Z)) : Z :=
  foldl (fun acc v => acc + default 0 v)%Z 0%Z columna.

Record Estadisticas : Type := {
  stats_max : option Z;        (* final['total'].max() *)
  stats_max_fecha : option Z;  (* final['total'].idxmax() *)
  stats_total : Z;             (* final['total'].sum() *)
  stats_mean : Q               (* final['total'].sum() / len(final) *)
}.

Definition estadisticas (index : list Z) (columna : list (option Z)) : Estadisticas :=
  {| stats_max := serie_max columna;
     stats_max_fecha := idxmax index columna;
     stats_total := serie_sum columna;
     stats_mean := (inject_Z (serie_sum columna) / inject_Z (Z.of_nat (length index)))%Q |}.

Definition estadisticas_final (final : DataFrame) : Estadisticas :=
  estadisticas (index final) (total final).

(** Consecutive entries of the index are consecutive days: the index is
    strictly increasing and has no gap. *)
Definition contiguo (index : list Z) : Prop :=
  forall (i : nat) (a b : Z),
    index !! i = Some a -> index !! S i = Some b -> b = a + 1.

(** Days of a common year before each month, a table used in proofs only. *)
Definition dias_antes_mes : list Z :=
  [0; 31; 59; 90; 120; 151; 181; 212; 243; 273; 304; 334].

(** The weekday of December 31st of year [Y] by Sakamoto's method, before
    reduction modulo 7; used in proofs only. *)
Definition siglo_mod (Y : Z) : Z :=
  5 * ((Y / 100) mod 4) + (Y - Y / 100 * 100) + (Y - Y / 100 * 100) / 4.

(** ** Library model: the fields of a date

    The year, month and day of an ordinal, computed as the [datetime]
    module does: by cycles of 400, 100, 4 and 1 years, then by an estimate
    of the month that is corrected when it overshoots. *)

(** Days before each month of a common year and days in each month; the
    months are counted from 1 and entry 0 is a placeholder. *)
Definition DAYS_BEFORE_MONTH : list Z :=
  [-1; 0; 31; 59; 90; 120; 151; 181; 212; 243; 273; 304; 334].
Definition DAYS_IN_MONTH : list Z :=
  [-1; 31; 28; 31; 30; 31; 30; 31; 31; 30; 31; 30; 31].

(** Month and day of month of the day [n] of a year, [n] counted from 0. *)
Definition mes_dia (leapyear : bool) (n : Z) : Z * Z :=
  let month := Z.shiftr (n + 50) 5 in
  let preceding :=
    nth (Z.to_nat month) DAYS_BEFORE_MONTH 0
    + (if (2 <? month) && leapyear then 1 else 0) in
  if n <? preceding then
    let month' := month - 1 in
    let preceding' :=
      preceding - (nth (Z.to_nat month') DAYS_IN_MONTH 0
                   + (if (month' =? 2) && leapyear then 1 else 0)) in
    (month', n - preceding' + 1)
  else (month, n - preceding + 1).

(** Year, month and day of an ordinal. *)
Definition ord2ymd (ord : Z) : Z * Z * Z :=
  let n := ord - 1 in
  let n400 := n / 146097 in
  let n := n mod 146097 in
  let n100 := n / 36524 in
  let n := n mod 36524 in
  let n4 := n / 1461 in
  let n := n mod 1461 in
  let n1 := n / 365 in
  let n := n mod 365 in
  let year := n400 * 400 + 1 + n100 * 100 + n4 * 4 + n1 in
  if (n1 =? 4) || (n100 =? 4) then (year - 1, 12, 31)
  else
    let leapyear := (n1 =? 3) && (negb (n4 =? 24) || (n100 =? 3)) in
    let '(month, day) := mes_dia leapyear n in
    (year, month, day).

(** [Timestamp.year], [Timestamp.month] and [Timestamp.day]. *)
Definition ts_year (ord : Z) : Z := (ord2ymd ord).1.1.
Definition ts_month (ord : Z) : Z := (ord2ymd ord).1.2.
Definition ts_day (ord : Z) : Z := (ord2ymd ord).2.

(** ** More of the calendar (dengue_calendario.py) *)

(** Line 126: the column [borde], 1 on the first day of a month. *)
Definition columna_borde (index : list Z) : list Z :=
  (fun x => if ts_day x =? 1 then 1 else 0) <$> index.

(** [final["semana"].max()], [NaN] on an empty column. *)
Definition semana_max (final : DataFrame) : option nat :=
  match semana final with
  | [] => None
  | s :: resto => Some (foldl Nat.max s resto)
  end.

(** Line 230: the range of the horizontal axis. *)
Definition rango_x (final : DataFrame) : option (Z * Z) :=
  m ← semana_max final; Some (-1, Z.of_nat m + 1).

(** ** The data set

    One row of the yearly file [data/<year>.csv], with the columns that
    the scripts read; every one of them holds an integer in every row,
    the date of onset being kept as its ordinal. *)
Record Registro : Type := {
  FECHA_SIGN_SINTOMAS : Z;
  ESTATUS_CASO : Z;
  DICTAMEN : Z;
  SEXO : Z;
  EDAD_ANOS : Z;
  RESULTADO_PCR : Z;
  ENTIDAD_RES : Z;
  MUNICIPIO_RES : Z
}.

(** [df[df["ESTATUS_CASO"] == 2]]. *)
Definition confirmados (df : list Registro) : list Registro :=
  filter (fun r => ESTATUS_CASO r = 2) df.

(** How many times [x] occurs in [l]. *)
Definition contar (x : Z) (l : list Z) : Z :=
  Z.of_nat (length (filter (fun y => y = x) l)).

(** [df.resample("D").count()[columna]] for a frame indexed by the dates
    [fechas]: one bin per day from the first date to the last, each with
    the number of rows of that day; nothing for an empty frame. *)
Definition resample_D_count (fechas : list Z) : gmap Z Z :=
  match fechas with
  | [] => ∅
  | f :: resto =>
      let primero := foldl Z.min f resto in
      let ultimo := foldl Z.max f resto in
      list_to_map ((fun d => (d, contar d fechas))
                     <$> seqZ primero (ultimo - primero + 1))
  end.

(** Lines 54-69 of dengue_calendario.py. *)
Definition totales_por_dia (datos : list Registro) : gmap Z Z :=
  resample_D_count (FECHA_SIGN_SINTOMAS <$> confirmados datos).

(** Lines 54-123: [final] from the rows of the file. *)
Definition final_calendario (anio : Z) (datos : list Registro) : resultado DataFrame :=
  main_final anio (totales_por_dia datos).

(** ** Age groups (dengue_edad_sexo.py) *)

Definition BINS : list (Z * Z) :=
  [(0, 4); (5, 9); (10, 14); (15, 19); (20, 24); (25, 29); (30, 34);
   (35, 39); (40, 44); (45, 49); (50, 54); (55, 59); (60, 64); (65, 69);
   (70, 74); (75, 79); (80, 84); (85, 120)].

Record FilaEdad : Type := {
  edad : string;
  mujeres : nat;
  hombres : nat
}.

(** [f"{a}-{b}" if a < 85 else "≥85"]. *)
Definition etiqueta_edad (a b : Z) : string :=
  if decide (a < 85) then (pretty a +:+ "-" +:+ pretty b)%string else "≥85"%string.

(** The loop over [BINS] (lines 60-72 and 248-260): the rows of each sex
    whose age is between the ends of the group, both included. *)
Definition grupos_de_edad (df : list Registro) : list FilaEdad :=
  (fun '(a, b) =>
     {| edad := etiqueta_edad a b;
        mujeres := length (filter (fun r => SEXO r = 1 /\ a <= EDAD_ANOS r <= b) df);
        hombres := length (filter (fun r => SEXO r = 2 /\ a <= EDAD_ANOS r <= b) df) |})
  <$> BINS.

(** [infecciones] counts the confirmed cases, [defunciones] the confirmed
    deaths. *)
Definition infecciones_final (datos : list Registro) : list FilaEdad :=
  grupos_de_edad (confirmados datos).
Definition defunciones_final (datos : list Registro) : list FilaEdad :=
  grupos_de_edad (filter (fun r => DICTAMEN r = 1) datos).

(** ** Serotypes (dengue_serotipos.py) *)

Definition SEROTIPOS : gmap Z string :=
  list_to_map [(1, "DENV-1"); (2, "DENV-2"); (3, "DENV-3"); (4, "DENV-4");
               (5, "Sin serotipo aislado")]%string.

(** [Series.value_counts().sort_index()]: each value that occurs, with the
    number of its rows, by increasing value. *)
Definition value_counts_sort_index (valores : list Z) : list (Z * Z) :=
  (fun k => (k, contar k valores)) <$> merge_sort Z.le (remove_dups valores).

Record FilaSerotipo : Type := {
  serotipo : option string;   (* the index after [map(SEROTIPOS)]; [None] is [NaN] *)
  total_serotipo : Z;
  perc : Q
}.

(** Lines 32-39 and 46-53, for the column [RESULTADO_PCR] of the rows
    selected. *)
Definition tabla_serotipos (valores : list Z) : list FilaSerotipo :=
  let conteos := value_counts_sort_index valores in
  let suma := foldr Z.add 0 (conteos.*2) in
  (fun '(k, t) =>
     {| serotipo := SEROTIPOS !! k;
        total_serotipo := t;
        perc := (inject_Z t / inject_Z suma * 100)%Q |}) <$> conteos.

Definition casos_serotipos (datos : list Registro) : list FilaSerotipo :=
  tabla_serotipos (RESULTADO_PCR <$> confirmados datos).
Definition defunciones_serotipos (datos : list Registro) : list FilaSerotipo :=
  tabla_serotipos (RESULTADO_PCR <$> filter (fun r => DICTAMEN r = 1) datos).

(** ** States (dengue_estatal.py) *)

Definition ENTIDADES : gmap Z string :=
  list_to_map
    [(1, "Aguascalientes"); (2, "Baja California"); (3, "Baja California Sur");
     (4, "Campeche"); (5, "Coahuila"); (6, "Colima"); (7, "Chiapas");
     (8, "Chihuahua"); (9, "Ciudad de México"); (10, "Durango");
     (11, "Guanajuato"); (12, "Guerrero"); (13, "Hidalgo"); (14, "Jalisco");
     (15, "Estado de México"); (16, "Michoacán"); (17, "Morelos");
     (18, "Nayarit"); (19, "Nuevo León"); (20, "Oaxaca"); (21, "Puebla");
     (22, "Querétaro"); (23, "Quintana Roo"); (24, "San Luis Potosí");
     (25, "Sinaloa"); (26, "Sonora"); (27, "Tabasco"); (28, "Tamaulipas");
     (29, "Tlaxcala"); (30, "Veracruz"); (31, "Yucatán"); (32, "Zacatecas")]%string.

(** A rate is a number, [inf] or [NaN]. *)
Inductive float64 : Type :=
  | finito (q : Q)
  | infinito
  | NaN.

(** [total / poblacion * 100000] for a count [total] (never negative) and
    a population that is missing ([NaN]) where the join or the alignment
    found none: a count divided by zero is [inf], and [0 / 0] is [NaN]. *)
Definition tasa_100k (total : Z) (poblacion : option Z) : float64 :=
  match poblacion with
  | None => NaN
  | Some p =>
      if decide (p = 0) then (if decide (total = 0) then NaN else infinito)
      else finito (inject_Z total / inject_Z p * 100000)%Q
  end.

Record FilaEntidad : Type := {
  entidad : option string;   (* the index after [map(ENTIDADES)] *)
  por_sexo : list Z;         (* one count per value of [SEXO] that occurs *)
  total_entidad : Z;
  poblacion_entidad : option Z;
  tasa_entidad : float64
}.

(** Lines 86-119 of dengue_estatal.py, for a file with at least one
    confirmed case of a state up to 32: the pivot table has one row per
    code of [ENTIDAD_RES] that occurs and one column per value of [SEXO]
    that occurs, both in increasing order, each cell holding the number of
    rows of the pair (0 after [fillna] for a pair that does not occur).
    [pop] is the population of the year by name, after the renaming of
    lines 71-78. *)
Definition tabla_estatal (pop : gmap string Z) (datos : list Registro)
    : list FilaEntidad :=
  let df := filter (fun r => ENTIDAD_RES r <= 32) (confirmados datos) in
  let sexos := merge_sort Z.le (remove_dups (SEXO <$> df)) in
  (fun e =>
     let celdas :=
       (fun s => Z.of_nat (length (filter (fun r => ENTIDAD_RES r = e /\ SEXO r = s) df)))
       <$> sexos in
     let total := foldr Z.add 0 celdas in
     let nombre := ENTIDADES !! e in
     let poblacion := nombre ≫= (fun n => pop !! n) in
     {| entidad := nombre;
        por_sexo := celdas;
        total_entidad := total;
        poblacion_entidad := poblacion;
        tasa_entidad := tasa_100k total poblacion |})
  <$> merge_sort Z.le (remove_dups (ENTIDAD_RES <$> df)).

(** The outcome of a look-up by label. *)
Inductive loc_resultado (A : Type) : Type :=
  | loc_valor (a : A)
  | KeyError (clave : string).
Arguments loc_valor {A} a.
Arguments KeyError {A} clave.

(** [df.loc[geo, "tasa"]]: the rate of the row labelled [geo] (the labels
    that are names are distinct), [KeyError] when there is none. *)
Definition loc_tasa (df : list FilaEntidad) (geo : string) : loc_resultado float64 :=
  match filter (fun f => entidad f = Some geo) df with
  | f :: _ => loc_valor (tasa_entidad f)
  | [] => KeyError geo
  end.

(** The loop of lines 148-155 over the names [NOM_ENT] of the GeoJSON. *)
Fixpoint valores_estatal (df : list FilaEntidad) (geojson : list string)
    : loc_resultado (list float64) :=
  match geojson with
  | [] => loc_valor []
  | geo :: resto =>
      match loc_tasa df geo with
      | KeyError k => KeyError k
      | loc_valor v =>
          match valores_estatal df resto with
          | KeyError k => KeyError k
          | loc_valor vs => loc_valor (v :: vs)
          end
      end
  end.

(** Lines 86-155: [sort_values] stands for the sort by rate of line 122,
    whose order among equal rates pandas does not fix. *)
Definition main_estatal_valores
    (sort_values : list FilaEntidad -> list FilaEntidad)
    (pop : gmap string Z) (datos : list Registro) (geojson : list string)
    : loc_resultado (list float64) :=
  valores_estatal (sort_values (tabla_estatal pop datos)) geojson.

(** ** Municipalities (dengue_municipal.py) *)

Fixpoint ceros (n : nat) : string :=
  match n with
  | O => EmptyString
  | S n => String "0" (ceros n)
  end.

(** [str.zfill(ancho)]: zeros on the left up to the width, after the sign
    when the text starts with one. *)
Definition zfill (ancho : nat) (s : string) : string :=
  let relleno := ceros (ancho - String.length s) in
  match s with
  | String c resto =>
      if decide (c = "+"%char \/ c = "-"%char)
      then String c (relleno +:+ resto)
      else relleno +:+ s
  | EmptyString => relleno
  end.

(** Lines 37-38, 49-50 and 53 of [mapa_municipios]: the two columns are
    turned into text and filled twice ([astype(str)] leaves a text as it
    is), then joined. *)
Definition CVE_mapa (e m : Z) : string :=
  zfill 2 (zfill 2 (pretty e)) +:+ zfill 3 (zfill 3 (pretty m)).

(** Lines 314-318 of [top_municipios_tabla]: the same, filled once. *)
Definition CVE_tabla (e m : Z) : string :=
  zfill 2 (pretty e) +:+ zfill 3 (pretty m).

(** [Series.value_counts().to_frame("total")] for a column of keys: the
    number of rows of each key that occurs.  The frame is kept as a map
    from its labels, which are distinct; the order of its rows plays no
    part before the sort of the table. *)
Definition conteo_por_clave (claves : list string) : gmap string Z :=
  list_to_map
    ((fun k => (k, Z.of_nat (length (filter (fun y => y = k) claves))))
     <$> remove_dups claves).

Record FilaMunicipio : Type := {
  total_municipio : Z;
  poblacion_municipio : option Z;
  tasa_municipio : float64
}.

(** [df.join(pop)] and the rate (lines 59-62).  [pop] gives the population
    of each key of the population table, where a key occurs once; a key
    without a row there has no population ([NaN]). *)
Definition unir_poblacion (pop : gmap string Z) (conteos : gmap string Z)
    : gmap string FilaMunicipio :=
  map_imap (fun cve total =>
              Some {| total_municipio := total;
                      poblacion_municipio := pop !! cve;
                      tasa_municipio := tasa_100k total (pop !! cve) |}) conteos.

(** [tasa != np.inf] and [tasa != 0]: [NaN] is different from both. *)
Definition distinto_de_inf (x : float64) : bool :=
  match x with infinito => false | _ => true end.
Definition distinto_de_cero (x : float64) : bool :=
  match x with finito q => negb (Qeq_bool q 0) | _ => true end.

(** Lines 34-68 (and 311-335), for the key [clave] of the function. *)
Definition tabla_municipal (clave : Z -> Z -> string) (pop : gmap string Z)
    (datos : list Registro) : gmap string FilaMunicipio :=
  let df := confirmados datos in
  let conteos :=
    conteo_por_clave ((fun r => clave (ENTIDAD_RES r) (MUNICIPIO_RES r)) <$> df) in
  let df := unir_poblacion pop conteos in
  let df := filter (fun p => distinto_de_inf (tasa_municipio p.2) = true) df in
  filter (fun p => distinto_de_cero (tasa_municipio p.2) = true) df.

(** The loop of lines 109-121 over the keys [CVEGEO] of the GeoJSON: a
    look-up that fails gives [None]. *)
Definition valores_municipal (pop : gmap string Z) (datos : list Registro)
    (geojson : list string) : list (option Z) :=
  let df := tabla_municipal CVE_mapa pop datos in
  (fun geo => total_municipio <$> df !! geo) <$> geojson.

(** Whether a rate may stand before another one in the sort by decreasing
    rate: [NaN] goes last. *)
Definition va_antes (a b : float64) : bool :=
  match a, b with
  | _, NaN => true
  | NaN, _ => false
  | infinito, _ => true
  | finito _, infinito => false
  | finito x, finito y => Qle_bool y x
  end.

(** The order of the rows after [sort_values("tasa", ascending=False)]. *)
Definition orden_por_tasa (p q : string * FilaMunicipio) : Prop :=
  va_antes (tasa_municipio p.2) (tasa_municipio q.2) = true.

#[global] Instance orden_por_tasa_dec : RelDecision orden_por_tasa.
Proof. intros p q. unfold orden_por_tasa. apply _. Defined.

(** Lines 311-336: the municipalities with at least 100 confirmed cases. *)
Definition municipios_con_100 (pop : gmap string Z) (datos : list Registro)
    : gmap string FilaMunicipio :=
  filter (fun p => 100 <= total_municipio p.2) (tabla_municipal CVE_tabla pop datos).

(** Lines 339-344: the rows sorted by decreasing rate, numbered from 1,
    and the first 30 of them.  [sort_values] stands for the sort of
    pandas, whose order among equal rates is not fixed. *)
Definition top_municipios_tabla
    (sort_values : list (string * FilaMunicipio) -> list (string * FilaMunicipio))
    (pop : gmap string Z) (datos : list Registro)
    : list (nat * (string * FilaMunicipio)) :=
  let df := sort_values (map_to_list (municipios_con_100 pop datos)) in
  take 30 (imap (fun i fila => (S i, fila)) df).

(** * Properties *)

(** ** The library model on known values *)

Example ordinal_2023_01_02 : Fechas.ymd2ord 2023 1 2 = 738522.
Proof. reflexivity. Qed.

Example domingo_2023_01_01 : Fechas.dayofweek (Fechas.ymd2ord 2023 1 1) = 6%nat.
Proof. reflexivity. Qed.

Example lunes_2024_01_01 : Fechas.dayofweek (Fechas.ymd2ord 2024 1 1) = 0%nat.
Proof. reflexivity. Qed.

Example jueves_1970_01_01 : Fechas.dayofweek (Fechas.ymd2ord 1970 1 1) = 3%nat.
Proof. reflexivity. Qed.

Example martes_2000_02_29 : Fechas.dayofweek_campos 2000 2 29 = 1%nat.
Proof. reflexivity. Qed.

Example formato_miles :
  formato_0f (Some (1234567 # 2)%Q) = "617,284"%string /\
  formato_0f (Some (95 # 2)%Q) = "48"%string /\
  formato_0f (Some (7 # 2)%Q) = "4"%string /\
  formato_0f (Some (5 # 2)%Q) = "2"%string /\
  formato_0f (Some (1000 # 1)%Q) = "1,000"%string /\
  formato_0f (Some (- (4 # 10))%Q) = "-0"%string /\
  formato_0f None = "nan"%string.
Proof. repeat split. Qed.

Example rebanada_corta : rebanada [1; 2; 3; 4; 5] 3 9 = [4; 5].
Proof. reflexivity. Qed.

Example escala_sin_datos :
  escala [] 9 =
    Ok {| valor_min := None; valor_max := None;
          marcas := replicate 9 None;
          etiquetas := ["nan"; "nan"; "nan"; "nan"; "nan"; "nan"; "nan"; "nan";
                        "≥nan"]%string |}.
Proof. reflexivity. Qed.

(** ** The reference list of week numbers *)

Section ListaDeSemanas.

Local Open Scope nat_scope.

Lemma div7_cociente (k w : nat) : 7 * w <= k < 7 * w + 7 -> k / 7 = w.
Proof.
  intros Hk. symmetry. apply (Nat.div_unique k 7 w (k - 7 * w)); lia.
Qed.

(** The loop of lines 109-110, for any number of weeks. *)
Lemma semanas_repetidas (w : nat) :
  foldl (fun acc semana => acc ++ replicate 7 semana) [] (seq 0 w)
  = (fun k => k / 7) <$> seq 0 (7 * w).
Proof.
  induction w as [|w IH]; [reflexivity|].
  rewrite seq_S, foldl_app, IH. cbn [foldl].
  replace (7 * S w) with (7 * w + 7) by lia.
  rewrite seq_app, fmap_app. f_equal.
  cbn [seq fmap list_fmap replicate].
  repeat (f_equal; try solve [symmetry; apply div7_cociente; lia]).
Qed.

End ListaDeSemanas.

(** ** The column of week numbers *)

Section ColumnaSemana.

Local Open Scope nat_scope.

Lemma numero_semana_es : numero_semana = (fun k => k / 7) <$> seq 0 378.
Proof. exact (semanas_repetidas 54). Qed.

Lemma length_numero_semana : length numero_semana = 378.
Proof. rewrite numero_semana_es, length_fmap, length_seq. reflexivity. Qed.

Lemma lookup_numero_semana (k : nat) :
  k < 378 -> numero_semana !! k = Some (k / 7).
Proof.
  intros Hk. rewrite numero_semana_es, list_lookup_fmap, lookup_seq_lt by lia.
  reflexivity.
Qed.

Lemma length_rebanada {A} (l : list A) (a b : nat) :
  length (rebanada l a b) = min (b - a) (length l - a).
Proof. unfold rebanada. rewrite length_take, length_drop. reflexivity. Qed.

Lemma lookup_rebanada {A} (l : list A) (a b i : nat) :
  i < b - a -> rebanada l a b !! i = l !! (a + i).
Proof.
  intros Hi. unfold rebanada. rewrite lookup_take_lt by lia.
  apply lookup_drop.
Qed.

Lemma dayofweek_lt (d : Z) : Fechas.dayofweek d < 7.
Proof.
  unfold Fechas.dayofweek.
  pose proof (Z.mod_pos_bound (d + 6) 7 eq_refl). lia.
Qed.

(** What lines 122-123 do, case by case. *)
Lemma columna_semana_vacio : columna_semana [] = Err IndexError.
Proof. reflexivity. Qed.

Lemma columna_semana_largo (index : list Z) (d0 : Z) :
  primera_fecha index = Ok d0 ->
  378 < length index + Fechas.dayofweek d0 ->
  columna_semana index = Err ValueError.
Proof.
  intros Hd Hn. unfold columna_semana. rewrite Hd. cbn [ligar].
  unfold asignar_columna.
  rewrite length_rebanada, length_numero_semana.
  pose proof (dayofweek_lt d0).
  destruct (decide _) as [Heq|]; [lia | reflexivity].
Qed.

Lemma columna_semana_Ok (index : list Z) (d0 : Z) :
  primera_fecha index = Ok d0 ->
  length index + Fechas.dayofweek d0 <= 378 ->
  exists semanas,
    columna_semana index = Ok semanas /\
    length semanas = length index /\
    forall i, i < length index ->
      semanas !! i = numero_semana !! (Fechas.dayofweek d0 + i) /\
      semanas !! i = Some ((Fechas.dayofweek d0 + i) / 7).
Proof.
  intros Hd Hn.
  exists (rebanada numero_semana (Fechas.dayofweek d0)
                   (length index + Fechas.dayofweek d0)).
  assert (Hlen : length (rebanada numero_semana (Fechas.dayofweek d0)
                   (length index + Fechas.dayofweek d0)) = length index).
  { rewrite length_rebanada, length_numero_semana. lia. }
  split; [|split; [exact Hlen|]].
  - unfold columna_semana. rewrite Hd. cbn [ligar]. unfold asignar_columna.
    destruct (decide _); [reflexivity | contradiction].
  - intros i Hi. rewrite lookup_rebanada by lia.
    split; [reflexivity|]. apply lookup_numero_semana. lia.
Qed.

Lemma primera_fecha_lookup (index : list Z) (d0 : Z) :
  primera_fecha index = Ok d0 <-> index !! 0 = Some d0.
Proof.
  destruct index as [|d index]; cbn; split; intros H; try discriminate;
    inversion H; reflexivity.
Qed.

Lemma mapa_calendario_Ok (index : list Z) (tot : gmap Z Z) (final : DataFrame) :
  mapa_calendario index tot = Ok final ->
  exists semanas,
    columna_semana index = Ok semanas /\
    final = {| index := index;
               total := (fun d => tot !! d) <$> index;
               dayofweek := Fechas.dayofweek <$> index;
               semana := semanas |}.
Proof.
  unfold mapa_calendario. destruct (columna_semana index) as [semanas|e]; cbn.
  - intros [= <-]. exists semanas. split; reflexivity.
  - discriminate.
Qed.

End ColumnaSemana.

(** ** Dates *)

Section Calendario.

Lemma dayofweek_add (d : Z) (k : nat) :
  Fechas.dayofweek (d + Z.of_nat k) = ((Fechas.dayofweek d + k) mod 7)%nat.
Proof.
  unfold Fechas.dayofweek.
  apply Nat2Z.inj. rewrite Nat2Z.inj_mod, Nat2Z.inj_add.
  pose proof (Z.mod_pos_bound (d + 6) 7 eq_refl).
  pose proof (Z.mod_pos_bound (d + Z.of_nat k + 6) 7 eq_refl).
  rewrite !Z2Nat.id by lia.
  change (Z.of_nat 7) with 7.
  rewrite Zplus_mod_idemp_l. f_equal. lia.
Qed.

Lemma contiguo_lookup (index : list Z) (d0 : Z) (i : nat) :
  contiguo index -> index !! 0%nat = Some d0 -> (i < length index)%nat ->
  index !! i = Some (d0 + Z.of_nat i).
Proof.
  intros Hc H0. induction i as [|i IH]; intros Hi.
  - rewrite H0. f_equal. lia.
  - destruct (lookup_lt_is_Some_2 index (S i) Hi) as [b Hb].
    rewrite Hb. f_equal. rewrite (Hc i _ b (IH ltac:(lia)) Hb). lia.
Qed.

Lemma contiguo_seqZ (m n : Z) : contiguo (seqZ m n).
Proof.
  intros i a b Ha Hb.
  apply lookup_seqZ in Ha as [-> _]. apply lookup_seqZ in Hb as [-> _]. lia.
Qed.

(** Days from year 1 to the end of year [Y], modulo 7. *)
Lemma siglos (Y : Z) :
  exists k, Y * 365 + Y / 4 - Y / 100 + Y / 400 = siglo_mod Y + 7 * k.
Proof.
  unfold siglo_mod.
  set (c := Y / 100). set (g := Y - c * 100).
  assert (H4 : Y / 4 = 25 * c + g / 4).
  { replace Y with (g + (25 * c) * 4) by (unfold g; ring).
    rewrite Z.div_add by discriminate. ring. }
  assert (H400 : Y / 400 = c / 4).
  { unfold c. rewrite Z.div_div by lia. reflexivity. }
  rewrite H4, H400.
  exists (20871 * (c / 4) + 5217 * (c mod 4) + 52 * g).
  pose proof (Z.div_mod c 4 ltac:(discriminate)) as Hc.
  assert (HY : Y = 100 * c + g) by (unfold g; ring).
  rewrite HY at 1.
  generalize dependent (c / 4). generalize dependent (c mod 4).
  generalize dependent (g / 4). intros. lia.
Qed.

Lemma anio_siguiente (y : Z) :
  Fechas.days_before_year (y + 1)
  = Fechas.days_before_year y + 365 + (if Fechas.is_leap y then 1 else 0).
Proof.
  unfold Fechas.days_before_year, Fechas.is_leap. cbv zeta.
  replace (y + 1 - 1) with y by lia.
  destruct (Z.eqb_spec (y mod 4) 0), (Z.eqb_spec (y mod 100) 0),
    (Z.eqb_spec (y mod 400) 0); cbn [andb orb negb];
    Z.div_mod_to_equations; lia.
Qed.

Lemma mod7_mas (x y k : Z) : x = y + 7 * k -> x mod 7 = y mod 7.
Proof. intros ->. rewrite Z.mul_comm. apply Z_mod_plus_full. Qed.

Lemma days_before_month_tabla (y m : Z) :
  1 <= m <= 12 ->
  Fechas.days_before_month y m
  = nth (Z.to_nat (m - 1)) dias_antes_mes 0
    + if m <? 3 then 0 else if Fechas.is_leap y then 1 else 0.
Proof.
  intros Hm. unfold Fechas.days_before_month, Fechas.days_in_month.
  generalize (Fechas.is_leap y). intros b.
  assert (Hcasos : m = 1 \/ m = 2 \/ m = 3 \/ m = 4 \/ m = 5 \/ m = 6 \/ m = 7 \/
                   m = 8 \/ m = 9 \/ m = 10 \/ m = 11 \/ m = 12) by lia.
  repeat (destruct Hcasos as [->|Hcasos]; [vm_compute; destruct b; reflexivity|]).
  subst m. vm_compute. destruct b; reflexivity.
Qed.

Lemma sakamoto_tabla (m : Z) :
  1 <= m <= 12 ->
  exists j,
    nth (Z.to_nat (m - 1)) dias_antes_mes 0
    = nth (Z.to_nat (m - 1)) Fechas.sakamoto_arr 0
      + (if m <? 3 then 0 else 358) + 7 * j.
Proof.
  intros Hm.
  assert (Hcasos : m = 1 \/ m = 2 \/ m = 3 \/ m = 4 \/ m = 5 \/ m = 6 \/ m = 7 \/
                   m = 8 \/ m = 9 \/ m = 10 \/ m = 11 \/ m = 12) by lia.
  destruct Hcasos as [->|[->|[->|[->|[->|[->|[->|[->|[->|[->|[->| ->]]]]]]]]]]].
  - exists 0. reflexivity.
  - exists 4. reflexivity.
  - exists (-43). reflexivity.
  - exists (-39). reflexivity.
  - exists (-34). reflexivity.
  - exists (-30). reflexivity.
  - exists (-26). reflexivity.
  - exists (-21). reflexivity.
  - exists (-17). reflexivity.
  - exists (-13). reflexivity.
  - exists (-8). reflexivity.
  - exists (-4). reflexivity.
Qed.

(** The weekday of the ordinal is the weekday computed from the fields
    of the date. *)
Lemma dayofweek_campos_ok (y m d : Z) :
  1 <= m <= 12 ->
  Fechas.dayofweek_campos y m d = Fechas.dayofweek (Fechas.ymd2ord y m d).
Proof.
  intros Hm. unfold Fechas.dayofweek_campos, Fechas.dayofweek, Fechas.ymd2ord.
  cbv zeta. f_equal.
  rewrite (days_before_month_tabla y m Hm).
  destruct (sakamoto_tabla m Hm) as [j Hj]. rewrite Hj. clear Hj.
  generalize (nth (Z.to_nat (m - 1)) Fechas.sakamoto_arr 0). intros e.
  set (Y := if m <? 3 then y - 1 else y).
  replace (-1 + d + e + 5 * ((Y / 100) mod 4) + (Y - Y / 100 * 100)
           + (Y - Y / 100 * 100) / 4)
    with (-1 + d + e + siglo_mod Y) by (unfold siglo_mod; ring).
  destruct (siglos Y) as [k Hk]. unfold Y in *. clear Y.
  destruct (Z.ltb_spec m 3) as [Hlt|Hge].
  - unfold Fechas.days_before_year. cbv zeta. rewrite Hk.
    generalize (siglo_mod (y - 1)). intros S.
    apply (mod7_mas _ _ (- k - j - 1)). lia.
  - pose proof (anio_siguiente y) as Hsig.
    unfold Fechas.days_before_year in Hsig at 1. cbv zeta in Hsig.
    replace (y + 1 - 1) with y in Hsig by lia.
    rewrite Hk in Hsig.
    generalize dependent (siglo_mod y). intros S _ Hsig.
    generalize dependent (Fechas.days_before_year y). intros dby Hsig.
    apply (mod7_mas _ _ (- k - j)).
    destruct (Fechas.is_leap y); lia.
Qed.

Lemma days_before_month_1 (y : Z) : Fechas.days_before_month y 1 = 0.
Proof. reflexivity. Qed.

Lemma days_before_month_12 (y : Z) :
  Fechas.days_before_month y 12 = 334 + (if Fechas.is_leap y then 1 else 0).
Proof.
  unfold Fechas.days_before_month, Fechas.days_in_month.
  generalize (Fechas.is_leap y). intros b. vm_compute. destruct b; reflexivity.
Qed.

(** January 1st to December 31st: 365 days, 366 in a leap year. *)
Lemma dias_del_anio (anio : Z) :
  Fechas.ymd2ord anio 12 31 - Fechas.ymd2ord anio 1 1 + 1
  = if Fechas.is_leap anio then 366 else 365.
Proof.
  unfold Fechas.ymd2ord.
  rewrite days_before_month_1, days_before_month_12.
  destruct (Fechas.is_leap anio); lia.
Qed.

Lemma length_index_anual (anio : Z) :
  length (index_anual anio) = if Fechas.is_leap anio then 366%nat else 365%nat.
Proof.
  unfold index_anual, Fechas.date_range.
  rewrite length_seqZ, dias_del_anio.
  destruct (Fechas.is_leap anio); reflexivity.
Qed.

Lemma primera_fecha_index_anual (anio : Z) :
  primera_fecha (index_anual anio) = Ok (Fechas.ymd2ord anio 1 1).
Proof.
  apply primera_fecha_lookup.
  unfold index_anual, Fechas.date_range.
  rewrite lookup_seqZ_lt.
  - f_equal. lia.
  - rewrite dias_del_anio. destruct (Fechas.is_leap anio); lia.
Qed.

Lemma contiguo_index_anual (anio : Z) : contiguo (index_anual anio).
Proof. apply contiguo_seqZ. Qed.

End Calendario.

(** ** The grid *)

Section Rejilla.

Local Open Scope nat_scope.

(** The grid of an index that fits the reference list. *)
Lemma mapa_calendario_cabe (fechas : list Z) (tot : gmap Z Z) (d0 : Z) :
  primera_fecha fechas = Ok d0 ->
  length fechas + Fechas.dayofweek d0 <= 378 ->
  exists final,
    mapa_calendario fechas tot = Ok final /\
    index final = fechas /\
    total final = (fun d => tot !! d) <$> fechas /\
    dayofweek final = Fechas.dayofweek <$> fechas /\
    length (semana final) = length fechas /\
    forall i, i < length fechas ->
      semana final !! i = numero_semana !! (Fechas.dayofweek d0 + i) /\
      semana final !! i = Some ((Fechas.dayofweek d0 + i) / 7).
Proof.
  intros Hd Hn.
  destruct (columna_semana_Ok fechas d0 Hd Hn) as (semanas & Hs & Hlen & Hi).
  eexists. split.
  - unfold mapa_calendario. rewrite Hs. cbn [ligar]. reflexivity.
  - cbn. repeat split; try assumption; apply Hi; assumption.
Qed.

Lemma lookup_celda (final : DataFrame) (i : nat) (c : GridCell) :
  celda final i = Some c <->
  index final !! i = Some (date c) /\ total final !! i = Some (value c) /\
  dayofweek final !! i = Some (weekday c) /\ semana final !! i = Some (week_index c).
Proof.
  unfold celda. split.
  - intros H.
    destruct (index final !! i); [|discriminate].
    destruct (total final !! i); [|discriminate].
    destruct (dayofweek final !! i); [|discriminate].
    destruct (semana final !! i); [|discriminate].
    cbn in H. injection H as <-. cbn. repeat split.
  - intros (-> & -> & -> & ->). cbn. destruct c; reflexivity.
Qed.

End Rejilla.

(** C1. In the grid of a series whose first date has weekday [pad] and
    which fits the reference list once padded, as every series of at most
    372 days and so every year does, the week number of the day at offset
    [i] is the entry at position [pad + i] of the reference list
    [numero_semana], the list of the 54 week numbers each repeated seven
    times, that is [(pad + i) / 7]. With [pad = 0] it is [i / 7]; with [pad = 6] the first
    day is alone in week 0 and every later day is in week 1 or later, the
    second day in week 1. *)
Theorem C1_week_index_formula (index : list Z) (tot : gmap Z Z) (d0 : Z) (i : nat) :
  primera_fecha index = Ok d0 ->
  (length index + Fechas.dayofweek d0 <= 378)%nat ->
  (i < length index)%nat ->
  let pad := Fechas.dayofweek d0 in
  numero_semana = concat ((fun s => replicate 7 s) <$> seq 0 54) /\
  exists final,
    mapa_calendario index tot = Ok final /\
    semana final !! i = numero_semana !! (pad + i)%nat /\
    semana final !! i = Some ((pad + i) / 7)%nat /\
    (pad = 0%nat -> semana final !! i = Some (i / 7)%nat) /\
    (pad = 6%nat ->
       semana final !! 0%nat = Some 0%nat /\
       (i = 1%nat -> semana final !! i = Some 1%nat) /\
       (forall s, (1 <= i)%nat -> semana final !! i = Some s -> (1 <= s)%nat)).
Proof.
  intros Hd Hlen Hi pad. split; [reflexivity|].
  pose proof (dayofweek_lt d0) as Hpad. fold pad in Hpad.
  destruct (mapa_calendario_cabe index tot d0 Hd Hlen)
    as (final & Hf & _ & _ & _ & _ & Hsem).
  fold pad in Hsem.
  exists final. split; [exact Hf|].
  destruct (Hsem i Hi) as [Href Hdiv].
  split; [exact Href|]. split; [exact Hdiv|]. split.
  - intros H0. rewrite Hdiv, H0. reflexivity.
  - intros H6. split; [|split].
    + destruct (Hsem 0%nat ltac:(lia)) as [_ H]. rewrite H, H6. reflexivity.
    + intros ->. rewrite Hdiv, H6. reflexivity.
    + intros s H1 Hs. rewrite Hdiv, H6 in Hs. injection Hs as <-.
      apply (Nat.Div0.div_le_mono 7 (6 + i) 7); lia.
Qed.

Lemma C1_week_index_formula_witness :
  let index := Fechas.date_range (Fechas.ymd2ord 2023 1 1) (Fechas.ymd2ord 2023 1 3) in
  exists final,
    mapa_calendario index ∅ = Ok final /\ semana final !! 1%nat = Some 1%nat.
Proof.
  intros index.
  destruct (C1_week_index_formula index ∅ (Fechas.ymd2ord 2023 1 1) 1%nat
              eq_refl ltac:(vm_compute; lia) ltac:(vm_compute; lia))
    as (_ & final & Hf & _ & Hdiv & _).
  exists final. split; [exact Hf | exact Hdiv].
Defined.

Section RejillaContigua.

Local Open Scope nat_scope.

(** A grid is produced only for a non-empty index that fits the
    reference list once padded. *)
Lemma mapa_calendario_Ok_cabe (index : list Z) (tot : gmap Z Z) (final : DataFrame) :
  mapa_calendario index tot = Ok final ->
  exists d0, primera_fecha index = Ok d0 /\
             length index + Fechas.dayofweek d0 <= 378.
Proof.
  intros Hf. destruct index as [|d0 index'] eqn:Hindex; [discriminate|].
  rewrite <- Hindex in *. exists d0.
  assert (Hd : primera_fecha index = Ok d0) by (rewrite Hindex; reflexivity).
  split; [exact Hd|].
  destruct (decide (length index + Fechas.dayofweek d0 <= 378)) as [|Hlargo];
    [assumption|].
  unfold mapa_calendario in Hf.
  rewrite (columna_semana_largo index d0 Hd) in Hf by lia. discriminate.
Qed.

(** Row [i] of the grid of a contiguous index. *)
Lemma celda_contiguo (index : list Z) (tot : gmap Z Z) (final : DataFrame)
    (d0 : Z) (i : nat) :
  contiguo index ->
  primera_fecha index = Ok d0 ->
  mapa_calendario index tot = Ok final ->
  i < length index ->
  celda final i =
    Some {| date := d0 + Z.of_nat i;
            value := tot !! (d0 + Z.of_nat i)%Z;
            weekday := (Fechas.dayofweek d0 + i) mod 7;
            week_index := (Fechas.dayofweek d0 + i) / 7 |}.
Proof.
  intros Hc Hd Hf Hi.
  destruct (mapa_calendario_Ok_cabe index tot final Hf) as (d0' & Hd' & Hn).
  rewrite Hd in Hd'. injection Hd' as <-.
  destruct (mapa_calendario_cabe index tot d0 Hd Hn)
    as (final' & Hf' & Hidx & Htot & Hdow & _ & Hsem).
  rewrite Hf in Hf'. injection Hf' as <-.
  apply lookup_celda. cbn.
  pose proof (contiguo_lookup index d0 i Hc
                (proj1 (primera_fecha_lookup index d0) Hd) Hi) as Hl.
  rewrite Hidx, Htot, Hdow, !list_lookup_fmap, Hl. cbn.
  rewrite dayofweek_add. repeat split. apply Hsem. exact Hi.
Qed.

Lemma celda_is_Some (index : list Z) (tot : gmap Z Z) (final : DataFrame) (i : nat) :
  mapa_calendario index tot = Ok final ->
  is_Some (celda final i) <-> i < length index.
Proof.
  intros Hf.
  destruct (mapa_calendario_Ok_cabe index tot final Hf) as (d0 & Hd & Hn).
  destruct (mapa_calendario_cabe index tot d0 Hd Hn)
    as (final' & Hf' & Hidx & Htot & Hdow & Hlen & Hsem).
  rewrite Hf in Hf'. injection Hf' as <-.
  split.
  - intros [c Hcel]. apply lookup_celda in Hcel as (Hl & _).
    rewrite Hidx in Hl. eapply lookup_lt_Some, Hl.
  - intros Hi.
    destruct (lookup_lt_is_Some_2 index i Hi) as [d Hl].
    destruct (Hsem i Hi) as [_ Hs].
    exists {| date := d; value := tot !! d;
              weekday := Fechas.dayofweek d;
              week_index := (Fechas.dayofweek d0 + i) / 7 |}.
    apply lookup_celda. cbn.
    rewrite Hidx, Htot, Hdow, !list_lookup_fmap, Hl. cbn. repeat split.
    exact Hs.
Qed.

(** [main] always gets its grid: a year has at most 366 days. *)
Lemma main_final_existe (anio : Z) (tot : gmap Z Z) :
  exists final, main_final anio tot = Ok final.
Proof.
  pose proof (length_index_anual anio) as Hlen.
  pose proof (dayofweek_lt (Fechas.ymd2ord anio 1 1)) as Hpad.
  destruct (mapa_calendario_cabe (index_anual anio) tot _
              (primera_fecha_index_anual anio)) as (final & Hf & _).
  - destruct (Fechas.is_leap anio); lia.
  - exists final. exact Hf.
Qed.

End RejillaContigua.

(** C2. For every calendar year the grid has one cell per date of the
    year, in date order: 365 cells, 366 in a leap year, each date of the
    year in exactly one of them. Along the cells the date advances by one
    day, the week number never decreases, the weekday advances by one
    modulo 7, and the week numbers all lie in 0..53, so that at most 54
    distinct ones occur; a leap year that begins on a Sunday ends in
    week 53. *)
Theorem C2_grid_invariants (anio : Z) (tot : gmap Z Z) :
  let inicio := Fechas.ymd2ord anio 1 1 in
  let fin := Fechas.ymd2ord anio 12 31 in
  exists final,
    main_final anio tot = Ok final /\
    length (index final) = (if Fechas.is_leap anio then 366 else 365)%nat /\
    (forall i, is_Some (celda final i) <-> (i < length (index final))%nat) /\
    (forall d, inicio <= d <= fin ->
       exists i c, celda final i = Some c /\ date c = d /\
         forall j c', celda final j = Some c' -> date c' = d -> j = i) /\
    (forall i c, celda final i = Some c ->
       inicio <= date c <= fin /\ value c = tot !! date c) /\
    (forall i j ci cj, celda final i = Some ci -> celda final j = Some cj ->
       (i < j)%nat -> date ci < date cj /\ (week_index ci <= week_index cj)%nat) /\
    (forall i ci cj, celda final i = Some ci -> celda final (S i) = Some cj ->
       date cj = date ci + 1 /\ weekday cj = ((weekday ci + 1) mod 7)%nat) /\
    (forall i c, celda final i = Some c ->
       weekday c = Fechas.dayofweek (date c) /\ (weekday c < 7)%nat) /\
    (forall i c, celda final i = Some c -> (week_index c < 54)%nat) /\
    (length (remove_dups (semana final)) <= 54)%nat /\
    (Fechas.is_leap anio = true -> Fechas.dayofweek inicio = 6%nat ->
       last (semana final) = Some 53%nat).
Proof.
  intros inicio fin.
  pose proof (primera_fecha_index_anual anio) as Hd. fold inicio in Hd.
  pose proof (length_index_anual anio) as Hlen.
  pose proof (dias_del_anio anio) as Hdias. fold inicio fin in Hdias.
  pose proof (dayofweek_lt inicio) as Hpad.
  set (n := length (index_anual anio)) in *.
  assert (Hn : (365 <= n <= 366)%nat) by (destruct (Fechas.is_leap anio); lia).
  assert (Hspan : fin - inicio + 1 = Z.of_nat n)
    by (destruct (Fechas.is_leap anio); lia).
  destruct (mapa_calendario_cabe (index_anual anio) tot inicio Hd ltac:(fold n; lia))
    as (final & Hf & Hidx & _ & _ & Hlsem & Hsem).
  fold n in Hlsem, Hsem.
  assert (Hcel : forall i c, celda final i = Some c ->
            (i < n)%nat /\
            c = {| date := inicio + Z.of_nat i;
                   value := tot !! (inicio + Z.of_nat i);
                   weekday := ((Fechas.dayofweek inicio + i) mod 7)%nat;
                   week_index := ((Fechas.dayofweek inicio + i) / 7)%nat |}).
  { intros i c Hc.
    assert (Hi : (i < n)%nat)
      by (apply (celda_is_Some _ tot final i Hf); eauto).
    split; [exact Hi|].
    rewrite (celda_contiguo _ tot final inicio i
               (contiguo_index_anual anio) Hd Hf Hi) in Hc.
    injection Hc as <-. reflexivity. }
  exists final. split; [exact Hf|].
  split; [rewrite Hidx; exact Hlen|].
  split; [intros i; rewrite Hidx; apply (celda_is_Some _ tot final i Hf)|].
  split.
  { intros d Hdr. exists (Z.to_nat (d - inicio)). eexists. split.
    - apply (celda_contiguo _ tot final inicio _
               (contiguo_index_anual anio) Hd Hf). fold n. lia.
    - cbn [date]. split; [lia|].
      intros j c' Hc' Hdate. apply Hcel in Hc' as [_ ->]. cbn [date] in Hdate. lia. }
  split.
  { intros i c Hc. apply Hcel in Hc as [Hi ->]. cbn [date value weekday week_index]. split; [lia | reflexivity]. }
  split.
  { intros i j ci cj Hci Hcj Hij.
    apply Hcel in Hci as [_ ->]. apply Hcel in Hcj as [_ ->]. cbn [date value weekday week_index].
    split; [lia|]. apply Nat.Div0.div_le_mono. lia. }
  split.
  { intros i ci cj Hci Hcj.
    apply Hcel in Hci as [_ ->]. apply Hcel in Hcj as [_ ->]. cbn [date value weekday week_index].
    split; [lia|].
    rewrite Nat.Div0.add_mod_idemp_l. f_equal. lia. }
  split.
  { intros i c Hc. apply Hcel in Hc as [_ ->]. cbn [date value weekday week_index].
    split; [symmetry; apply dayofweek_add|].
    apply Nat.mod_upper_bound. lia. }
  assert (Hrango : forall s, s ∈ semana final -> (s < 54)%nat).
  { intros s Hs. apply list_elem_of_lookup in Hs as [i Hi].
    assert (Hin : (i < n)%nat) by (rewrite <- Hlsem; eapply lookup_lt_Some, Hi).
    destruct (Hsem i Hin) as [_ Hdiv].
    replace s with ((Fechas.dayofweek inicio + i) / 7)%nat by congruence.
    apply Nat.Div0.div_lt_upper_bound. lia. }
  split.
  { intros i c Hc. apply Hrango.
    apply lookup_celda in Hc as (_ & _ & _ & Hs).
    eapply list_elem_of_lookup_2, Hs. }
  split.
  { replace 54%nat with (length (seq 0 54)) by apply length_seq.
    apply submseteq_length, NoDup_submseteq; [apply NoDup_remove_dups|].
    intros s Hs. apply (proj1 (elem_of_remove_dups _ _)) in Hs.
    apply elem_of_seq. specialize (Hrango s Hs). lia. }
  intros Hleap H6. rewrite Hleap in Hlen.
  rewrite last_lookup, Hlsem.
  destruct (Hsem (pred n) ltac:(lia)) as [_ ->].
  rewrite H6. replace n with 366%nat by lia. reflexivity.
Qed.

Lemma C2_grid_invariants_witness :
  exists final,
    main_final 2012 ∅ = Ok final /\
    length (index final) = 366%nat /\
    last (semana final) = Some 53%nat.
Proof.
  destruct (C2_grid_invariants 2012 ∅)
    as (final & Hf & Hlen & _ & _ & _ & _ & _ & _ & _ & _ & Hult).
  exists final. split; [exact Hf|]. split; [exact Hlen|].
  apply Hult; reflexivity.
Defined.

(** C3. An index of more than 378 days gets no grid: the slice of the
    reference list stops at its end and is shorter than the index, and the
    assignment of the column raises (the exception is pandas' [ValueError]
    for a column whose length differs from that of the index). *)
Theorem C3_range_too_long (index : list Z) (tot : gmap Z Z) :
  (378 < length index)%nat ->
  (exists d0,
     primera_fecha index = Ok d0 /\
     let pad := Fechas.dayofweek d0 in
     (length (rebanada numero_semana pad (length index + pad))
      < length index)%nat) /\
  columna_semana index = Err ValueError /\
  mapa_calendario index tot = Err ValueError.
Proof.
  intros Hn. destruct index as [|d0 index'] eqn:Hindex; [cbn in Hn; lia|].
  rewrite <- Hindex in *.
  assert (Hd : primera_fecha index = Ok d0) by (rewrite Hindex; reflexivity).
  assert (Hcol : columna_semana index = Err ValueError)
    by (apply (columna_semana_largo index d0 Hd); lia).
  split; [|split; [exact Hcol|]].
  - exists d0. split; [exact Hd|]. cbv zeta.
    rewrite length_rebanada, length_numero_semana. lia.
  - unfold mapa_calendario. rewrite Hcol. reflexivity.
Qed.

Lemma C3_range_too_long_witness :
  let index := seqZ (Fechas.ymd2ord 2023 1 1) 400 in
  length index = 400%nat /\ mapa_calendario index ∅ = Err ValueError.
Proof.
  intros index. split; [reflexivity|].
  apply (C3_range_too_long index ∅).
  vm_compute. lia.
Defined.

(** C7, as the code has it. No date of the index is compared with
    another: a non-empty index that fits the reference list once padded
    gets its grid whatever the order of its dates and whatever the gaps
    between them, the week number of row [i] being [(pad + i) / 7]; the
    only failures are [IndexError] on an empty index and [ValueError] on
    one that does not fit. The index that [main] builds is contiguous by
    construction. *)
Theorem C7_no_range_validation (fechas : list Z) (tot : gmap Z Z) (d0 : Z) :
  primera_fecha fechas = Ok d0 ->
  (length fechas + Fechas.dayofweek d0 <= 378)%nat ->
  (exists final,
     mapa_calendario fechas tot = Ok final /\
     index final = fechas /\
     forall i, (i < length fechas)%nat ->
       semana final !! i = Some ((Fechas.dayofweek d0 + i) / 7)%nat) /\
  (forall l e, mapa_calendario l tot = Err e ->
     (l = [] /\ e = IndexError) \/
     (exists d, primera_fecha l = Ok d /\
                (378 < length l + Fechas.dayofweek d)%nat /\ e = ValueError)) /\
  (forall anio, contiguo (index_anual anio)).
Proof.
  intros Hd Hn. split; [|split].
  - destruct (mapa_calendario_cabe fechas tot d0 Hd Hn)
      as (final & Hf & Hidx & _ & _ & _ & Hsem).
    exists final. split; [exact Hf|]. split; [exact Hidx|].
    intros i Hi. apply Hsem, Hi.
  - intros l e He. destruct l as [|d l'] eqn:Hl.
    + left. split; [reflexivity|]. cbn in He. congruence.
    + right. exists d. split; [reflexivity|]. rewrite <- Hl in *.
      assert (Hp : primera_fecha l = Ok d) by (rewrite Hl; reflexivity).
      destruct (decide (length l + Fechas.dayofweek d <= 378)%nat) as [Hc|Hc].
      * destruct (mapa_calendario_cabe l tot d Hp Hc) as (final & Hf & _).
        congruence.
      * assert (Hlargo : (378 < length l + Fechas.dayofweek d)%nat) by lia.
        split; [exact Hlargo|].
        unfold mapa_calendario in He.
        rewrite (columna_semana_largo l d Hp Hlargo) in He.
        cbn in He. congruence.
  - apply contiguo_index_anual.
Qed.

Lemma C7_no_range_validation_witness :
  let fechas := [Fechas.ymd2ord 2023 1 2; Fechas.ymd2ord 2023 1 1] in
  exists final,
    mapa_calendario fechas ∅ = Ok final /\
    semana final !! 1%nat = Some 0%nat.
Proof.
  intros fechas.
  destruct (C7_no_range_validation fechas ∅ (Fechas.ymd2ord 2023 1 2)
              eq_refl ltac:(vm_compute; lia))
    as ((final & Hf & _ & Hsem) & _).
  exists final. split; [exact Hf|].
  apply (Hsem 1%nat). vm_compute. lia.
Defined.

(** C7, as stated, fails: an index that skips 2023-01-03 gets its grid,
    no exception is raised. *)
Lemma C7_counterexample :
  let fechas := [Fechas.ymd2ord 2023 1 1; Fechas.ymd2ord 2023 1 2;
                 Fechas.ymd2ord 2023 1 4] in
  ~ contiguo fechas /\
  exists final,
    mapa_calendario fechas ∅ = Ok final /\
    index final = fechas /\
    dayofweek final = [6; 0; 2]%nat /\
    semana final = [0; 1; 1]%nat.
Proof.
  intros fechas. split.
  - intros Hc. specialize (Hc 1%nat _ _ eq_refl eq_refl). discriminate.
  - eexists. split; [vm_compute; reflexivity|]. repeat split.
Qed.

(** C9, as the code has it. Along a contiguous index the week number of
    the day at offset [i + 7] is one more than that of the day at offset
    [i], seven days earlier. The days of week 0 are those at the offsets
    below [7 - pad], and the day at offset [7 - pad], the first Monday
    after the first date, is in week 1: the first increment comes after
    [7 - pad] days, which is seven days only when the first date is a
    Monday. *)
Theorem C9_week_step (fechas : list Z) (tot : gmap Z Z) (final : DataFrame)
    (d0 : Z) (i : nat) :
  contiguo fechas ->
  primera_fecha fechas = Ok d0 ->
  mapa_calendario fechas tot = Ok final ->
  let pad := Fechas.dayofweek d0 in
  (forall ci cj, celda final i = Some ci -> celda final (i + 7) = Some cj ->
     date cj = date ci + 7 /\ week_index cj = (week_index ci + 1)%nat) /\
  (forall c, celda final i = Some c ->
     (week_index c = 0%nat <-> (i < 7 - pad)%nat)) /\
  (forall c, celda final (7 - pad) = Some c -> week_index c = 1%nat) /\
  ((forall k c, (k < 7)%nat -> celda final k = Some c -> week_index c = 0%nat)
   -> (7 <= length fechas)%nat -> pad = 0%nat).
Proof.
  intros Hc Hd Hf pad.
  pose proof (dayofweek_lt d0) as Hpad. fold pad in Hpad.
  assert (Hcel : forall k c, celda final k = Some c ->
            (k < length fechas)%nat /\
            date c = d0 + Z.of_nat k /\
            week_index c = ((pad + k) / 7)%nat).
  { intros k c Hk.
    assert (Hlt : (k < length fechas)%nat)
      by (apply (celda_is_Some fechas tot final k Hf); eauto).
    rewrite (celda_contiguo fechas tot final d0 k Hc Hd Hf Hlt) in Hk.
    injection Hk as <-. repeat split. exact Hlt. }
  split; [|split; [|split]].
  - intros ci cj Hi Hj.
    apply Hcel in Hi as (_ & -> & ->). apply Hcel in Hj as (_ & -> & ->).
    split; [lia|].
    replace (pad + (i + 7))%nat with (pad + i + 1 * 7)%nat by lia.
    apply Nat.div_add. lia.
  - intros c Hi. apply Hcel in Hi as (_ & _ & ->). split.
    + intros H0. apply Nat.div_small_iff in H0; lia.
    + intros Hlt. apply Nat.div_small. lia.
  - intros c H1. apply Hcel in H1 as (_ & _ & ->).
    replace (pad + (7 - pad))%nat with 7%nat by lia. reflexivity.
  - intros Hsiete Hlen.
    destruct (proj2 (celda_is_Some fechas tot final 6 Hf) ltac:(lia)) as [c H6].
    pose proof (Hsiete 6%nat c ltac:(lia) H6) as Hw.
    apply Hcel in H6 as (_ & _ & Heq). rewrite Heq in Hw.
    apply Nat.div_small_iff in Hw; lia.
Qed.

Lemma C9_week_step_witness :
  exists final c0 c7,
    main_final 2023 ∅ = Ok final /\
    celda final 0 = Some c0 /\ celda final 7 = Some c7 /\
    week_index c7 = (week_index c0 + 1)%nat.
Proof.
  destruct (main_final_existe 2023 ∅) as (final & Hf).
  destruct (proj2 (celda_is_Some (index_anual 2023) ∅ final 0 Hf)
              ltac:(vm_compute; lia)) as [c0 H0].
  destruct (proj2 (celda_is_Some (index_anual 2023) ∅ final 7 Hf)
              ltac:(vm_compute; lia)) as [c7 H7].
  exists final, c0, c7. split; [exact Hf|]. split; [exact H0|]. split; [exact H7|].
  apply (C9_week_step (index_anual 2023) ∅ final (Fechas.ymd2ord 2023 1 1) 0%nat
           (contiguo_index_anual 2023) eq_refl Hf).
  - exact H0.
  - exact H7.
Defined.

(** C9, as stated, fails. 2023 begins on a Sunday: the first day is in
    week 0 and the second day, one day later, already in week 1. So it is
    not true that the week number stays put during the first seven days
    of every contiguous series. *)
Lemma C9_counterexample :
  (exists final,
     main_final 2023 ∅ = Ok final /\
     Fechas.dayofweek (Fechas.ymd2ord 2023 1 1) = 6%nat /\
     semana final !! 0%nat = Some 0%nat /\
     semana final !! 1%nat = Some 1%nat) /\
  ~ (forall fechas tot final,
       contiguo fechas -> mapa_calendario fechas tot = Ok final ->
       forall i s0 s, (i < 7)%nat ->
         semana final !! 0%nat = Some s0 -> semana final !! i = Some s -> s = s0).
Proof.
  destruct (mapa_calendario_cabe (index_anual 2023) ∅ (Fechas.ymd2ord 2023 1 1)
              eq_refl ltac:(vm_compute; lia)) as (final & Hf & _ & _ & _ & _ & Hsem).
  destruct (Hsem 0%nat ltac:(vm_compute; lia)) as [_ H0].
  destruct (Hsem 1%nat ltac:(vm_compute; lia)) as [_ H1].
  split.
  - exists final. repeat split; assumption.
  - intros H.
    specialize (H (index_anual 2023) ∅ final (contiguo_index_anual 2023) Hf
                  1%nat 0%nat 1%nat ltac:(lia) H0 H1).
    discriminate.
Qed.

(** C10. Along a contiguous index the cell at offset [i] has weekday
    [(pad + i) mod 7] and week number [(pad + i) / 7], so the offset is
    [7 * week_index + weekday - pad]: two cells with the same weekday and
    the same week number are the same cell. *)
Theorem C10_cell_injective (fechas : list Z) (tot : gmap Z Z) (final : DataFrame)
    (d0 : Z) (i j : nat) (ci cj : GridCell) :
  contiguo fechas ->
  primera_fecha fechas = Ok d0 ->
  mapa_calendario fechas tot = Ok final ->
  celda final i = Some ci ->
  celda final j = Some cj ->
  let pad := Fechas.dayofweek d0 in
  weekday ci = ((pad + i) mod 7)%nat /\
  week_index ci = ((pad + i) / 7)%nat /\
  i = (7 * week_index ci + weekday ci - pad)%nat /\
  (weekday ci = weekday cj -> week_index ci = week_index cj ->
   i = j /\ ci = cj) /\
  (i <> j -> (week_index ci, weekday ci) <> (week_index cj, weekday cj)).
Proof.
  intros Hc Hd Hf Hi Hj pad.
  assert (Hcel : forall k c, celda final k = Some c ->
            weekday c = ((pad + k) mod 7)%nat /\
            week_index c = ((pad + k) / 7)%nat).
  { intros k c Hk.
    assert (Hlt : (k < length fechas)%nat)
      by (apply (celda_is_Some fechas tot final k Hf); eauto).
    rewrite (celda_contiguo fechas tot final d0 k Hc Hd Hf Hlt) in Hk.
    injection Hk as <-. split; reflexivity. }
  destruct (Hcel i ci Hi) as [Hwi Hsi]. destruct (Hcel j cj Hj) as [Hwj Hsj].
  pose proof (Nat.div_mod_eq (pad + i) 7) as Ei.
  pose proof (Nat.div_mod_eq (pad + j) 7) as Ej.
  assert (Hinj : weekday ci = weekday cj -> week_index ci = week_index cj -> i = j).
  { intros Hw Hs. rewrite Hwi, Hwj in Hw. rewrite Hsi, Hsj in Hs. lia. }
  split; [exact Hwi|]. split; [exact Hsi|]. split; [rewrite Hwi, Hsi; lia|].
  split.
  - intros Hw Hs. pose proof (Hinj Hw Hs) as ->. split; [reflexivity|].
    congruence.
  - intros Hne Heq. apply Hne, Hinj; congruence.
Qed.

Lemma C10_cell_injective_witness :
  exists final c3 c10,
    main_final 2023 ∅ = Ok final /\
    celda final 3 = Some c3 /\ celda final 10 = Some c10 /\
    (week_index c3, weekday c3) <> (week_index c10, weekday c10).
Proof.
  destruct (main_final_existe 2023 ∅) as (final & Hf).
  destruct (proj2 (celda_is_Some (index_anual 2023) ∅ final 3 Hf)
              ltac:(vm_compute; lia)) as [c3 H3].
  destruct (proj2 (celda_is_Some (index_anual 2023) ∅ final 10 Hf)
              ltac:(vm_compute; lia)) as [c10 H10].
  exists final, c3, c10.
  split; [exact Hf|]. split; [exact H3|]. split; [exact H10|].
  apply (C10_cell_injective (index_anual 2023) ∅ final (Fechas.ymd2ord 2023 1 1)
           3 10 c3 c10 (contiguo_index_anual 2023) eq_refl Hf H3 H10).
  lia.
Defined.

(** ** The colour scale *)

Section Escalas.

Local Open Scope Q_scope.

Lemma length_linspace (a b : Q) (num : nat) : length (linspace a b num) = num.
Proof.
  unfold linspace. destruct (decide _).
  - rewrite length_insert, length_fmap, length_seq. reflexivity.
  - rewrite length_fmap, length_seq. reflexivity.
Qed.

Lemma inject_nat_pos (k : nat) : (0 < k)%nat -> 0 < inject_Z (Z.of_nat k).
Proof.
  intros Hk. change 0 with (inject_Z 0). rewrite <- Zlt_Qlt. lia.
Qed.

(** The marks are evenly spaced from [a]. *)
Lemma lookup_linspace (a b : Q) (num i : nat) :
  (2 <= num)%nat -> (i < num)%nat ->
  exists t,
    linspace a b num !! i = Some t /\
    t == a + inject_Z (Z.of_nat i) * ((b - a) / inject_Z (Z.of_nat (num - 1))).
Proof.
  intros Hnum Hi. unfold linspace.
  destruct (decide (1 < num)%nat) as [_|]; [|lia].
  pose proof (inject_nat_pos (num - 1) ltac:(lia)) as Hpos.
  destruct (decide (i = (num - 1)%nat)) as [->|Hne].
  - exists b. split.
    + apply list_lookup_insert_eq. rewrite length_fmap, length_seq. lia.
    + field. lra.
  - eexists. split.
    + rewrite list_lookup_insert_ne by congruence.
      rewrite list_lookup_fmap, lookup_seq_lt by lia. reflexivity.
    + cbn [Nat.add]. ring.
Qed.

Lemma linspace_ultima (a b : Q) (num : nat) :
  (2 <= num)%nat -> last (linspace a b num) = Some b.
Proof.
  intros Hnum. rewrite last_lookup, length_linspace. unfold linspace.
  destruct (decide (1 < num)%nat) as [_|]; [|lia].
  replace (pred num) with (num - 1)%nat by lia.
  apply list_lookup_insert_eq. rewrite length_fmap, length_seq. lia.
Qed.

(** With [a <= b] the marks never decrease. *)
Lemma linspace_creciente (a b : Q) (num i j : nat) (s t : Q) :
  (2 <= num)%nat -> a <= b -> (i <= j)%nat ->
  linspace a b num !! i = Some s -> linspace a b num !! j = Some t ->
  s <= t.
Proof.
  intros Hnum Hab Hij Hs Ht.
  assert (Hj : (j < num)%nat)
    by (rewrite <- (length_linspace a b num); eapply lookup_lt_Some, Ht).
  destruct (lookup_linspace a b num i Hnum ltac:(lia)) as (s' & Hs' & Es).
  destruct (lookup_linspace a b num j Hnum Hj) as (t' & Ht' & Et).
  rewrite Hs in Hs'. injection Hs' as <-. rewrite Ht in Ht'. injection Ht' as <-.
  rewrite Es, Et.
  pose proof (inject_nat_pos (num - 1) ltac:(lia)) as Hpos.
  assert (Hstep : 0 <= (b - a) / inject_Z (Z.of_nat (num - 1))).
  { apply Qle_shift_div_l; [exact Hpos|]. lra. }
  assert (Hq : inject_Z (Z.of_nat i) <= inject_Z (Z.of_nat j))
    by (rewrite <- Zle_Qle; lia).
  set (step := (b - a) / inject_Z (Z.of_nat (num - 1))) in *.
  apply Qplus_le_r. apply Qmult_le_compat_r; assumption.
Qed.

(** [Series.min()] returns an entry that is below every entry. *)
Lemma foldl_min (x : Q) (resto : list Q) :
  let m := foldl (fun m v => if decide (m <= v) then m else v) x resto in
  m ∈ x :: resto /\ forall v, v ∈ x :: resto -> m <= v.
Proof.
  revert x. induction resto as [|y resto IH]; intros x; cbn.
  - split; [left|]. intros v Hv. apply list_elem_of_singleton in Hv as ->. lra.
  - destruct (decide (x <= y)) as [Hxy|Hxy].
    + destruct (IH x) as [Hin Hle]. split.
      * apply elem_of_cons in Hin as [->|Hin]; [left | right; right; exact Hin].
      * intros v Hv. apply elem_of_cons in Hv as [->|Hv]; [apply Hle; left|].
        apply elem_of_cons in Hv as [->|Hv].
        -- pose proof (Hle x ltac:(left)). lra.
        -- apply Hle. right. exact Hv.
    + destruct (IH y) as [Hin Hle]. split.
      * right. exact Hin.
      * intros v Hv. apply elem_of_cons in Hv as [->|Hv]; [|apply Hle, Hv].
        pose proof (Hle y ltac:(left)). lra.
Qed.

Lemma serie_min_spec (valores : list Q) :
  valores <> [] ->
  exists m, serie_min valores = Some m /\ m ∈ valores /\
            forall v, v ∈ valores -> m <= v.
Proof.
  destruct valores as [|x resto]; [congruence|]. intros _.
  eexists. split; [reflexivity|]. apply foldl_min.
Qed.

(** The order statistics: the valid values, sorted. *)
Lemma ordenados_spec (valores : list Q) :
  StronglySorted Qle (merge_sort Qle valores) /\
  merge_sort Qle valores ≡ₚ valores.
Proof.
  split; [apply StronglySorted_merge_sort; apply _ | apply merge_sort_Permutation].
Qed.

Lemma length_ordenados (valores : list Q) :
  length (merge_sort Qle valores) = length valores.
Proof. apply Permutation_length, merge_sort_Permutation. Qed.

Lemma lerp_cota_inf (m x y g : Q) :
  0 <= g <= 1 -> m <= x -> m <= y -> m <= lerp x y g.
Proof.
  intros [Hg0 Hg1] Hx Hy. unfold lerp.
  assert (H1 : 0 <= (1 - g) * (x - m)) by (apply Qmult_le_0_compat; lra).
  assert (H2 : 0 <= g * (y - m)) by (apply Qmult_le_0_compat; lra).
  assert (E : x + (y - x) * g - m == (1 - g) * (x - m) + g * (y - m)) by ring.
  lra.
Qed.

Lemma lerp_cota_sup (M x y g : Q) :
  0 <= g <= 1 -> x <= M -> y <= M -> lerp x y g <= M.
Proof.
  intros [Hg0 Hg1] Hx Hy. unfold lerp.
  assert (H1 : 0 <= (1 - g) * (M - x)) by (apply Qmult_le_0_compat; lra).
  assert (H2 : 0 <= g * (M - y)) by (apply Qmult_le_0_compat; lra).
  assert (E : M - (x + (y - x) * g) == (1 - g) * (M - x) + g * (M - y)) by ring.
  lra.
Qed.

(** The virtual index [(n - 1) * q] and its floor stay inside the list. *)
Lemma indice_virtual (n : nat) (q : Q) :
  (1 <= n)%nat -> 0 <= q <= 1 ->
  let virtual := inject_Z (Z.of_nat (n - 1)) * q in
  0 <= virtual <= inject_Z (Z.of_nat (n - 1)) /\
  (0 <= Qfloor virtual <= Z.of_nat (n - 1))%Z /\
  0 <= virtual - inject_Z (Qfloor virtual) /\
  virtual - inject_Z (Qfloor virtual) < 1.
Proof.
  intros Hn [Hq0 Hq1] virtual.
  assert (Hk : 0 <= inject_Z (Z.of_nat (n - 1)))
    by (change 0 with (inject_Z 0); rewrite <- Zle_Qle; lia).
  assert (Hv : 0 <= virtual <= inject_Z (Z.of_nat (n - 1))).
  { unfold virtual. split.
    - apply Qmult_le_0_compat; assumption.
    - assert (H : q * inject_Z (Z.of_nat (n - 1))
                  <= 1 * inject_Z (Z.of_nat (n - 1)))
        by (apply Qmult_le_compat_r; assumption).
      lra. }
  split; [exact Hv|]. split; [|split].
  - split.
    + rewrite <- (Qfloor_Z 0). apply Qfloor_resp_le, Hv.
    + rewrite <- (Qfloor_Z (Z.of_nat (n - 1))). apply Qfloor_resp_le, Hv.
  - pose proof (Qfloor_le virtual). lra.
  - pose proof (Qlt_floor virtual) as H. rewrite inject_Z_plus in H.
    change (inject_Z 1) with 1 in H. lra.
Qed.

(** What [quantile] reads from the sorted values. *)
Lemma quantile_anatomia (q : Q) (valores : list Q) :
  valores <> [] -> 0 <= q <= 1 ->
  let ordenados := merge_sort Qle valores in
  let n := length valores in
  let virtual := inject_Z (Z.of_nat (n - 1)) * q in
  let previo := Qfloor virtual in
  let siguiente := Z.min (previo + 1) (Z.of_nat (n - 1)) in
  exists x y,
    ordenados !! Z.to_nat previo = Some x /\
    ordenados !! Z.to_nat siguiente = Some y /\
    quantile q valores = Some (lerp x y (virtual - inject_Z previo)).
Proof.
  intros Hne Hq. cbv zeta.
  assert (Hn : (1 <= length valores)%nat)
    by (destruct valores; [congruence | cbn; lia]).
  destruct (indice_virtual (length valores) q Hn Hq) as (_ & Hp & _).
  pose proof (length_ordenados valores) as Hlen.
  destruct (lookup_lt_is_Some_2 (merge_sort Qle valores)
              (Z.to_nat (Qfloor (inject_Z (Z.of_nat (length valores - 1)) * q))))
    as [x Hx]; [lia|].
  destruct (lookup_lt_is_Some_2 (merge_sort Qle valores)
              (Z.to_nat (Z.min
                 (Qfloor (inject_Z (Z.of_nat (length valores - 1)) * q) + 1)
                 (Z.of_nat (length valores - 1)))))
    as [y Hy]; [lia|].
  exists x, y. split; [exact Hx|]. split; [exact Hy|].
  destruct valores as [|x0 resto]; [congruence|].
  unfold quantile. cbv zeta. rewrite Hlen.
  rewrite (nth_lookup_Some _ _ x0 _ Hx), (nth_lookup_Some _ _ x0 _ Hy).
  reflexivity.
Qed.

(** The quantile interpolates two of the values. *)
Lemma quantile_entre (q : Q) (valores : list Q) :
  valores <> [] -> 0 <= q <= 1 ->
  exists x y g,
    quantile q valores = Some (lerp x y g) /\
    x ∈ valores /\ y ∈ valores /\ 0 <= g /\ g < 1.
Proof.
  intros Hne Hq.
  destruct (quantile_anatomia q valores Hne Hq) as (x & y & Hx & Hy & Hquant).
  assert (Hn : (1 <= length valores)%nat)
    by (destruct valores; [congruence | cbn; lia]).
  destruct (indice_virtual (length valores) q Hn Hq) as (_ & _ & Hg0 & Hg1).
  assert (Hin : forall i v, merge_sort Qle valores !! i = Some v -> v ∈ valores).
  { intros i v Hi. rewrite <- (merge_sort_Permutation Qle valores).
    eapply list_elem_of_lookup_2, Hi. }
  exists x, y. eexists. split; [exact Hquant|].
  split; [apply (Hin _ _ Hx)|]. split; [apply (Hin _ _ Hy)|].
  split; assumption.
Qed.

(** The 95th percentile is not below the minimum. *)
Lemma min_le_quantile (q : Q) (valores : list Q) (m c : Q) :
  0 <= q <= 1 -> serie_min valores = Some m -> quantile q valores = Some c ->
  m <= c.
Proof.
  intros Hq Hm Hc.
  assert (Hne : valores <> []) by (intros ->; discriminate).
  destruct (serie_min_spec valores Hne) as (m' & Hm' & _ & Hle).
  rewrite Hm in Hm'. injection Hm' as <-.
  destruct (quantile_entre q valores Hne Hq) as (x & y & g & Hquant & Hx & Hy & Hg0 & Hg1).
  rewrite Hc in Hquant. injection Hquant as ->.
  apply lerp_cota_inf; [lra | apply Hle, Hx | apply Hle, Hy].
Qed.

(** A flat range gives flat marks. *)
Lemma linspace_plano (a b c t : Q) (num : nat) :
  a == c -> b == c -> t ∈ linspace a b num -> t == c.
Proof.
  intros Ha Hb Ht. unfold linspace in Ht.
  assert (Hfmap : forall u,
            u ∈ (fun i : nat => inject_Z (Z.of_nat i)
                   * ((b - a) / inject_Z (Z.of_nat (num - 1))) + a) <$> seq 0 num ->
            u == c).
  { intros u Hu. apply list_elem_of_fmap in Hu as (i & -> & _).
    unfold Qdiv. rewrite Ha, Hb. ring. }
  destruct (decide (1 < num)%nat); [|apply Hfmap, Ht].
  apply list_elem_of_lookup in Ht as [i Hi].
  apply list_lookup_insert_Some in Hi as [(_ & <- & _)|[_ Hi]]; [exact Hb|].
  eapply Hfmap, list_elem_of_lookup_2, Hi.
Qed.

(** The last label gets the mark. *)
Lemma marcar_ultima_spec (l : list string) :
  l <> [] ->
  exists u es,
    last l = Some u /\ marcar_ultima l = Ok es /\
    length es = length l /\
    last es = Some (mayor_o_igual ++ u)%string /\
    forall i, (i < pred (length l))%nat -> es !! i = l !! i.
Proof.
  intros Hne.
  assert (Hlen : (0 < length l)%nat) by (destruct l; [congruence | cbn; lia]).
  destruct (lookup_lt_is_Some_2 l (pred (length l)) ltac:(lia)) as [u Hu].
  rewrite <- last_lookup in Hu.
  exists u. eexists. split; [exact Hu|]. unfold marcar_ultima. rewrite Hu.
  split; [reflexivity|]. split; [apply length_insert|]. split.
  - rewrite last_lookup, length_insert. apply list_lookup_insert_eq. lia.
  - intros i Hi. apply list_lookup_insert_ne. lia.
Qed.

(** The scale of a non-empty series. *)
Lemma escala_spec (valores : list Q) (num : nat) :
  valores <> [] -> (1 <= num)%nat ->
  exists vmin vmax es,
    serie_min valores = Some vmin /\
    quantile (95 # 100) valores = Some vmax /\
    escala valores num =
      Ok {| valor_min := Some vmin; valor_max := Some vmax;
            marcas := Some <$> linspace vmin vmax num; etiquetas := es |} /\
    length es = num /\
    last es = (fun t => (mayor_o_igual ++ formato_0f (Some t))%string)
                <$> last (linspace vmin vmax num).
Proof.
  intros Hne Hnum.
  destruct (serie_min_spec valores Hne) as (vmin & Hmin & _).
  destruct (quantile_entre (95 # 100) valores Hne ltac:(lra))
    as (x & y & g & Hmax & _).
  exists vmin, (lerp x y g).
  destruct (marcar_ultima_spec
              (formato_0f <$> (Some <$> linspace vmin (lerp x y g) num)))
    as (u & es & Hu & Hes & Hlen & Hlast & _).
  { intros H. apply (f_equal length) in H.
    rewrite !length_fmap, length_linspace in H. cbn in H. lia. }
  exists es. split; [exact Hmin|]. split; [exact Hmax|]. split.
  - unfold escala. rewrite Hmin, Hmax. cbn [np_linspace].
    rewrite Hes. reflexivity.
  - split.
    + rewrite Hlen, !length_fmap. apply length_linspace.
    + rewrite Hlast. rewrite !fmap_last in Hu.
      destruct (last (linspace vmin (lerp x y g) num)); cbn in Hu |- *;
        congruence.
Qed.

(** The scale of the calendar, for a year with at least one valid total. *)
Lemma escala_calendario_spec (final : DataFrame) :
  dropna (total final) <> [] ->
  exists E,
    escala_calendario final = Ok E /\
    length (marcas E) = 9%nat /\ length (etiquetas E) = 9%nat.
Proof.
  intros Hne. unfold escala_calendario.
  destruct (escala_spec (dropna (total final)) 9 Hne ltac:(lia))
    as (vmin & vmax & es & _ & _ & Hesc & Hlen & _).
  eexists. split; [exact Hesc|]. cbn [marcas etiquetas].
  rewrite length_fmap, length_linspace. split; [reflexivity | exact Hlen].
Qed.

End Escalas.

(** C4. For a non-empty series and at least two marks the scale has
    exactly [num] marks and [num] labels; the marks start at the minimum
    of the values, end at their 95th percentile, are evenly spaced in
    between and never decrease; the last label is the mark "≥" followed
    by the formatted percentile. *)
Theorem C4_scale_structure (valores : list Q) (num : nat) :
  valores <> [] ->
  (2 <= num)%nat ->
  exists vmin vmax ticks es,
    escala valores num =
      Ok {| valor_min := Some vmin; valor_max := Some vmax;
            marcas := Some <$> ticks; etiquetas := es |} /\
    (vmin ∈ valores /\ forall v, v ∈ valores -> (vmin <= v)%Q) /\
    quantile (95 # 100) valores = Some vmax /\
    length ticks = num /\
    (forall i t, ticks !! i = Some t ->
       (t == vmin + inject_Z (Z.of_nat i)
                    * ((vmax - vmin) / inject_Z (Z.of_nat (num - 1))))%Q) /\
    (exists t0, ticks !! 0%nat = Some t0 /\ (t0 == vmin)%Q) /\
    last ticks = Some vmax /\
    (forall i j s t, (i <= j)%nat -> ticks !! i = Some s -> ticks !! j = Some t ->
       (s <= t)%Q) /\
    length es = num /\
    last es = Some (mayor_o_igual ++ formato_0f (Some vmax))%string.
Proof.
  intros Hne Hnum.
  destruct (escala_spec valores num Hne ltac:(lia))
    as (vmin & vmax & es & Hmin & Hmax & Hesc & Hlen & Hlast).
  destruct (serie_min_spec valores Hne) as (vmin' & Hmin' & Hin & Hle).
  rewrite Hmin in Hmin'. injection Hmin' as <-.
  pose proof (min_le_quantile (95 # 100) valores vmin vmax ltac:(lra) Hmin Hmax)
    as Hminmax.
  exists vmin, vmax, (linspace vmin vmax num), es.
  split; [exact Hesc|]. split; [split; assumption|]. split; [exact Hmax|].
  split; [apply length_linspace|]. split.
  { intros i t Ht.
    assert (Hi : (i < num)%nat)
      by (rewrite <- (length_linspace vmin vmax num); eapply lookup_lt_Some, Ht).
    destruct (lookup_linspace vmin vmax num i Hnum Hi) as (t' & Ht' & Et).
    rewrite Ht in Ht'. injection Ht' as <-. exact Et. }
  split.
  { destruct (lookup_linspace vmin vmax num 0 Hnum ltac:(lia)) as (t0 & Ht0 & Et).
    exists t0. split; [exact Ht0|]. rewrite Et. cbn. ring. }
  split; [apply linspace_ultima, Hnum|]. split.
  { intros i j s t Hij Hs Ht.
    exact (linspace_creciente vmin vmax num i j s t Hnum Hminmax Hij Hs Ht). }
  split; [exact Hlen|].
  rewrite Hlast, (linspace_ultima vmin vmax num Hnum). reflexivity.
Qed.

Lemma C4_scale_structure_witness :
  exists E,
    escala [3; 7; 0; 2]%Q 9 = Ok E /\
    length (marcas E) = 9%nat /\ length (etiquetas E) = 9%nat.
Proof.
  destruct (C4_scale_structure [3; 7; 0; 2]%Q 9 ltac:(discriminate) ltac:(lia))
    as (vmin & vmax & ticks & es & Hesc & _ & _ & Hticks & _ & _ & _ & _ & Hes & _).
  eexists. split; [exact Hesc|]. cbn [marcas etiquetas].
  rewrite length_fmap. split; assumption.
Defined.

(** C8. A series whose values all equal [c] is no error: its scale has
    minimum [c], maximum [c] and every mark equal to [c]. *)
Theorem C8_flat_scale (valores : list Q) (c : Q) (num : nat) :
  valores <> [] ->
  (forall v, v ∈ valores -> (v == c)%Q) ->
  (1 <= num)%nat ->
  exists E,
    escala valores num = Ok E /\
    flotante_eq (valor_min E) (Some c) /\
    flotante_eq (valor_max E) (Some c) /\
    length (marcas E) = num /\
    forall t, t ∈ marcas E -> flotante_eq t (Some c).
Proof.
  intros Hne Hc Hnum.
  destruct (escala_spec valores num Hne Hnum)
    as (vmin & vmax & es & Hmin & Hmax & Hesc & _).
  destruct (serie_min_spec valores Hne) as (vmin' & Hmin' & Hin & _).
  rewrite Hmin in Hmin'. injection Hmin' as <-.
  destruct (quantile_entre (95 # 100) valores Hne ltac:(lra))
    as (x & y & g & Hquant & Hx & Hy & _).
  rewrite Hmax in Hquant. injection Hquant as ->.
  assert (Emin : (vmin == c)%Q) by apply Hc, Hin.
  assert (Emax : (lerp x y g == c)%Q).
  { unfold lerp. rewrite (Hc x Hx), (Hc y Hy). ring. }
  eexists. split; [exact Hesc|]. cbn [valor_min valor_max marcas flotante_eq].
  split; [exact Emin|]. split; [exact Emax|].
  split; [rewrite length_fmap; apply length_linspace|].
  intros t Ht. apply list_elem_of_fmap in Ht as (t' & -> & Ht').
  cbn. exact (linspace_plano vmin (lerp x y g) c t' num Emin Emax Ht').
Qed.

Lemma C8_flat_scale_witness :
  exists E,
    escala [5; 5; 5; 5]%Q 9 = Ok E /\
    flotante_eq (valor_min E) (Some 5%Q) /\
    flotante_eq (valor_max E) (Some 5%Q) /\
    length (marcas E) = 9%nat /\
    forall t, t ∈ marcas E -> flotante_eq t (Some 5%Q).
Proof.
  apply (C8_flat_scale [5; 5; 5; 5]%Q 5%Q 9).
  - discriminate.
  - intros v Hv. repeat (apply elem_of_cons in Hv as [->|Hv]; [reflexivity|]).
    apply elem_of_nil in Hv. contradiction.
  - lia.
Defined.

(** ** The percentile *)

Section Percentil.

Local Open Scope Q_scope.

(** The ceiling of a rank is its floor when the rank is whole, and the
    next integer otherwise. *)
Lemma Qceiling_casos (h : Q) :
  (h == inject_Z (Qfloor h) /\ Qceiling h = Qfloor h) \/
  (inject_Z (Qfloor h) < h /\ Qceiling h = (Qfloor h + 1)%Z).
Proof.
  pose proof (Qfloor_le h) as Hf1. pose proof (Qlt_floor h) as Hf2.
  pose proof (Qle_ceiling h) as Hc1. pose proof (Qceiling_lt h) as Hc2.
  destruct (Qlt_le_dec (inject_Z (Qfloor h)) h) as [Hlt|Hle].
  - right. split; [exact Hlt|].
    assert (H1 : (Qceiling h - 1 < Qfloor h + 1)%Z)
      by (rewrite Zlt_Qlt; eapply Qlt_trans; eassumption).
    assert (H2 : (Qfloor h < Qceiling h)%Z)
      by (rewrite Zlt_Qlt; eapply Qlt_le_trans; eassumption).
    lia.
  - left. assert (E : h == inject_Z (Qfloor h)) by (apply Qle_antisym; assumption).
    split; [exact E|]. rewrite E at 1. apply Qceiling_Z.
Qed.

(** [quantile] computes the percentile of the specification. *)
Lemma quantile_percentil_spec (q : Q) (valores : list Q) :
  valores <> [] -> 0 <= q <= 1 ->
  flotante_eq (quantile q valores) (percentil_spec q valores).
Proof.
  intros Hne Hq.
  destruct (quantile_anatomia q valores Hne Hq) as (x & y & Hx & Hy & ->).
  assert (Hn : (1 <= length valores)%nat)
    by (destruct valores; [congruence | cbn; lia]).
  destruct (indice_virtual (length valores) q Hn Hq) as (Hv & Hp & _).
  set (virtual := inject_Z (Z.of_nat (length valores - 1)) * q) in *.
  assert (Erango : q * inject_Z (Z.of_nat (length valores - 1)) == virtual)
    by (unfold virtual; ring).
  destruct valores as [|x0 resto] eqn:Hval; [congruence|]. rewrite <- Hval in *.
  unfold percentil_spec. rewrite Hval at 1. cbv zeta.
  set (rango := q * inject_Z (Z.of_nat (length valores - 1))) in *.
  assert (Efloor : Qfloor rango = Qfloor virtual) by (rewrite Erango; reflexivity).
  rewrite Efloor, (nth_lookup_Some _ _ x0 _ Hx).
  cbn [flotante_eq]. unfold lerp.
  destruct (Qceiling_casos rango) as [[Eint Eceil]|[Hfrac Eceil]].
  - rewrite Eceil, Efloor, (nth_lookup_Some _ _ x0 _ Hx).
    rewrite Efloor, Erango in Eint. rewrite Erango.
    assert (Eg : virtual - inject_Z (Qfloor virtual) == 0) by lra.
    rewrite Eg. ring.
  - rewrite Eceil, Efloor.
    assert (Hsig : Z.min (Qfloor virtual + 1) (Z.of_nat (length valores - 1))
                   = (Qfloor virtual + 1)%Z).
    { apply Z.min_l.
      assert (Hlt : (Qfloor virtual < Z.of_nat (length valores - 1))%Z).
      { rewrite Zlt_Qlt. rewrite Efloor, Erango in Hfrac.
        eapply Qlt_le_trans; [exact Hfrac | apply Hv]. }
      lia. }
    rewrite Hsig in Hy. rewrite (nth_lookup_Some _ _ x0 _ Hy).
    rewrite Erango. ring.
Qed.

End Percentil.

(** C5, as the code has it. The maximum of the scale is the 95th
    percentile by linear interpolation between the order statistics at
    the floor and at the ceiling of the rank [0.95 * (n - 1)]. On the
    values 0, 1, ..., 100 with 9 marks the rank is 95, a whole number, and
    the maximum is exactly 95: the scale has 9 marks, 0, 11.875, 23.75,
    ..., 95, strictly increasing, and the last label is "≥95". *)
Theorem C5_percentile_clamp (valores : list Q) (q : Q) :
  valores <> [] ->
  (0 <= q <= 1)%Q ->
  flotante_eq (quantile q valores) (percentil_spec q valores) /\
  (exists vmax,
     quantile (95 # 100) valores = Some vmax /\
     forall num E, escala valores num = Ok E -> valor_max E = Some vmax) /\
  exists E,
    escala (inject_Z <$> seqZ 0 101) 9 = Ok E /\
    flotante_eq (valor_min E) (Some 0%Q) /\
    flotante_eq (valor_max E) (Some 95%Q) /\
    Forall2 flotante_eq (marcas E)
      (Some <$> [0; 95 # 8; 190 # 8; 285 # 8; 380 # 8; 475 # 8; 570 # 8;
                 665 # 8; 95]%Q) /\
    (forall i s t, marcas E !! i = Some (Some s) ->
                   marcas E !! S i = Some (Some t) -> (s < t)%Q) /\
    etiquetas E = ["0"; "12"; "24"; "36"; "48"; "59"; "71"; "83"; "≥95"]%string.
Proof.
  intros Hne Hq. split; [apply quantile_percentil_spec; assumption|]. split.
  - destruct (quantile_entre (95 # 100) valores Hne ltac:(lra))
      as (x & y & g & Hmax & _).
    eexists. split; [exact Hmax|].
    intros num E HE. unfold escala in HE. rewrite Hmax in HE.
    destruct (marcar_ultima _) in HE; cbn in HE; [|discriminate].
    injection HE as <-. reflexivity.
  - eexists. split; [vm_compute; reflexivity|].
    cbn [valor_min valor_max marcas etiquetas flotante_eq].
    split; [reflexivity|]. split; [reflexivity|]. split.
    + repeat constructor.
    + split; [|reflexivity].
      intros i s t Hs Ht.
      do 8 (destruct i as [|i];
            [cbn in Hs, Ht; injection Hs as <-; injection Ht as <-; reflexivity|]).
      cbn in Ht. discriminate.
Qed.

Lemma C5_percentile_clamp_witness :
  flotante_eq (quantile (95 # 100) [3; 7; 0; 2]%Q)
              (percentil_spec (95 # 100) [3; 7; 0; 2]%Q) /\
  flotante_eq (quantile (95 # 100) [3; 7; 0; 2]%Q) (Some (64 # 10)%Q).
Proof.
  split.
  - apply (C5_percentile_clamp [3; 7; 0; 2]%Q (95 # 100)).
    + discriminate.
    + split; discriminate.
  - reflexivity.
Defined.

(** C5, as stated, fails on its own example: for the values 0, 1, ...,
    100 the maximum of the scale is 95, which is 0.05 away from 95.05 and
    so does not agree with it to the two decimals given. *)
Lemma C5_counterexample :
  exists E vmax,
    escala (inject_Z <$> seqZ 0 101) 9 = Ok E /\
    valor_max E = Some vmax /\
    quantile (95 # 100) (inject_Z <$> seqZ 0 101) = Some vmax /\
    (vmax == 95)%Q /\
    (Qabs (vmax - (9505 # 100)) == 5 # 100)%Q /\
    ~ (Qabs (vmax - (9505 # 100)) < 5 # 1000)%Q.
Proof.
  eexists. eexists. split; [vm_compute; reflexivity|].
  split; [reflexivity|]. split; [vm_compute; reflexivity|].
  split; [reflexivity|]. split; [reflexivity|].
  intros H. vm_compute in H. discriminate.
Qed.

(** ** Summary statistics *)

Section Resumen.

(** The pass of [idxmax], started from any best entry so far. *)
Lemma idxmax_desde_spec (index : list Z) (columna : list (option Z)) :
  length index = length columna ->
  forall mejor,
    match idxmax_desde mejor index columna with
    | None => mejor = None /\ forall j v, columna !! j <> Some (Some v)
    | Some (d, m) =>
        (forall j v, columna !! j = Some (Some v) -> v <= m) /\
        (forall d' y, mejor = Some (d', y) -> y <= m) /\
        (mejor = Some (d, m) \/
         exists k, index !! k = Some d /\ columna !! k = Some (Some m) /\
                   (forall j v, (j < k)%nat -> columna !! j = Some (Some v) -> v < m) /\
                   (forall d' y, mejor = Some (d', y) -> y < m))
    end.
Proof.
  revert columna. induction index as [|d1 index IH]; intros [|v1 columna] Hlen mejor;
    try discriminate.
  - cbn. destruct mejor as [[d m]|].
    + split; [intros j v H; discriminate|]. split; [|left; reflexivity].
      intros d' y [= _ ->]. lia.
    + split; [reflexivity|]. intros j v H. discriminate.
  - assert (Hlen' : length index = length columna) by (cbn in Hlen; lia).
    cbn [idxmax_desde].
    assert (Hpaso : forall mejor',
              (v1 = None -> mejor' = mejor) ->
              (forall x, v1 = Some x ->
                 (mejor' = Some (d1, x) /\ forall d' y, mejor = Some (d', y) -> y < x)
                 \/ (mejor' = mejor /\ exists d' y, mejor = Some (d', y) /\ x <= y)) ->
              match idxmax_desde mejor' index columna with
              | None => mejor = None /\
                        forall j v, (v1 :: columna) !! j <> Some (Some v)
              | Some (d, m) =>
                  (forall j v, (v1 :: columna) !! j = Some (Some v) -> v <= m) /\
                  (forall d' y, mejor = Some (d', y) -> y <= m) /\
                  (mejor = Some (d, m) \/
                   exists k, (d1 :: index) !! k = Some d /\
                             (v1 :: columna) !! k = Some (Some m) /\
                             (forall j v, (j < k)%nat ->
                                (v1 :: columna) !! j = Some (Some v) -> v < m) /\
                             (forall d' y, mejor = Some (d', y) -> y < m))
              end).
    { intros mejor' Hnan Hval. specialize (IH columna Hlen' mejor').
      destruct (idxmax_desde mejor' index columna) as [[d m]|].
      - destruct IH as (Hsup & Hmej & Horigen).
        assert (Hv1 : forall x, v1 = Some x -> x <= m).
        { intros x Hx. destruct (Hval x Hx) as [[-> _]|(-> & d' & y & Hm & Hxy)].
          - apply (Hmej d1 x eq_refl).
          - pose proof (Hmej d' y Hm). lia. }
        assert (Hmejor : forall d' y, mejor = Some (d', y) -> y <= m).
        { intros d' y Hm. destruct v1 as [x|].
          - destruct (Hval x eq_refl) as [[-> Hlt]|[-> _]].
            + pose proof (Hlt d' y Hm). pose proof (Hmej d1 x eq_refl). lia.
            + apply (Hmej d' y Hm).
          - rewrite (Hnan eq_refl) in Hmej. apply (Hmej d' y Hm). }
        split; [|split; [exact Hmejor|]].
        + intros [|j] v Hj; cbn in Hj.
          * apply Hv1. congruence.
          * apply (Hsup j v Hj).
        + destruct Horigen as [Hizq|(k & Hk1 & Hk2 & Hk3 & Hk4)].
          * destruct v1 as [x|].
            -- destruct (Hval x eq_refl) as [[-> Hlt]|[-> _]].
               ++ injection Hizq as <- <-. right. exists 0%nat.
                  repeat split; try reflexivity; [intros; lia | exact Hlt].
               ++ left. exact Hizq.
            -- left. rewrite <- (Hnan eq_refl). exact Hizq.
          * right. exists (S k). split; [exact Hk1|]. split; [exact Hk2|]. split.
            -- intros [|j] v Hjk Hj; cbn in Hj.
               ++ injection Hj as ->.
                  destruct (Hval v eq_refl) as [[-> _]|(-> & d' & y & Hm & Hxy)].
                  ** apply (Hk4 d1 v eq_refl).
                  ** pose proof (Hk4 d' y Hm). lia.
               ++ apply (Hk3 j v ltac:(lia) Hj).
            -- intros d' y Hm. destruct v1 as [x|].
               ++ destruct (Hval x eq_refl) as [[-> Hlt]|[-> _]].
                  ** pose proof (Hlt d' y Hm). pose proof (Hk4 d1 x eq_refl). lia.
                  ** apply (Hk4 d' y Hm).
               ++ rewrite (Hnan eq_refl) in Hk4. apply (Hk4 d' y Hm).
      - destruct IH as [-> Hnada].
        destruct v1 as [x|].
        + destruct (Hval x eq_refl) as [[H _]|(H & d' & y & Hm & _)];
            [discriminate | congruence].
        + rewrite <- (Hnan eq_refl). split; [reflexivity|].
          intros [|j] v Hj; cbn in Hj; [discriminate|]. apply (Hnada j v Hj). }
    destruct v1 as [x|]; [destruct mejor as [[d' y]|]|].
    + destruct (decide (y < x)) as [Hyx|Hyx]; apply Hpaso; try discriminate.
      * intros x' [= <-]. left. split; [reflexivity|]. intros ? ? [= _ <-]. exact Hyx.
      * intros x' [= <-]. right. split; [reflexivity|]. exists d', y.
        split; [reflexivity | lia].
    + apply Hpaso; [discriminate|].
      intros x' [= <-]. left. split; [reflexivity|]. intros ? ? [=].
    + destruct mejor as [[d' y]|]; apply Hpaso; try reflexivity; intros ? [=].
Qed.

(** [max] is the value that [idxmax] stops at. *)
Lemma serie_max_idxmax (index : list Z) (columna : list (option Z)) :
  length index = length columna ->
  forall mejor,
    foldl (fun m v =>
             match m, v with
             | _, None => m
             | None, Some x => Some x
             | Some y, Some x => if decide (y < x) then Some x else Some y
             end) (snd <$> mejor) columna
    = snd <$> idxmax_desde mejor index columna.
Proof.
  revert columna. induction index as [|d1 index IH]; intros [|v1 columna] Hlen mejor;
    try discriminate; [reflexivity|].
  assert (Hlen' : length index = length columna) by (cbn in Hlen; lia).
  cbn [foldl idxmax_desde].
  destruct v1 as [x|]; [destruct mejor as [[d' y]|]|].
  - cbn [fmap option_fmap option_map snd].
    destruct (decide (y < x)); rewrite <- (IH columna Hlen'); reflexivity.
  - rewrite <- (IH columna Hlen'). reflexivity.
  - destruct mejor as [[d' y]|]; rewrite <- (IH columna Hlen'); reflexivity.
Qed.

Lemma serie_sum_desde (columna : list (option Z)) (acc : Z) :
  foldl (fun acc v => acc + default 0 v) acc columna
  = acc + foldr Z.add 0 (default 0 <$> columna).
Proof.
  revert acc. induction columna as [|v columna IH]; intros acc; cbn; [lia|].
  rewrite IH. lia.
Qed.

Lemma serie_sum_spec (columna : list (option Z)) :
  serie_sum columna = foldr Z.add 0 (default 0 <$> columna).
Proof. unfold serie_sum. rewrite serie_sum_desde. lia. Qed.

(** The frame that [main] builds has a total, valid or not, for each
    date. *)
Lemma length_total_final (fechas : list Z) (tot : gmap Z Z) (final : DataFrame) :
  mapa_calendario fechas tot = Ok final ->
  length (index final) = length (total final).
Proof.
  intros Hf. apply mapa_calendario_Ok in Hf as (semanas & _ & ->). cbn.
  rewrite length_fmap. reflexivity.
Qed.

End Resumen.

(** C6. For a series with at least one valid value the summary gives the
    greatest daily value, the date of the first day that reaches it, the
    sum of the valid values, and that sum divided by the number of days
    of the series, days with value zero or no value included. On
    [(2023-01-01, 3), (2023-01-02, 7), (2023-01-03, 0)] it gives 7,
    2023-01-02, 10 and 10/3. *)
Theorem C6_summary (fechas : list Z) (columna : list (option Z)) (k0 : nat) (v0 : Z) :
  length fechas = length columna ->
  columna !! k0 = Some (Some v0) ->
  let E := estadisticas fechas columna in
  (exists k d m,
     stats_max E = Some m /\ stats_max_fecha E = Some d /\
     fechas !! k = Some d /\ columna !! k = Some (Some m) /\
     (forall j v, columna !! j = Some (Some v) -> v <= m) /\
     (forall j v, (j < k)%nat -> columna !! j = Some (Some v) -> v < m)) /\
  stats_total E = foldr Z.add 0 (default 0 <$> columna) /\
  stats_mean E = (inject_Z (stats_total E) / inject_Z (Z.of_nat (length fechas)))%Q /\
  estadisticas [Fechas.ymd2ord 2023 1 1; Fechas.ymd2ord 2023 1 2; Fechas.ymd2ord 2023 1 3]
               [Some 3; Some 7; Some 0]
  = {| stats_max := Some 7;
       stats_max_fecha := Some (Fechas.ymd2ord 2023 1 2);
       stats_total := 10;
       stats_mean := (10 # 3)%Q |}.
Proof.
  intros Hlen Hk0 E. split; [|split; [apply serie_sum_spec|split; reflexivity]].
  pose proof (idxmax_desde_spec fechas columna Hlen None) as Hspec.
  pose proof (serie_max_idxmax fechas columna Hlen None) as Hmax.
  unfold E, estadisticas, idxmax, serie_max. cbn [stats_max stats_max_fecha].
  cbn [fmap option_fmap option_map] in Hmax. rewrite Hmax.
  destruct (idxmax_desde None fechas columna) as [[d m]|].
  - destruct Hspec as (Hsup & _ & [Habs|(k & Hk1 & Hk2 & Hk3 & _)]); [discriminate|].
    exists k, d, m. repeat split; try assumption.
  - destruct Hspec as [_ Hnada]. destruct (Hnada k0 v0 Hk0).
Qed.

Lemma C6_summary_witness :
  let fechas := [Fechas.ymd2ord 2023 1 1; Fechas.ymd2ord 2023 1 2;
                 Fechas.ymd2ord 2023 1 3; Fechas.ymd2ord 2023 1 4] in
  let columna := [Some 7; None; Some 7; Some 0] in
  stats_total (estadisticas fechas columna) = 14 /\
  stats_mean (estadisticas fechas columna) = (14 # 4)%Q /\
  stats_max_fecha (estadisticas fechas columna) = Some (Fechas.ymd2ord 2023 1 1).
Proof.
  intros fechas columna.
  destruct (C6_summary fechas columna 0 7 eq_refl eq_refl)
    as (_ & Htotal & Hmean & _).
  split; [exact Htotal|]. split; [exact Hmean|]. reflexivity.
Defined.

(** ** The fields of a date *)

Section CamposDeFecha.

Lemma ymd_ejemplos :
  ord2ymd 738521 = (2023, 1, 1) /\ ord2ymd 738885 = (2023, 12, 31) /\
  ord2ymd (Fechas.ymd2ord 2024 2 29) = (2024, 2, 29) /\
  ord2ymd (Fechas.ymd2ord 2000 12 31) = (2000, 12, 31) /\
  ord2ymd (Fechas.ymd2ord 2100 3 1) = (2100, 3, 1) /\
  ord2ymd 1 = (1, 1, 1).
Proof. repeat split. Qed.

(** The cycles of 400, 100, 4 and 1 years recover the year and the day
    of the year from the number of days elapsed. *)
Lemma ciclos_de_anios (a b c e doy : Z) :
  0 <= a -> 0 <= b < 4 -> 0 <= c < 25 -> 0 <= e < 4 ->
  let bis := (e =? 3) && (negb (c =? 24) || (b =? 3)) in
  0 <= doy < 365 + (if bis then 1 else 0) ->
  let n := 146097 * a + 36524 * b + 1461 * c + 365 * e + doy in
  let n400 := n / 146097 in
  let r1 := n mod 146097 in
  let n100 := r1 / 36524 in
  let r2 := r1 mod 36524 in
  let n4 := r2 / 1461 in
  let r3 := r2 mod 1461 in
  let n1 := r3 / 365 in
  let r4 := r3 mod 365 in
  let year := n400 * 400 + 1 + n100 * 100 + n4 * 4 + n1 in
  if (n1 =? 4) || (n100 =? 4)
  then year - 1 = 400 * a + 100 * b + 4 * c + e + 1 /\ doy = 365
  else year = 400 * a + 100 * b + 4 * c + e + 1 /\ r4 = doy /\
       ((n1 =? 3) && (negb (n4 =? 24) || (n100 =? 3))) = bis.
Proof.
  intros Ha Hb Hc He bis Hdoy n.
  assert (Hbis : bis = true -> e = 3 /\ (c <> 24 \/ b = 3)).
  { unfold bis. destruct (Z.eqb_spec e 3), (Z.eqb_spec c 24), (Z.eqb_spec b 3);
      cbn; intros; try discriminate; lia. }
  assert (Hdoy' : doy <= 364 \/ (doy = 365 /\ e = 3 /\ (c <> 24 \/ b = 3))).
  { destruct bis; [destruct (Hbis eq_refl)|]; lia. }
  assert (E400 : n / 146097 = a /\
                 n mod 146097 = 36524 * b + 1461 * c + 365 * e + doy).
  { assert (HK : 0 <= 36524 * b + 1461 * c + 365 * e + doy < 146097) by lia.
    unfold n. clear Hdoy Hdoy' Hbis. clear n. clearbody bis.
    split.
    - symmetry.
      apply (Z.div_unique _ 146097 a (36524 * b + 1461 * c + 365 * e + doy)); lia.
    - symmetry.
      apply (Z.mod_unique _ 146097 a (36524 * b + 1461 * c + 365 * e + doy)); lia. }
  destruct E400 as [-> ->].
  cbv zeta.
  destruct (Z.eq_dec doy 365) as [H365|H365].
  - assert (He3 : e = 3) by lia. subst e doy.
    destruct (Z.eq_dec b 3) as [Hb3|Hb3]; [destruct (Z.eq_dec c 24) as [Hc24|Hc24]|].
    + subst.
      change ((36524 * 3 + 1461 * 24 + 365 * 3 + 365) / 36524) with 4.
      change ((36524 * 3 + 1461 * 24 + 365 * 3 + 365) mod 36524) with 0.
      change (0 mod 1461) with 0. change (0 / 1461) with 0.
      change (0 / 365) with 0.
      change ((0 =? 4) || (4 =? 4)) with true. cbv iota. split; lia.
    + subst b.
      assert (E100 : (36524 * 3 + 1461 * c + 365 * 3 + 365) / 36524 = 3 /\
                     (36524 * 3 + 1461 * c + 365 * 3 + 365) mod 36524
                     = 1461 * c + 1460) by (Z.div_mod_to_equations; lia).
      destruct E100 as [-> ->].
      assert (E4 : (1461 * c + 1460) / 1461 = c /\
                   (1461 * c + 1460) mod 1461 = 1460) by (Z.div_mod_to_equations; lia).
      destruct E4 as [-> ->].
      change (1460 / 365) with 4. change ((4 =? 4) || _) with true.
      cbv iota. split; lia.
    + assert (Hc24 : c <> 24) by lia.
      assert (E100 : (36524 * b + 1461 * c + 365 * 3 + 365) / 36524 = b /\
                     (36524 * b + 1461 * c + 365 * 3 + 365) mod 36524
                     = 1461 * c + 1460) by (Z.div_mod_to_equations; lia).
      destruct E100 as [-> ->].
      assert (E4 : (1461 * c + 1460) / 1461 = c /\
                   (1461 * c + 1460) mod 1461 = 1460) by (Z.div_mod_to_equations; lia).
      destruct E4 as [-> ->].
      change (1460 / 365) with 4. change ((4 =? 4) || _) with true.
      cbv iota. split; lia.
  - assert (Hd : 0 <= doy <= 364) by lia.
    assert (E100 : (36524 * b + 1461 * c + 365 * e + doy) / 36524 = b /\
                   (36524 * b + 1461 * c + 365 * e + doy) mod 36524
                   = 1461 * c + 365 * e + doy) by (Z.div_mod_to_equations; lia).
    destruct E100 as [-> ->].
    assert (E4 : (1461 * c + 365 * e + doy) / 1461 = c /\
                 (1461 * c + 365 * e + doy) mod 1461 = 365 * e + doy)
      by (Z.div_mod_to_equations; lia).
    destruct E4 as [-> ->].
    assert (E1 : (365 * e + doy) / 365 = e /\ (365 * e + doy) mod 365 = doy)
      by (Z.div_mod_to_equations; lia).
    destruct E1 as [-> ->].
    assert (He4 : (e =? 4) = false) by (apply Z.eqb_neq; lia).
    assert (Hb4 : (b =? 4) = false) by (apply Z.eqb_neq; lia).
    rewrite He4, Hb4. cbn [orb]. repeat split; lia.
Qed.

(** The digits of [y - 1] in the cycles, and what they say of [y]. *)
Lemma digitos_de_anio (y : Z) :
  1 <= y ->
  exists a b c e,
    0 <= a /\ 0 <= b < 4 /\ 0 <= c < 25 /\ 0 <= e < 4 /\
    y = 400 * a + 100 * b + 4 * c + e + 1 /\
    Fechas.days_before_year y = 146097 * a + 36524 * b + 1461 * c + 365 * e /\
    Fechas.is_leap y = (e =? 3) && (negb (c =? 24) || (b =? 3)).
Proof.
  intros Hy.
  exists ((y - 1) / 400), (((y - 1) mod 400) / 100),
         (((y - 1) mod 100) / 4), ((y - 1) mod 4).
  unfold Fechas.days_before_year, Fechas.is_leap. cbv zeta.
  repeat split; Z.div_mod_to_equations; lia.
Qed.

(** The tables of the months, for the months counted from 1. *)
Lemma tablas_de_meses (y m : Z) :
  1 <= m <= 12 ->
  Fechas.days_before_month y m
  = nth (Z.to_nat m) DAYS_BEFORE_MONTH 0
    + (if (2 <? m) && Fechas.is_leap y then 1 else 0) /\
  Fechas.days_in_month y m
  = nth (Z.to_nat m) DAYS_IN_MONTH 0
    + (if (m =? 2) && Fechas.is_leap y then 1 else 0) /\
  Fechas.days_before_month y m + Fechas.days_in_month y m
  <= 365 + (if Fechas.is_leap y then 1 else 0) /\
  0 <= Fechas.days_before_month y m /\ 28 <= Fechas.days_in_month y m.
Proof.
  intros Hm. unfold Fechas.days_before_month, Fechas.days_in_month.
  generalize (Fechas.is_leap y). intros b.
  assert (Hcasos : m = 1 \/ m = 2 \/ m = 3 \/ m = 4 \/ m = 5 \/ m = 6 \/ m = 7 \/
                   m = 8 \/ m = 9 \/ m = 10 \/ m = 11 \/ m = 12) by lia.
  repeat (destruct Hcasos as [->|Hcasos];
          [destruct b; vm_compute; repeat split; discriminate|]).
  subst m. destruct b; vm_compute; repeat split; discriminate.
Qed.

(** [mes_dia] on every day of every month, by enumeration. *)
Lemma mes_dia_enumerado (b : bool) :
  Forall (fun m =>
    Forall (fun d =>
      mes_dia b (nth (Z.to_nat m) DAYS_BEFORE_MONTH 0
                 + (if (2 <? m) && b then 1 else 0) + d - 1) = (m, d))
      (seqZ 1 (nth (Z.to_nat m) DAYS_IN_MONTH 0
               + (if (m =? 2) && b then 1 else 0))))
    (seqZ 1 12).
Proof. destruct b; apply (bool_decide_unpack _); vm_compute; exact I. Qed.

Lemma mes_dia_ok (y m d : Z) :
  1 <= m <= 12 -> 1 <= d <= Fechas.days_in_month y m ->
  mes_dia (Fechas.is_leap y) (Fechas.days_before_month y m + d - 1) = (m, d).
Proof.
  intros Hm Hd.
  destruct (tablas_de_meses y m Hm) as (Hdbm & Hdim & _).
  rewrite Hdbm. rewrite Hdim in Hd.
  pose proof (mes_dia_enumerado (Fechas.is_leap y)) as Htabla.
  rewrite Forall_forall in Htabla.
  specialize (Htabla m ltac:(apply elem_of_seqZ; lia)).
  rewrite Forall_forall in Htabla.
  apply Htabla. apply elem_of_seqZ. lia.
Qed.

(** The fields of the day at offset [i] of the year [y]. *)
Lemma ord2ymd_anual (y i : Z) :
  1 <= y -> 0 <= i < 365 + (if Fechas.is_leap y then 1 else 0) ->
  ord2ymd (Fechas.ymd2ord y 1 1 + i)
  = (y, (mes_dia (Fechas.is_leap y) i).1, (mes_dia (Fechas.is_leap y) i).2).
Proof.
  intros Hy Hi.
  destruct (digitos_de_anio y Hy) as (a & b & c & e & Ha & Hb & Hc & He & Ey & Edby & Eleap).
  rewrite Eleap in Hi |- *.
  pose proof (ciclos_de_anios a b c e i Ha Hb Hc He Hi) as Hciclos.
  cbv zeta in Hciclos.
  unfold ord2ymd. cbv zeta.
  replace (Fechas.ymd2ord y 1 1 + i - 1)
    with (146097 * a + 36524 * b + 1461 * c + 365 * e + i)
    by (unfold Fechas.ymd2ord; rewrite Edby; change (Fechas.days_before_month y 1) with 0; lia).
  match type of Hciclos with
  | if ?cond then _ else _ => destruct cond
  end.
  - destruct Hciclos as [Hyear ->].
    destruct ((e =? 3) && (negb (c =? 24) || (b =? 3))); [|lia].
    change (mes_dia true 365) with (12, 31). cbn [fst snd].
    f_equal. f_equal. lia.
  - destruct Hciclos as (Hyear & -> & ->).
    destruct (mes_dia _ i) as [month day]. cbn [fst snd].
    f_equal. f_equal. lia.
Qed.

(** An ordinal gives back the date it was made from. *)
Lemma ord2ymd_ymd2ord (y m d : Z) :
  1 <= y -> 1 <= m <= 12 -> 1 <= d <= Fechas.days_in_month y m ->
  ord2ymd (Fechas.ymd2ord y m d) = (y, m, d).
Proof.
  intros Hy Hm Hd.
  destruct (tablas_de_meses y m Hm) as (_ & _ & Hsuma & Hpos & _).
  replace (Fechas.ymd2ord y m d)
    with (Fechas.ymd2ord y 1 1 + (Fechas.days_before_month y m + d - 1))
    by (unfold Fechas.ymd2ord; change (Fechas.days_before_month y 1) with 0; lia).
  rewrite ord2ymd_anual by lia.
  rewrite (mes_dia_ok y m d Hm Hd). reflexivity.
Qed.

End CamposDeFecha.

(** ** The marks of the first day of each month *)

Section Borde.

(** [borde] along the index of a year depends on the day of the year and
    on whether the year is a leap year, and on nothing else. *)
Lemma columna_borde_anual (anio : Z) :
  1 <= anio ->
  columna_borde (index_anual anio)
  = (fun i : nat =>
       if (mes_dia (Fechas.is_leap anio) (Z.of_nat i)).2 =? 1 then 1 else 0)
    <$> seq 0 (length (index_anual anio)).
Proof.
  intros Hanio. apply list_eq. intros i.
  unfold columna_borde. rewrite !list_lookup_fmap.
  pose proof (length_index_anual anio) as Hlen.
  pose proof (dias_del_anio anio) as Hdias.
  destruct (decide (i < length (index_anual anio))%nat) as [Hi|Hi].
  - rewrite lookup_seq_lt by exact Hi.
    unfold index_anual, Fechas.date_range in *.
    rewrite lookup_seqZ_lt by (destruct (Fechas.is_leap anio); lia).
    cbn [fmap option_fmap option_map Nat.add].
    unfold ts_day. rewrite ord2ymd_anual; [reflexivity | exact Hanio |].
    destruct (Fechas.is_leap anio); lia.
  - rewrite lookup_seq_ge by lia.
    rewrite (lookup_ge_None_2 (index_anual anio) i) by lia. reflexivity.
Qed.

Lemma posiciones_de (l : list Z) (x : Z) (i : nat) :
  l !! i = Some x ->
  i ∈ filter (fun j => l !! j = Some x) (seq 0 (length l)).
Proof.
  intros Hi. apply list_elem_of_filter. split; [exact Hi|].
  apply elem_of_seq. apply lookup_lt_Some in Hi. lia.
Qed.

End Borde.

(** X1. In the calendar of any year the column [borde] has one entry per
    day, each 0 or 1; the entry of a day is 1 exactly when the day is the
    first of a month, that is when its offset is the number of days of
    the year before one of the twelve months; so exactly 12 entries are
    1. *)
Theorem X1_borde_primeros_de_mes (anio : Z) :
  1 <= anio ->
  let borde := columna_borde (index_anual anio) in
  length borde = length (index_anual anio) /\
  (forall i d, index_anual anio !! i = Some d ->
     borde !! i = Some (if ts_day d =? 1 then 1 else 0)) /\
  (forall i, borde !! i = Some 1 <->
     exists m, 1 <= m <= 12 /\ Z.of_nat i = Fechas.days_before_month anio m) /\
  (forall i m, 1 <= m <= 12 ->
     Z.of_nat i = Fechas.days_before_month anio m ->
     index_anual anio !! i = Some (Fechas.ymd2ord anio m 1)) /\
  foldr Z.add 0 borde = 12.
Proof.
  intros Hanio borde.
  assert (Htab : forall m, 1 <= m <= 12 ->
            Fechas.days_before_month anio m
            = nth (Z.to_nat m) DAYS_BEFORE_MONTH 0
              + (if (2 <? m) && Fechas.is_leap anio then 1 else 0))
    by (intros m Hm; apply (tablas_de_meses anio m Hm)).
  pose proof (length_index_anual anio) as Hlen.
  split; [unfold borde, columna_borde; apply length_fmap|].
  split.
  { intros i d Hd. unfold borde, columna_borde.
    rewrite list_lookup_fmap, Hd. reflexivity. }
  split; [|split].
  - intros i. unfold borde. rewrite (columna_borde_anual anio Hanio), Hlen.
    split.
    + intros Hi. apply posiciones_de in Hi.
      rewrite length_fmap, length_seq in Hi.
      destruct (Fechas.is_leap anio) eqn:Hleap; vm_compute in Hi;
        repeat (apply elem_of_cons in Hi as [->|Hi];
                [first [ exists 1; split; [lia|]; rewrite Htab by lia; reflexivity
                       | exists 2; split; [lia|]; rewrite Htab by lia; reflexivity
                       | exists 3; split; [lia|]; rewrite Htab by lia; reflexivity
                       | exists 4; split; [lia|]; rewrite Htab by lia; reflexivity
                       | exists 5; split; [lia|]; rewrite Htab by lia; reflexivity
                       | exists 6; split; [lia|]; rewrite Htab by lia; reflexivity
                       | exists 7; split; [lia|]; rewrite Htab by lia; reflexivity
                       | exists 8; split; [lia|]; rewrite Htab by lia; reflexivity
                       | exists 9; split; [lia|]; rewrite Htab by lia; reflexivity
                       | exists 10; split; [lia|]; rewrite Htab by lia; reflexivity
                       | exists 11; split; [lia|]; rewrite Htab by lia; reflexivity
                       | exists 12; split; [lia|]; rewrite Htab by lia; reflexivity ]|]);
        apply elem_of_nil in Hi; contradiction.
    + intros (m & Hm & Hi). rewrite (Htab m Hm) in Hi.
      assert (Hcasos : m = 1 \/ m = 2 \/ m = 3 \/ m = 4 \/ m = 5 \/ m = 6 \/
                       m = 7 \/ m = 8 \/ m = 9 \/ m = 10 \/ m = 11 \/ m = 12) by lia.
      destruct (Fechas.is_leap anio);
        destruct Hcasos as [->|[->|[->|[->|[->|[->|[->|[->|[->|[->|[->| ->]]]]]]]]]]];
        cbn in Hi;
        match type of Hi with
        | Z.of_nat i = ?k => replace i with (Z.to_nat k) by lia
        end; reflexivity.
  - intros i m Hm Hi.
    destruct (tablas_de_meses anio m Hm) as (_ & _ & Hsuma & Hpos & Hdim).
    unfold index_anual, Fechas.date_range. rewrite dias_del_anio.
    rewrite lookup_seqZ_lt by (destruct (Fechas.is_leap anio); lia).
    f_equal. unfold Fechas.ymd2ord.
    change (Fechas.days_before_month anio 1) with 0. lia.
  - unfold borde. rewrite (columna_borde_anual anio Hanio), Hlen.
    destruct (Fechas.is_leap anio); vm_compute; reflexivity.
Qed.

Lemma X1_borde_primeros_de_mes_witness :
  foldr Z.add 0 (columna_borde (index_anual 2023)) = 12 /\
  columna_borde (index_anual 2023) !! 31%nat = Some 1.
Proof.
  destruct (X1_borde_primeros_de_mes 2023 ltac:(lia))
    as (_ & _ & Hpos & _ & Hsuma).
  split; [exact Hsuma|].
  apply Hpos. exists 2. split; [lia | reflexivity].
Defined.

(** ** The number of week columns *)

Section ColumnasDeSemanas.

Local Open Scope nat_scope.

Lemma foldl_max_spec (s : nat) (resto : list nat) :
  let m := foldl Nat.max s resto in
  m ∈ s :: resto /\ forall x, x ∈ s :: resto -> x <= m.
Proof.
  revert s. induction resto as [|y resto IH]; intros s; cbn.
  - split; [left|]. intros x Hx. apply list_elem_of_singleton in Hx. lia.
  - destruct (IH (s `max` y)) as [Hin Hle]. split.
    + apply elem_of_cons in Hin as [Heq|Hin]; [|right; right; exact Hin].
      rewrite Heq. destruct (Nat.max_spec s y) as [[_ ->]|[_ ->]];
        [right; left | left].
    + intros x Hx.
      assert (Hmax : s `max` y <= foldl Nat.max (s `max` y) resto)
        by (apply Hle; left).
      apply elem_of_cons in Hx as [->|Hx]; [lia|].
      apply elem_of_cons in Hx as [->|Hx]; [lia|].
      apply Hle. right. exact Hx.
Qed.

(** The greatest week number of a grid is that of its last row. *)
Lemma semana_max_ultima (fechas : list Z) (tot : gmap Z Z) (final : DataFrame)
    (d0 : Z) :
  primera_fecha fechas = Ok d0 ->
  mapa_calendario fechas tot = Ok final ->
  semana_max final = Some ((Fechas.dayofweek d0 + (length fechas - 1)) / 7).
Proof.
  intros Hd Hf.
  destruct (mapa_calendario_Ok_cabe fechas tot final Hf) as (d0' & Hd' & Hn).
  rewrite Hd in Hd'. injection Hd' as <-.
  destruct (mapa_calendario_cabe fechas tot d0 Hd Hn)
    as (final' & Hf' & _ & _ & _ & Hlen & Hsem).
  rewrite Hf in Hf'. injection Hf' as <-.
  assert (Hpos : 0 < length fechas)
    by (destruct fechas; [discriminate | cbn; lia]).
  unfold semana_max.
  destruct (semana final) as [|s resto] eqn:Hs; [cbn in Hlen; lia|].
  f_equal. destruct (foldl_max_spec s resto) as [Hin Hle].
  rewrite <- Hs in *. apply Nat.le_antisymm.
  - apply list_elem_of_lookup in Hin as [i Hi].
    assert (Hlt : i < length fechas) by (rewrite <- Hlen; eapply lookup_lt_Some, Hi).
    destruct (Hsem i Hlt) as [_ Hdiv]. rewrite Hdiv in Hi.
    replace (foldl Nat.max s resto)
      with ((Fechas.dayofweek d0 + i) / 7) by congruence.
    apply Nat.Div0.div_le_mono. lia.
  - apply Hle. destruct (Hsem (length fechas - 1) ltac:(lia)) as [_ Hdiv].
    eapply list_elem_of_lookup_2, Hdiv.
Qed.

Lemma semana_max_anual (anio : Z) (tot : gmap Z Z) :
  exists final,
    main_final anio tot = Ok final /\
    semana_max final =
      Some (if Fechas.is_leap anio
               && bool_decide (Fechas.dayofweek (Fechas.ymd2ord anio 1 1) = 6)
            then 53 else 52).
Proof.
  destruct (main_final_existe anio tot) as [final Hf].
  exists final. split; [exact Hf|].
  pose proof (semana_max_ultima (index_anual anio) tot final _
                (primera_fecha_index_anual anio) Hf) as Hmax.
  pose proof (length_index_anual anio) as Hlen.
  pose proof (dayofweek_lt (Fechas.ymd2ord anio 1 1)) as Hpad.
  rewrite Hmax. f_equal.
  destruct (Fechas.is_leap anio); rewrite Hlen; cbn [andb].
  - case_bool_decide as Hdom.
    + rewrite Hdom. reflexivity.
    + apply div7_cociente. lia.
  - apply div7_cociente. lia.
Qed.

End ColumnasDeSemanas.

(** X2. The calendar of a year has the weeks 0 to 52, that is 53 columns,
    and the horizontal axis runs from -1 to 53; only a leap year that
    begins on a Sunday has a week 53 as well, 54 columns. *)
Theorem X2_columnas_de_semanas (anio : Z) (tot : gmap Z Z) :
  let bisiesto_en_domingo :=
    Fechas.is_leap anio
    && bool_decide (Fechas.dayofweek (Fechas.ymd2ord anio 1 1) = 6%nat) in
  exists final,
    main_final anio tot = Ok final /\
    semana_max final = Some (if bisiesto_en_domingo then 53 else 52)%nat /\
    rango_x final = Some (-1, if bisiesto_en_domingo then 54 else 53).
Proof.
  intros bisiesto_en_domingo.
  destruct (semana_max_anual anio tot) as (final & Hf & Hval).
  fold bisiesto_en_domingo in Hval.
  exists final. split; [exact Hf|]. split; [exact Hval|].
  unfold rango_x. rewrite Hval. cbn.
  destruct bisiesto_en_domingo; reflexivity.
Qed.

Lemma X2_columnas_de_semanas_witness :
  exists final,
    main_final 2012 ∅ = Ok final /\ rango_x final = Some (-1, 54).
Proof.
  destruct (X2_columnas_de_semanas 2012 ∅) as (final & Hf & _ & Hx).
  exists final. split; [exact Hf | exact Hx].
Defined.

(** X3. Between 1901 and 2099 the years with 54 week columns, the leap
    years that begin on a Sunday, come every 28 years: they are the years
    that leave the remainder 24 when divided by 28 (1928, 1956, 1984,
    2012, 2040, 2068, 2096). *)
Theorem X3_cada_28_anios (anio : Z) (tot : gmap Z Z) :
  1901 <= anio <= 2099 ->
  exists final,
    main_final anio tot = Ok final /\
    (semana_max final = Some 53%nat <-> anio mod 28 = 24) /\
    (semana_max final = Some 52%nat <-> anio mod 28 <> 24).
Proof.
  intros Hanio.
  destruct (semana_max_anual anio tot) as (final & Hf & Hmax).
  exists final. split; [exact Hf|].
  assert (Hdec : (Fechas.is_leap anio
                  && bool_decide (Fechas.dayofweek (Fechas.ymd2ord anio 1 1) = 6%nat))
                 = bool_decide (anio mod 28 = 24)).
  { assert (Hin : anio ∈ seqZ 1901 199) by (apply elem_of_seqZ; lia).
    clear Hanio Hf Hmax. revert anio Hin. apply Forall_forall.
    apply (bool_decide_unpack _). vm_compute. exact I. }
  rewrite Hdec in Hmax. clear Hdec. rewrite Hmax.
  destruct (bool_decide_reflect (anio mod 28 = 24)) as [Hmod|Hmod];
    split; split; intros Hotro;
    first [reflexivity | assumption | discriminate | contradiction].
Qed.

Lemma X3_cada_28_anios_witness :
  exists final,
    main_final 2040 ∅ = Ok final /\ semana_max final = Some 53%nat.
Proof.
  destruct (X3_cada_28_anios 2040 ∅ ltac:(lia)) as (final & Hf & H53 & _).
  exists final. split; [exact Hf|]. apply H53. reflexivity.
Defined.

(** ** Counting rows *)

Section Conteos.

Lemma contar_cons (x y : Z) (l : list Z) :
  contar x (y :: l) = (if decide (y = x) then 1 else 0) + contar x l.
Proof.
  unfold contar. rewrite filter_cons.
  destruct (decide (y = x)); cbn [length]; lia.
Qed.

Lemma contar_no_negativo (x : Z) (l : list Z) : 0 <= contar x l.
Proof. unfold contar. lia. Qed.

Lemma contar_positivo (x : Z) (l : list Z) : x ∈ l <-> 1 <= contar x l.
Proof.
  unfold contar. split.
  - intros Hx.
    assert (Hin : x ∈ filter (fun y => y = x) l)
      by (apply list_elem_of_filter; split; [reflexivity | exact Hx]).
    destruct (filter (fun y => y = x) l);
      [apply elem_of_nil in Hin; contradiction | cbn; lia].
  - intros Hpos.
    destruct (filter (fun y => y = x) l) as [|y l'] eqn:Hfil; [cbn in Hpos; lia|].
    assert (Hy : y ∈ filter (fun y => y = x) l) by (rewrite Hfil; left).
    apply list_elem_of_filter in Hy as [-> Hy]. exact Hy.
Qed.

Lemma suma_indicador (ks : list Z) (y : Z) :
  NoDup ks ->
  foldr Z.add 0 ((fun k => if decide (y = k) then 1 else 0) <$> ks)
  = if decide (y ∈ ks) then 1 else 0.
Proof.
  induction 1 as [|k ks Hk Hnd IH]; cbn.
  - destruct (decide (y ∈ [])) as [H|_]; [apply elem_of_nil in H; contradiction|].
    reflexivity.
  - rewrite IH.
    destruct (decide (y = k)) as [->|Hne].
    + destruct (decide (k ∈ ks)); [contradiction|].
      destruct (decide (k ∈ k :: ks)) as [_|Hno]; [reflexivity|].
      exfalso. apply Hno. left.
    + destruct (decide (y ∈ ks)) as [Hin|Hno].
      * destruct (decide (y ∈ k :: ks)) as [_|Hno']; [reflexivity|].
        exfalso. apply Hno'. right. exact Hin.
      * destruct (decide (y ∈ k :: ks)) as [Hin'|_]; [|reflexivity].
        apply elem_of_cons in Hin' as [?|?]; contradiction.
Qed.

Lemma suma_mas (f g : Z -> Z) (ks : list Z) :
  foldr Z.add 0 ((fun k => f k + g k) <$> ks)
  = foldr Z.add 0 (f <$> ks) + foldr Z.add 0 (g <$> ks).
Proof. induction ks as [|k ks IH]; cbn; [reflexivity | rewrite IH; lia]. Qed.

(** Counting over distinct keys counts each row whose key is among them
    once. *)
Lemma suma_contar (ks l : list Z) :
  NoDup ks ->
  foldr Z.add 0 ((fun k => contar k l) <$> ks)
  = Z.of_nat (length (filter (fun y => y ∈ ks) l)).
Proof.
  intros Hnd. induction l as [|y l IH].
  - cbn. induction ks as [|k ks IHk]; [reflexivity|].
    cbn. apply NoDup_cons in Hnd as [_ Hnd]. rewrite (IHk Hnd). reflexivity.
  - rewrite filter_cons.
    transitivity (foldr Z.add 0 ((fun k => (if decide (y = k) then 1 else 0)
                                           + contar k l) <$> ks)).
    { f_equal. apply list_fmap_ext. intros _ k _. apply contar_cons. }
    rewrite suma_mas, IH, (suma_indicador ks y Hnd).
    destruct (decide (y ∈ ks)); cbn [length]; lia.
Qed.

Lemma foldl_min_Z (f : Z) (resto : list Z) :
  let m := foldl Z.min f resto in
  m ∈ f :: resto /\ forall x, x ∈ f :: resto -> m <= x.
Proof.
  revert f. induction resto as [|y resto IH]; intros f; cbn.
  - split; [left|]. intros x Hx. apply list_elem_of_singleton in Hx. lia.
  - destruct (IH (f `min` y)) as [Hin Hle]. split.
    + apply elem_of_cons in Hin as [Heq|Hin]; [|right; right; exact Hin].
      rewrite Heq. destruct (Z.min_spec f y) as [[_ ->]|[_ ->]];
        [left | right; left].
    + intros x Hx.
      assert (Hmin : foldl Z.min (f `min` y) resto <= f `min` y)
        by (apply Hle; left).
      apply elem_of_cons in Hx as [->|Hx]; [lia|].
      apply elem_of_cons in Hx as [->|Hx]; [lia|].
      apply Hle. right. exact Hx.
Qed.

Lemma foldl_max_Z (f : Z) (resto : list Z) :
  let m := foldl Z.max f resto in
  m ∈ f :: resto /\ forall x, x ∈ f :: resto -> x <= m.
Proof.
  revert f. induction resto as [|y resto IH]; intros f; cbn.
  - split; [left|]. intros x Hx. apply list_elem_of_singleton in Hx. lia.
  - destruct (IH (f `max` y)) as [Hin Hle]. split.
    + apply elem_of_cons in Hin as [Heq|Hin]; [|right; right; exact Hin].
      rewrite Heq. destruct (Z.max_spec f y) as [[_ ->]|[_ ->]];
        [right; left | left].
    + intros x Hx.
      assert (Hmax : f `max` y <= foldl Z.max (f `max` y) resto)
        by (apply Hle; left).
      apply elem_of_cons in Hx as [->|Hx]; [lia|].
      apply elem_of_cons in Hx as [->|Hx]; [lia|].
      apply Hle. right. exact Hx.
Qed.

Lemma fst_fmap_par {A} (g : Z -> A) (l : list Z) :
  ((fun d => (d, g d)) <$> l).*1 = l.
Proof. induction l as [|d l IH]; cbn; [reflexivity | rewrite IH; reflexivity]. Qed.

(** The bins of [resample]: the days from the first date of the frame to
    the last. *)
Lemma resample_extremos (fechas : list Z) :
  fechas <> [] ->
  exists primero ultimo,
    primero ∈ fechas /\ ultimo ∈ fechas /\
    (forall f, f ∈ fechas -> primero <= f <= ultimo) /\
    forall d, resample_D_count fechas !! d
              = if decide (primero <= d <= ultimo)
                then Some (contar d fechas) else None.
Proof.
  intros Hne. destruct fechas as [|f resto]; [congruence|].
  destruct (foldl_min_Z f resto) as [Hmin_in Hmin].
  destruct (foldl_max_Z f resto) as [Hmax_in Hmax].
  exists (foldl Z.min f resto), (foldl Z.max f resto).
  unfold resample_D_count.
  set (primero := foldl Z.min f resto) in *.
  set (ultimo := foldl Z.max f resto) in *.
  set (fechas := f :: resto) in *.
  split; [exact Hmin_in|]. split; [exact Hmax_in|].
  split; [intros x Hx; split; [apply Hmin | apply Hmax]; exact Hx|].
  intros d.
  assert (Hnd : NoDup ((fun d => (d, contar d fechas))
                         <$> seqZ primero (ultimo - primero + 1)).*1).
  { rewrite fst_fmap_par. apply NoDup_seqZ. }
  destruct (decide (primero <= d <= ultimo)) as [Hd|Hd].
  - apply elem_of_list_to_map; [exact Hnd|].
    apply list_elem_of_fmap. exists d. split; [reflexivity|].
    apply elem_of_seqZ. lia.
  - apply not_elem_of_list_to_map. rewrite fst_fmap_par.
    intros Hin. apply elem_of_seqZ in Hin. lia.
Qed.

(** What a day adds to a sum is its count: a day without a bin has no
    row. *)
Lemma default_resample (fechas : list Z) (d : Z) :
  default 0 (resample_D_count fechas !! d) = contar d fechas.
Proof.
  destruct (decide (fechas = [])) as [->|Hne]; [reflexivity|].
  destruct (resample_extremos fechas Hne)
    as (primero & ultimo & _ & _ & Hentre & Hlookup).
  rewrite Hlookup. destruct (decide (primero <= d <= ultimo)); [reflexivity|].
  cbn. pose proof (contar_no_negativo d fechas).
  destruct (decide (1 <= contar d fechas)) as [Hpos|]; [|lia].
  apply contar_positivo, Hentre in Hpos. lia.
Qed.

End Conteos.

(** ** The column of totals *)

Section Totales.

Lemma final_calendario_Ok (anio : Z) (datos : list Registro) :
  exists final,
    final_calendario anio datos = Ok final /\
    index final = index_anual anio /\
    total final = (fun d => totales_por_dia datos !! d) <$> index_anual anio.
Proof.
  destruct (main_final_existe anio (totales_por_dia datos)) as [final Hf].
  exists final. split; [exact Hf|].
  apply mapa_calendario_Ok in Hf as (semanas & _ & ->). split; reflexivity.
Qed.

Lemma length_filter_fmap {A} (f : A -> Z) (P : Z -> Prop)
    `{forall x, Decision (P x)} (l : list A) :
  length (filter P (f <$> l)) = length (filter (fun a => P (f a)) l).
Proof.
  induction l as [|a l IH]; [reflexivity|].
  cbn [fmap list_fmap]. rewrite !filter_cons.
  destruct (decide (P (f a))); cbn [length]; rewrite IH; reflexivity.
Qed.

Lemma length_filter_ext {A} (P Q : A -> Prop)
    `{forall x, Decision (P x)} `{forall x, Decision (Q x)} (l : list A) :
  (forall a, a ∈ l -> P a <-> Q a) ->
  length (filter P l) = length (filter Q l).
Proof.
  induction l as [|a l IH]; intros Hext; [reflexivity|].
  rewrite !filter_cons.
  assert (Hl : length (filter P l) = length (filter Q l))
    by (apply IH; intros b Hb; apply Hext; right; exact Hb).
  pose proof (Hext a ltac:(left)) as Ha.
  destruct (decide (P a)), (decide (Q a)); cbn [length]; tauto || lia.
Qed.

Lemma length_filter_ext_todos {A} (P : A -> Prop)
    `{forall x, Decision (P x)} (l : list A) :
  (forall a, a ∈ l -> P a) -> length (filter P l) = length l.
Proof.
  induction l as [|a l IH]; intros Hall; [reflexivity|].
  rewrite filter_cons, decide_True by (apply Hall; left).
  cbn [length]. rewrite IH; [reflexivity|].
  intros b Hb. apply Hall. right. exact Hb.
Qed.

End Totales.

(** X4. In the calendar built from the rows of the file, the total of a
    day between the first and the last onset date of the confirmed cases
    is the number of confirmed cases of that day, zero when there is
    none; a day before the first or after the last of those dates has no
    total ([NaN]). *)
Theorem X4_columna_total (anio : Z) (datos : list Registro) :
  let fechas := FECHA_SIGN_SINTOMAS <$> confirmados datos in
  exists final,
    final_calendario anio datos = Ok final /\
    length (total final) = length (index final) /\
    forall i d, index final !! i = Some d ->
      ((exists f1 f2, f1 ∈ fechas /\ f2 ∈ fechas /\ f1 <= d <= f2) ->
       total final !! i = Some (Some (contar d fechas))) /\
      ((forall f, f ∈ fechas -> d < f) \/ (forall f, f ∈ fechas -> f < d) ->
       total final !! i = Some None).
Proof.
  intros fechas.
  destruct (final_calendario_Ok anio datos) as (final & Hf & Hidx & Htot).
  exists final. split; [exact Hf|].
  split; [rewrite Htot, Hidx; apply length_fmap|].
  intros i d Hd. rewrite Hidx in Hd.
  rewrite Htot, list_lookup_fmap, Hd. cbn [fmap option_fmap option_map].
  unfold totales_por_dia. fold fechas.
  destruct (decide (fechas = [])) as [Hvacio|Hne].
  - rewrite Hvacio. split.
    + intros (f1 & _ & H1 & _). apply elem_of_nil in H1. contradiction.
    + intros _. reflexivity.
  - destruct (resample_extremos fechas Hne)
      as (primero & ultimo & Hp & Hu & Hentre & Hlookup).
    rewrite Hlookup. split.
    + intros (f1 & f2 & H1 & H2 & Hentre').
      pose proof (Hentre f1 H1). pose proof (Hentre f2 H2).
      destruct (decide (primero <= d <= ultimo)); [reflexivity | lia].
    + intros [Hantes|Hdespues].
      * specialize (Hantes primero Hp).
        destruct (decide (primero <= d <= ultimo)); [lia | reflexivity].
      * specialize (Hdespues ultimo Hu).
        destruct (decide (primero <= d <= ultimo)); [lia | reflexivity].
Qed.

Lemma X4_columna_total_witness :
  let r (f e : Z) := {| FECHA_SIGN_SINTOMAS := f; ESTATUS_CASO := e;
                        DICTAMEN := 0; SEXO := 1; EDAD_ANOS := 30;
                        RESULTADO_PCR := 1; ENTIDAD_RES := 9;
                        MUNICIPIO_RES := 1 |} in
  let datos := [r 738523 2; r 738525 2; r 738523 2; r 738530 1] in
  exists final,
    final_calendario 2023 datos = Ok final /\
    total final !! 3%nat = Some (Some 0) /\
    total final !! 2%nat = Some (Some 2) /\
    total final !! 9%nat = Some None.
Proof.
  intros r datos.
  destruct (X4_columna_total 2023 datos) as (final & Hf & _ & Hcol).
  exists final. split; [exact Hf|].
  assert (Hidx : forall i, (i < 365)%nat ->
            index final !! i = Some (738521 + Z.of_nat i)).
  { intros i Hi. apply mapa_calendario_Ok in Hf as (semanas & _ & ->).
    cbn [index]. apply lookup_seqZ_lt. change (Z.of_nat i < 365). lia. }
  split; [|split].
  - apply (Hcol 3%nat _ (Hidx 3%nat ltac:(lia))).
    exists 738523, 738525. repeat split; try (vm_compute; discriminate).
    + left.
    + right. left.
  - apply (Hcol 2%nat _ (Hidx 2%nat ltac:(lia))).
    exists 738523, 738525. repeat split; try (vm_compute; discriminate).
    + left.
    + right. left.
  - apply (Hcol 9%nat _ (Hidx 9%nat ltac:(lia))).
    right. intros f Hf'.
    repeat (apply elem_of_cons in Hf' as [->|Hf']; [vm_compute; reflexivity|]).
    apply elem_of_nil in Hf'. contradiction.
Defined.

(** X5. The annual total under the calendar is the number of confirmed
    cases whose onset date falls in the year, and the daily mean is that
    number divided by the days of the year, 365 or 366. *)
Theorem X5_total_anual (anio : Z) (datos : list Registro) :
  let del_anio :=
    filter (fun r => Fechas.ymd2ord anio 1 1 <= FECHA_SIGN_SINTOMAS r
                     <= Fechas.ymd2ord anio 12 31) (confirmados datos) in
  exists final,
    final_calendario anio datos = Ok final /\
    stats_total (estadisticas_final final) = Z.of_nat (length del_anio) /\
    stats_mean (estadisticas_final final)
    = (inject_Z (Z.of_nat (length del_anio))
       / inject_Z (if Fechas.is_leap anio then 366 else 365))%Q.
Proof.
  intros del_anio.
  destruct (final_calendario_Ok anio datos) as (final & Hf & Hidx & Htot).
  exists final. split; [exact Hf|].
  assert (Htotal : stats_total (estadisticas_final final)
                   = Z.of_nat (length del_anio)).
  { unfold estadisticas_final, estadisticas. cbn [stats_total].
    rewrite serie_sum_spec, Htot, <- list_fmap_compose.
    rewrite (list_fmap_ext _
               (fun d => contar d (FECHA_SIGN_SINTOMAS <$> confirmados datos)))
      by (intros i d _; apply default_resample).
    unfold index_anual, Fechas.date_range.
    rewrite suma_contar by apply NoDup_seqZ.
    f_equal. rewrite length_filter_fmap. unfold del_anio.
    apply length_filter_ext. intros r _. rewrite elem_of_seqZ. lia. }
  split; [exact Htotal|].
  unfold estadisticas_final, estadisticas in *. cbn [stats_total stats_mean] in *.
  rewrite Htotal, Hidx, length_index_anual.
  destruct (Fechas.is_leap anio); reflexivity.
Qed.

(** ** Age groups *)

Section GruposDeEdad.

Local Open Scope nat_scope.

(** The groups split the ages 0 to 120: an age in that range is in one
    group, an age outside it in none. *)
Lemma edad_en_un_grupo (e : Z) :
  sum_list ((fun '(a, b) => if decide (a <= e <= b)%Z then 1 else 0) <$> BINS)
  = if decide (0 <= e <= 120)%Z then 1 else 0.
Proof.
  destruct (decide (0 <= e <= 120)%Z) as [He|He].
  - assert (Hin : e ∈ seqZ 0 121) by (apply elem_of_seqZ; lia).
    clear He. revert e Hin. apply Forall_forall.
    apply (bool_decide_unpack _). vm_compute. exact I.
  - cbn [BINS fmap list_fmap sum_list sum_list_with]. unfold id.
    repeat rewrite decide_False by lia. reflexivity.
Qed.

Lemma fila_en_un_grupo (s sexo edad_r : Z) :
  sum_list ((fun '(a, b) =>
               if decide (sexo = s /\ (a <= edad_r <= b)%Z) then 1 else 0) <$> BINS)
  = if decide (sexo = s /\ (0 <= edad_r <= 120)%Z) then 1 else 0.
Proof.
  destruct (decide (sexo = s)) as [Hs|Hs].
  - rewrite (decide_ext (sexo = s /\ (0 <= edad_r <= 120)%Z) (0 <= edad_r <= 120)%Z)
      by tauto.
    rewrite <- edad_en_un_grupo. f_equal.
    apply list_fmap_ext. intros _ [a b] _. apply decide_ext. tauto.
  - rewrite decide_False by tauto.
    cbn [BINS fmap list_fmap sum_list sum_list_with]. unfold id.
    repeat rewrite decide_False by tauto. reflexivity.
Qed.

Lemma sum_list_mas {A} (f g h : A -> nat) (l : list A) :
  (forall x, h x = f x + g x) ->
  sum_list (h <$> l) = sum_list (f <$> l) + sum_list (g <$> l).
Proof.
  intros Hh. induction l as [|x l IH]; [reflexivity|].
  cbn [fmap list_fmap].
  change (sum_list (h x :: (h <$> l))) with (h x + sum_list (h <$> l)).
  change (sum_list (f x :: (f <$> l))) with (f x + sum_list (f <$> l)).
  change (sum_list (g x :: (g <$> l))) with (g x + sum_list (g <$> l)).
  rewrite IH, Hh. lia.
Qed.

(** A row of sex [s] is counted in one group when its age is between 0
    and 120, and in none otherwise. *)
Lemma grupos_particion (s : Z) (df : list Registro) :
  sum_list ((fun '(a, b) =>
               length (filter (fun r => SEXO r = s /\ (a <= EDAD_ANOS r <= b)%Z) df))
            <$> BINS)
  = length (filter (fun r => SEXO r = s /\ (0 <= EDAD_ANOS r <= 120)%Z) df).
Proof.
  induction df as [|r df IH].
  - reflexivity.
  - rewrite filter_cons.
    rewrite (sum_list_mas
               (fun '(a, b) => if decide (SEXO r = s /\ (a <= EDAD_ANOS r <= b)%Z)
                               then 1 else 0)
               (fun '(a, b) => length (filter (fun r => SEXO r = s
                                 /\ (a <= EDAD_ANOS r <= b)%Z) df))).
    + rewrite IH, (fila_en_un_grupo s (SEXO r) (EDAD_ANOS r)).
      destruct (decide _); reflexivity.
    + intros [a b]. rewrite filter_cons. destruct (decide _); reflexivity.
Qed.

End GruposDeEdad.

(** X6. Whatever the rows, the table by age has the 18 groups "0-4",
    "5-9", ..., "80-84", "≥85" in this order; the counts of women over
    the groups add up to the number of rows of sex 1 with an age between
    0 and 120, and those of men to the number of rows of sex 2 with such
    an age: a row of another sex, of negative age or older than 120 is
    not counted, and no row is counted twice. *)
Theorem X6_grupos_de_edad (df : list Registro) :
  let final := grupos_de_edad df in
  edad <$> final
  = ["0-4"; "5-9"; "10-14"; "15-19"; "20-24"; "25-29"; "30-34"; "35-39";
     "40-44"; "45-49"; "50-54"; "55-59"; "60-64"; "65-69"; "70-74"; "75-79";
     "80-84"; "≥85"]%string /\
  sum_list (mujeres <$> final)
  = length (filter (fun r => SEXO r = 1 /\ 0 <= EDAD_ANOS r <= 120) df) /\
  sum_list (hombres <$> final)
  = length (filter (fun r => SEXO r = 2 /\ 0 <= EDAD_ANOS r <= 120) df) /\
  (forall fila, fila ∈ final ->
     (mujeres fila <= length (filter (fun r => (SEXO r = 1)%Z) df))%nat /\
     (hombres fila <= length (filter (fun r => (SEXO r = 2)%Z) df))%nat).
Proof.
  intros final. split; [reflexivity|]. split; [|split].
  - rewrite <- (grupos_particion 1 df). unfold final, grupos_de_edad.
    rewrite <- list_fmap_compose. reflexivity.
  - rewrite <- (grupos_particion 2 df). unfold final, grupos_de_edad.
    rewrite <- list_fmap_compose. reflexivity.
  - intros fila Hfila. unfold final, grupos_de_edad in Hfila.
    apply list_elem_of_fmap in Hfila as ([a b] & -> & _). cbn [mujeres hombres].
    split; apply submseteq_length, sublist_submseteq.
    + induction df as [|r df IH]; [constructor|].
      rewrite !filter_cons.
      destruct (decide (SEXO r = 1 /\ a <= EDAD_ANOS r <= b)) as [[H1 _]|Hno].
      * rewrite decide_True by exact H1. apply sublist_skip, IH.
      * destruct (decide (SEXO r = 1)); [apply sublist_cons, IH | exact IH].
    + induction df as [|r df IH]; [constructor|].
      rewrite !filter_cons.
      destruct (decide (SEXO r = 2 /\ a <= EDAD_ANOS r <= b)) as [[H1 _]|Hno].
      * rewrite decide_True by exact H1. apply sublist_skip, IH.
      * destruct (decide (SEXO r = 2)); [apply sublist_cons, IH | exact IH].
Qed.

(** ** Counts by value *)

Section ConteosPorValor.

Lemma StronglySorted_lookup {A} (R : relation A) (l : list A) :
  StronglySorted R l ->
  forall i j x y, (i < j)%nat -> l !! i = Some x -> l !! j = Some y -> R x y.
Proof.
  induction 1 as [|a l Hss IH Hall]; intros i j x y Hij Hx Hy.
  - discriminate.
  - destruct j as [|j]; [lia|]. cbn in Hy. destruct i as [|i]; cbn in Hx.
    + injection Hx as <-. rewrite Forall_forall in Hall.
      apply Hall. eapply list_elem_of_lookup_2, Hy.
    + apply (IH i j x y); [lia | assumption | assumption].
Qed.

(** The values that occur, each once, in increasing order. *)
Lemma claves_ordenadas (valores : list Z) :
  let claves := merge_sort Z.le (remove_dups valores) in
  NoDup claves /\
  (forall k, k ∈ claves <-> k ∈ valores) /\
  (forall i j ki kj, (i < j)%nat -> claves !! i = Some ki -> claves !! j = Some kj ->
     ki < kj).
Proof.
  intros claves.
  assert (Hperm : claves ≡ₚ remove_dups valores) by apply merge_sort_Permutation.
  assert (Hnd : NoDup claves) by (rewrite Hperm; apply NoDup_remove_dups).
  split; [exact Hnd|]. split.
  - intros k. rewrite Hperm. apply elem_of_remove_dups.
  - intros i j ki kj Hij Hi Hj.
    assert (Hle : ki <= kj).
    { apply (StronglySorted_lookup Z.le claves) with i j; try assumption.
      apply StronglySorted_merge_sort; apply _. }
    assert (Hne : ki <> kj).
    { intros ->. pose proof (NoDup_lookup claves i j kj Hnd Hi Hj). lia. }
    lia.
Qed.

Lemma value_counts_total (valores : list Z) :
  foldr Z.add 0 (value_counts_sort_index valores).*2 = Z.of_nat (length valores).
Proof.
  unfold value_counts_sort_index.
  destruct (claves_ordenadas valores) as (Hnd & Hin & _).
  rewrite <- list_fmap_compose.
  change (snd ∘ (fun k => (k, contar k valores))) with (fun k => contar k valores).
  rewrite suma_contar by exact Hnd.
  f_equal. apply length_filter_ext_todos. intros y Hy. apply Hin, Hy.
Qed.

End ConteosPorValor.

(** ** The table of serotypes *)

Section Serotipos.

Lemma contar_a_lo_mas (x : Z) (l : list Z) : contar x l <= Z.of_nat (length l).
Proof.
  unfold contar. pose proof (length_filter (fun y => y = x) l). lia.
Qed.

(** The percentages of a list of counts add up to the percentage of their
    sum. *)
Lemma suma_de_porcentajes (s : Z) (conteos : list (Z * Z)) :
  (foldr Qplus 0 ((fun '(_, t) => inject_Z t / inject_Z s * 100) <$> conteos)
   == inject_Z (foldr Z.add 0%Z conteos.*2) / inject_Z s * 100)%Q.
Proof.
  induction conteos as [|[k t] conteos IH].
  - cbn. unfold Qdiv. ring.
  - cbn [fmap list_fmap foldr snd]. change (list_fmap _ _ ?f ?l) with (f <$> l).
    rewrite IH, inject_Z_plus. unfold Qdiv. ring.
Qed.

Lemma porcentaje_acotado (t s : Z) :
  1 <= t -> t <= s -> (0 < inject_Z t / inject_Z s * 100 /\
                       inject_Z t / inject_Z s * 100 <= 100)%Q.
Proof.
  intros Ht Hts. destruct s as [|p|p]; [lia| |lia].
  assert (Hq : (inject_Z t / inject_Z (Z.pos p) == t # p)%Q)
    by (symmetry; apply Qmake_Qdiv).
  rewrite Hq. unfold Qlt, Qle, Qmult. cbn. split; nia.
Qed.

Lemma filas_de_la_tabla (valores : list Z) (fila : FilaSerotipo) :
  fila ∈ tabla_serotipos valores ->
  exists k, k ∈ valores /\
    serotipo fila = SEROTIPOS !! k /\
    total_serotipo fila = contar k valores /\
    perc fila = (inject_Z (contar k valores)
                 / inject_Z (Z.of_nat (length valores)) * 100)%Q.
Proof.
  unfold tabla_serotipos. rewrite value_counts_total.
  intros Hfila. apply list_elem_of_fmap in Hfila as ([k t] & -> & Hkt).
  unfold value_counts_sort_index in Hkt.
  apply list_elem_of_fmap in Hkt as (k' & Hpar & Hk').
  injection Hpar as -> ->. exists k'. split; [|done].
  apply (proj1 (proj1 (proj2 (claves_ordenadas valores)) k')), Hk'.
Qed.

End Serotipos.

(** X7. The table of a doughnut chart (cases or deaths by serotype): its
    rows are the codes of [RESULTADO_PCR] that occur among the rows
    selected, once each and by increasing code, labelled through
    [SEROTIPOS] (no label for a code outside 1..5); every count is at
    least 1 and the counts add up to the number of rows selected, which is
    the figure of the title; every percentage lies in (0, 100], and for a
    selection that is not empty the percentages add up to 100. *)
Theorem X7_tabla_de_serotipos (valores : list Z) :
  let tabla := tabla_serotipos valores in
  (exists claves : list Z,
     serotipo <$> tabla = (fun k => SEROTIPOS !! k) <$> claves /\
     total_serotipo <$> tabla = (fun k => contar k valores) <$> claves /\
     NoDup claves /\
     (forall k, k ∈ claves <-> k ∈ valores) /\
     (forall i j ki kj, (i < j)%nat -> claves !! i = Some ki ->
        claves !! j = Some kj -> ki < kj)) /\
  foldr Z.add 0 (total_serotipo <$> tabla) = Z.of_nat (length valores) /\
  (forall fila, fila ∈ tabla ->
     1 <= total_serotipo fila /\ (0 < perc fila /\ perc fila <= 100)%Q /\
     (is_Some (serotipo fila) <->
      exists k, 1 <= k <= 5 /\ k ∈ valores /\ serotipo fila = SEROTIPOS !! k)) /\
  (valores <> [] -> (foldr Qplus 0 (perc <$> tabla) == 100)%Q).
Proof.
  intros tabla.
  assert (Htot : total_serotipo <$> tabla = (value_counts_sort_index valores).*2).
  { unfold tabla, tabla_serotipos. rewrite <- list_fmap_compose.
    apply list_fmap_ext. intros i [k t] _. reflexivity. }
  split; [|split; [|split]].
  - exists (merge_sort Z.le (remove_dups valores)).
    destruct (claves_ordenadas valores) as (Hnd & Hin & Hord).
    split; [|split; [|split; [exact Hnd | split; [exact Hin | exact Hord]]]].
    + unfold tabla, tabla_serotipos, value_counts_sort_index.
      rewrite <- !list_fmap_compose. reflexivity.
    + rewrite Htot. unfold value_counts_sort_index.
      rewrite <- !list_fmap_compose. reflexivity.
  - rewrite Htot. apply value_counts_total.
  - intros fila Hfila.
    apply filas_de_la_tabla in Hfila as (k & Hk & Hser & Htotal & Hperc).
    assert (H1 : 1 <= contar k valores) by (apply contar_positivo, Hk).
    split; [lia|]. split.
    + rewrite Hperc. apply porcentaje_acotado; [exact H1 | apply contar_a_lo_mas].
    + split.
      * intros [s Hs]. exists k. split; [|split; [exact Hk | exact Hser]].
        rewrite Hser in Hs. unfold SEROTIPOS in Hs.
        destruct (decide (1 <= k <= 5)) as [|Hno]; [assumption|exfalso].
        apply (elem_of_list_to_map_2 (M := gmap Z)) in Hs.
        repeat (apply elem_of_cons in Hs as [Hs|Hs]; [injection Hs as -> _; lia|]).
        apply elem_of_nil in Hs. exact Hs.
      * intros (k' & Hr & _ & ->).
        assert (Hcasos : k' = 1 \/ k' = 2 \/ k' = 3 \/ k' = 4 \/ k' = 5) by lia.
        destruct Hcasos as [->|[->|[->|[->| ->]]]]; vm_compute; eauto.
  - intros Hne. unfold tabla, tabla_serotipos.
    set (s := foldr Z.add 0 (value_counts_sort_index valores).*2).
    rewrite <- list_fmap_compose.
    rewrite (list_fmap_ext _ (fun '(_, t) => (inject_Z t / inject_Z s * 100)%Q)
               (value_counts_sort_index valores))
      by (intros i [k t] _; reflexivity).
    etransitivity; [apply suma_de_porcentajes|].
    unfold s. rewrite value_counts_total.
    assert (Hl : ~ (inject_Z (Z.of_nat (length valores)) == 0)%Q).
    { destruct valores; [done|]. unfold Qeq. cbn. lia. }
    field. exact Hl.
Qed.

Lemma X7_tabla_de_serotipos_witness :
  (foldr Qplus 0 (perc <$> tabla_serotipos [2; 1; 2; 5; 2]%Z) == 100)%Q.
Proof.
  apply (proj2 (proj2 (proj2 (X7_tabla_de_serotipos [2; 1; 2; 5; 2])))). discriminate.
Defined.

(** ** The map of the states *)

Section Estados.

Lemma snd_inyectivo {A B} (l : list (A * B)) (a b : A) (c : B) :
  NoDup (l.*2) -> (a, c) ∈ l -> (b, c) ∈ l -> a = b.
Proof.
  induction l as [|[x y] l IH]; intros Hnd Ha Hb.
  - apply elem_of_nil in Ha. contradiction.
  - cbn in Hnd. apply NoDup_cons in Hnd as [Hy Hnd].
    apply elem_of_cons in Ha as [Ha|Ha]; apply elem_of_cons in Hb as [Hb|Hb].
    + congruence.
    + injection Ha as -> ->. exfalso. apply Hy.
      apply list_elem_of_fmap. exists (b, y). split; [reflexivity | exact Hb].
    + injection Hb as -> ->. exfalso. apply Hy.
      apply list_elem_of_fmap. exists (a, y). split; [reflexivity | exact Ha].
    + apply IH; assumption.
Qed.

(** No two codes share a name. *)
Lemma ENTIDADES_inyectivo (e e' : Z) (g : string) :
  ENTIDADES !! e = Some g -> ENTIDADES !! e' = Some g -> e = e'.
Proof.
  unfold ENTIDADES. intros H1 H2.
  apply (elem_of_list_to_map_2 (M := gmap Z)) in H1.
  apply (elem_of_list_to_map_2 (M := gmap Z)) in H2.
  eapply snd_inyectivo; [|exact H1|exact H2].
  apply (bool_decide_unpack _). vm_compute. exact I.
Qed.

Lemma ENTIDADES_rango (e : Z) (g : string) :
  ENTIDADES !! e = Some g -> 1 <= e <= 32.
Proof.
  unfold ENTIDADES. intros H1.
  apply (elem_of_list_to_map_2 (M := gmap Z)) in H1.
  match type of H1 with
  | _ ∈ ?l =>
      assert (Hall : Forall (fun p : Z * string => 1 <= p.1 <= 32) l)
        by (apply (bool_decide_unpack _); vm_compute; exact I)
  end.
  rewrite Forall_forall in Hall. apply (Hall _ H1).
Qed.

Lemma filter_fmap_gen {A B} (f : A -> B) (P : B -> Prop)
    `{forall x, Decision (P x)} (l : list A) :
  filter P (f <$> l) = f <$> filter (fun a => P (f a)) l.
Proof.
  induction l as [|a l IH]; [reflexivity|].
  cbn [fmap list_fmap]. rewrite !filter_cons.
  destruct (decide (P (f a))); cbn [fmap list_fmap]; rewrite IH; reflexivity.
Qed.

Lemma filter_ninguno {A} (P : A -> Prop) `{forall x, Decision (P x)} (l : list A) :
  (forall a, a ∈ l -> ~ P a) -> filter P l = [].
Proof.
  intros Hno. destruct (filter P l) as [|a l'] eqn:Hfil; [reflexivity|].
  assert (Ha : a ∈ filter P l) by (rewrite Hfil; left).
  apply list_elem_of_filter in Ha as [HP Ha]. destruct (Hno a Ha HP).
Qed.

Lemma filter_unico {A} (P : A -> Prop) `{forall x, Decision (P x)}
    (l : list A) (a : A) :
  NoDup l -> a ∈ l -> P a -> (forall b, b ∈ l -> P b -> b = a) ->
  filter P l = [a].
Proof.
  induction 1 as [|x l Hx Hnd IH]; intros Ha HP Huno.
  - apply elem_of_nil in Ha. contradiction.
  - rewrite filter_cons. apply elem_of_cons in Ha as [<-|Ha].
    + rewrite decide_True by exact HP. f_equal.
      apply filter_ninguno. intros b Hb HPb.
      assert (b = a) by (apply Huno; [right; exact Hb | exact HPb]).
      subst b. contradiction.
    + destruct (decide (P x)) as [HPx|_].
      * assert (x = a) by (apply Huno; [left | exact HPx]).
        subst x. contradiction.
      * apply IH; [exact Ha | exact HP|].
        intros b Hb HPb. apply Huno; [right; exact Hb | exact HPb].
Qed.

(** The cells of a row of the pivot table add up to the number of rows of
    its state, whatever values [SEXO] takes. *)
Lemma suma_por_sexo (e : Z) (df : list Registro) :
  foldr Z.add 0
    ((fun s => Z.of_nat (length (filter (fun r => ENTIDAD_RES r = e /\ SEXO r = s) df)))
     <$> merge_sort Z.le (remove_dups (SEXO <$> df)))
  = Z.of_nat (length (filter (fun r => ENTIDAD_RES r = e) df)).
Proof.
  destruct (claves_ordenadas (SEXO <$> df)) as (Hnd & Hin & _).
  set (sexos := merge_sort Z.le (remove_dups (SEXO <$> df))) in *.
  rewrite (list_fmap_ext _
             (fun s => contar s (SEXO <$> filter (fun r => ENTIDAD_RES r = e) df)) sexos).
  - rewrite suma_contar by exact Hnd. f_equal.
    rewrite length_filter_ext_todos, length_fmap; [reflexivity|].
    intros s Hs. apply Hin.
    apply list_elem_of_fmap in Hs as (r & -> & Hr).
    apply list_elem_of_filter in Hr as [_ Hr].
    apply list_elem_of_fmap. exists r. split; [reflexivity | exact Hr].
  - intros _ s _. unfold contar. f_equal.
    rewrite length_filter_fmap, list_filter_filter.
    apply length_filter_ext. intros r _. tauto.
Qed.

(** The look-up of a name in the sorted table. *)
Lemma loc_tasa_tabla (sort_values : list FilaEntidad -> list FilaEntidad)
    (pop : gmap string Z) (datos : list Registro) (geo : string) :
  (forall l, sort_values l ≡ₚ l) ->
  let casos :=
    filter (fun r => ESTATUS_CASO r = 2 /\ ENTIDADES !! ENTIDAD_RES r = Some geo)
           datos in
  loc_tasa (sort_values (tabla_estatal pop datos)) geo
  = match casos with
    | [] => KeyError geo
    | _ :: _ => loc_valor (tasa_100k (Z.of_nat (length casos)) (pop !! geo))
    end.
Proof.
  intros Hperm casos. unfold loc_tasa.
  set (df := filter (fun r => ENTIDAD_RES r <= 32) (confirmados datos)).
  destruct (claves_ordenadas (ENTIDAD_RES <$> df)) as (Hnd & Hin & _).
  set (claves := merge_sort Z.le (remove_dups (ENTIDAD_RES <$> df))) in *.
  assert (Hdf : forall r, r ∈ df <->
                  r ∈ datos /\ ESTATUS_CASO r = 2 /\ ENTIDAD_RES r <= 32).
  { intros r. unfold df, confirmados.
    rewrite !list_elem_of_filter. tauto. }
  assert (Hfil : filter (fun f => entidad f = Some geo) (tabla_estatal pop datos)
                 ≡ₚ filter (fun f => entidad f = Some geo)
                      (sort_values (tabla_estatal pop datos)))
    by (rewrite Hperm; reflexivity).
  unfold tabla_estatal in Hfil at 1. fold df in Hfil. fold claves in Hfil.
  rewrite filter_fmap_gen in Hfil. cbn [entidad] in Hfil.
  destruct casos as [|r0 resto] eqn:Hcasos.
  - rewrite (filter_ninguno _ claves) in Hfil.
    + cbn in Hfil. symmetry in Hfil. apply Permutation_nil_r in Hfil.
      rewrite Hfil. reflexivity.
    + intros e He Hgeo. apply Hin in He.
      apply list_elem_of_fmap in He as (r & -> & Hr). apply Hdf in Hr as (Hr & H2 & _).
      assert (Hrc : r ∈ casos)
        by (unfold casos; apply list_elem_of_filter; split; [split|]; assumption).
      rewrite Hcasos in Hrc. apply elem_of_nil in Hrc. exact Hrc.
  - assert (Hr0 : r0 ∈ casos) by (rewrite Hcasos; left).
    unfold casos in Hr0. apply list_elem_of_filter in Hr0 as [[H2 Hgeo] Hr0].
    set (e := ENTIDAD_RES r0) in *.
    pose proof (ENTIDADES_rango e geo Hgeo) as Hrango.
    assert (He : e ∈ claves).
    { apply Hin. apply list_elem_of_fmap. exists r0. split; [reflexivity|].
      apply Hdf. split; [exact Hr0 | split; [exact H2 | unfold e in Hrango; lia]]. }
    rewrite (filter_unico _ claves e Hnd He Hgeo) in Hfil
      by (intros b _ Hb; apply (ENTIDADES_inyectivo b e geo Hb Hgeo)).
    cbn [fmap list_fmap] in Hfil. symmetry in Hfil.
    apply Permutation_singleton_r in Hfil. rewrite Hfil. cbn [tasa_entidad].
    rewrite Hgeo. cbn [mbind option_bind]. f_equal. f_equal.
    rewrite suma_por_sexo. f_equal. rewrite <- Hcasos. unfold casos, df, confirmados.
    rewrite !list_filter_filter. apply length_filter_ext. intros r _. split.
    + intros ((He' & _) & H2'). split; [exact H2'|]. rewrite He'. exact Hgeo.
    + intros (H2' & Hgeo').
      assert (ENTIDAD_RES r = e) by (apply (ENTIDADES_inyectivo _ _ geo Hgeo' Hgeo)).
      split; [split; [assumption | lia] | exact H2'].
Qed.

End Estados.

(** X8. The map of the states takes the rate of every state of the
    GeoJSON from the table by its name, and the table has a row only for
    a state with at least one confirmed case. So when every state of the
    GeoJSON has a confirmed case the values are, state by state, the
    number of its confirmed cases (of any sex) over its population per
    100,000, and when some state has none the loop stops with [KeyError]
    at the first such state. *)
Theorem X8_mapa_de_estados
    (sort_values : list FilaEntidad -> list FilaEntidad)
    (pop : gmap string Z) (datos : list Registro) (geojson : list string) :
  (forall l, sort_values l ≡ₚ l) ->
  (exists r, r ∈ datos /\ ESTATUS_CASO r = 2 /\ ENTIDAD_RES r <= 32) ->
  let casos := fun geo =>
    filter (fun r => ESTATUS_CASO r = 2 /\ ENTIDADES !! ENTIDAD_RES r = Some geo)
           datos in
  let res := main_estatal_valores sort_values pop datos geojson in
  (Forall (fun geo => casos geo <> []) geojson ->
   res = loc_valor ((fun geo => tasa_100k (Z.of_nat (length (casos geo))) (pop !! geo))
                    <$> geojson)) /\
  (forall antes geo despues,
     geojson = antes ++ geo :: despues ->
     Forall (fun g => casos g <> []) antes -> casos geo = [] ->
     res = KeyError geo).
Proof.
  intros Hperm _ casos res. unfold res, main_estatal_valores.
  set (df := sort_values (tabla_estatal pop datos)).
  assert (Hloc : forall geo,
            loc_tasa df geo
            = match casos geo with
              | [] => KeyError geo
              | _ :: _ => loc_valor (tasa_100k (Z.of_nat (length (casos geo)))
                                      (pop !! geo))
              end)
    by (intros geo; apply loc_tasa_tabla, Hperm).
  clearbody df. split.
  - induction 1 as [|geo resto Hgeo Hresto IH]; [reflexivity|].
    cbn [valores_estatal fmap list_fmap]. rewrite Hloc, IH.
    destruct (casos geo); [contradiction | reflexivity].
  - intros antes geo despues -> Hantes Hgeo.
    induction Hantes as [|g antes Hg Hantes IH].
    + cbn [app valores_estatal]. rewrite Hloc, Hgeo. reflexivity.
    + cbn [app valores_estatal]. rewrite Hloc, IH.
      destruct (casos g); [contradiction | reflexivity].
Qed.

Lemma X8_mapa_de_estados_witness :
  main_estatal_valores reverse {["Aguascalientes"%string := 1425607]}
    [ {| FECHA_SIGN_SINTOMAS := 738000; ESTATUS_CASO := 2; DICTAMEN := 0;
         SEXO := 1; EDAD_ANOS := 30; RESULTADO_PCR := 2; ENTIDAD_RES := 1;
         MUNICIPIO_RES := 1 |} ]
    ["Aguascalientes"; "Colima"]%string
  = KeyError "Colima"%string.
Proof.
  set (pop := {["Aguascalientes"%string := 1425607]} : gmap string Z).
  set (fila := {| FECHA_SIGN_SINTOMAS := 738000; ESTATUS_CASO := 2; DICTAMEN := 0;
                  SEXO := 1; EDAD_ANOS := 30; RESULTADO_PCR := 2; ENTIDAD_RES := 1;
                  MUNICIPIO_RES := 1 |}).
  assert (Hex : exists r, r ∈ [fila] /\ ESTATUS_CASO r = 2 /\ ENTIDAD_RES r <= 32)
    by (exists fila; split; [left | split; [reflexivity | cbn; lia]]).
  apply (proj2 (X8_mapa_de_estados reverse pop [fila]
                  ["Aguascalientes"; "Colima"]%string
                  (fun l => reverse_Permutation l) Hex)
           ["Aguascalientes"%string] "Colima"%string []).
  - reflexivity.
  - repeat constructor. vm_compute. discriminate.
  - vm_compute. reflexivity.
Defined.

(** ** The key of a municipality *)

Section ClaveDeMunicipio.

Lemma length_ceros (n : nat) : String.length (ceros n) = n.
Proof. induction n as [|n IH]; cbn; [reflexivity | rewrite IH; reflexivity]. Qed.

Lemma length_mas (s t : string) :
  String.length (s +:+ t) = (String.length s + String.length t)%nat.
Proof.
  induction s as [|c s IH]; [reflexivity|].
  change (S (String.length (s +:+ t)) = S (String.length s + String.length t)).
  rewrite IH. reflexivity.
Qed.

Lemma length_zfill (ancho : nat) (s : string) :
  String.length (zfill ancho s) = Nat.max ancho (String.length s).
Proof.
  unfold zfill. destruct s as [|c resto].
  - rewrite length_ceros. cbn. lia.
  - destruct (decide (c = "+"%char \/ c = "-"%char)); cbn [String.length];
      rewrite length_mas, length_ceros; cbn [String.length]; lia.
Qed.

(** Filling a text that is already filled changes nothing. *)
Lemma zfill_zfill (ancho : nat) (s : string) :
  zfill ancho (zfill ancho s) = zfill ancho s.
Proof.
  pose proof (length_zfill ancho s) as Hlen.
  destruct (zfill ancho s) as [|c resto] eqn:Hz.
  - cbn in Hlen. assert (ancho = 0)%nat as -> by lia. reflexivity.
  - unfold zfill.
    replace (ancho - String.length (String c resto))%nat with 0%nat by lia.
    cbn [ceros]. destruct (decide (c = "+"%char \/ c = "-"%char)); reflexivity.
Qed.

Lemma mas_inyectivo (s s' t t' : string) :
  String.length s = String.length s' -> s +:+ t = s' +:+ t' -> s = s' /\ t = t'.
Proof.
  revert s'. induction s as [|c s IH]; intros [|c' s'] Hlen Heq;
    try discriminate Hlen.
  - split; [reflexivity | exact Heq].
  - change (String c (s +:+ t) = String c' (s' +:+ t')) in Heq.
    injection Heq as -> Heq. cbn in Hlen.
    destruct (IH s' ltac:(lia) Heq) as [-> ->]. split; reflexivity.
Qed.

Lemma fmap_inyectiva {A B} (f : A -> B) (l : list A) (x y : A) :
  NoDup (f <$> l) -> x ∈ l -> y ∈ l -> f x = f y -> x = y.
Proof.
  induction l as [|a l IH]; intros Hnd Hx Hy Hxy.
  - apply elem_of_nil in Hx. contradiction.
  - cbn in Hnd. apply NoDup_cons in Hnd as [Ha Hnd].
    apply elem_of_cons in Hx as [->|Hx]; apply elem_of_cons in Hy as [->|Hy].
    + reflexivity.
    + exfalso. apply Ha. rewrite Hxy. apply list_elem_of_fmap. exists y. done.
    + exfalso. apply Ha. rewrite <- Hxy. apply list_elem_of_fmap. exists x. done.
    + apply IH; assumption.
Qed.

(** The codes of two digits and of three digits, filled. *)
Lemma zfill_enumerado :
  NoDup ((fun e => zfill 2 (pretty e)) <$> seqZ 0 100) /\
  Forall (fun e => String.length (zfill 2 (pretty e)) = 2%nat) (seqZ 0 100) /\
  NoDup ((fun m => zfill 3 (pretty m)) <$> seqZ 0 1000) /\
  Forall (fun m => String.length (zfill 3 (pretty m)) = 3%nat) (seqZ 0 1000).
Proof.
  split; [|split; [|split]]; apply (bool_decide_unpack _); vm_compute; exact I.
Qed.

End ClaveDeMunicipio.

(** X9. For a state code of at most two digits and a municipality code
    of at most three, the key built for the map (columns filled twice)
    is the key built for the table (filled once), it has five characters,
    and two pairs of such codes have the same key only when they are the
    same pair: grouping the rows by key groups them by municipality. *)
Theorem X9_clave_de_municipio (e m e' m' : Z) :
  0 <= e < 100 -> 0 <= m < 1000 -> 0 <= e' < 100 -> 0 <= m' < 1000 ->
  CVE_mapa e m = CVE_tabla e m /\
  String.length (CVE_tabla e m) = 5%nat /\
  (CVE_tabla e m = CVE_tabla e' m' <-> e = e' /\ m = m').
Proof.
  intros He Hm He' Hm'.
  destruct zfill_enumerado as (Hnd2 & Hlen2 & Hnd3 & Hlen3).
  rewrite Forall_forall in Hlen2, Hlen3.
  assert (Hin2 : forall x, 0 <= x < 100 -> x ∈ seqZ 0 100)
    by (intros x Hx; apply elem_of_seqZ; lia).
  assert (Hin3 : forall x, 0 <= x < 1000 -> x ∈ seqZ 0 1000)
    by (intros x Hx; apply elem_of_seqZ; lia).
  split; [|split; [|split]].
  - unfold CVE_mapa, CVE_tabla. rewrite !zfill_zfill. reflexivity.
  - unfold CVE_tabla. rewrite length_mas.
    rewrite (Hlen2 e (Hin2 e He)), (Hlen3 m (Hin3 m Hm)). reflexivity.
  - unfold CVE_tabla. intros Heq.
    apply mas_inyectivo in Heq as [Heq2 Heq3].
    + split.
      * apply (fmap_inyectiva (fun x => zfill 2 (pretty x)) (seqZ 0 100));
          [exact Hnd2 | apply Hin2, He | apply Hin2, He' | exact Heq2].
      * apply (fmap_inyectiva (fun x => zfill 3 (pretty x)) (seqZ 0 1000));
          [exact Hnd3 | apply Hin3, Hm | apply Hin3, Hm' | exact Heq3].
    + rewrite (Hlen2 e (Hin2 e He)), (Hlen2 e' (Hin2 e' He')). reflexivity.
  - intros [-> ->]. reflexivity.
Qed.

Lemma X9_clave_de_municipio_witness :
  CVE_mapa 7 89 = CVE_tabla 7 89 /\
  String.length (CVE_tabla 7 89) = 5%nat /\
  (CVE_tabla 7 89 = CVE_tabla 78 9 <-> 7 = 78 /\ 89 = 9).
Proof.
  apply (X9_clave_de_municipio 7 89 78 9); lia.
Defined.

(** ** The map of the municipalities *)

Section Municipios.

Lemma fst_fmap_clave {A} (g : string -> A) (l : list string) :
  ((fun k => (k, g k)) <$> l).*1 = l.
Proof. induction l as [|k l IH]; cbn; [reflexivity | rewrite IH; reflexivity]. Qed.

Lemma lookup_conteo_por_clave (claves : list string) (k : string) :
  conteo_por_clave claves !! k
  = if decide (k ∈ claves)
    then Some (Z.of_nat (length (filter (fun y => y = k) claves)))
    else None.
Proof.
  unfold conteo_por_clave.
  assert (Hnd : NoDup ((fun k => (k, Z.of_nat (length (filter (fun y => y = k) claves))))
                         <$> remove_dups claves).*1).
  { rewrite fst_fmap_clave. apply NoDup_remove_dups. }
  destruct (decide (k ∈ claves)) as [Hk|Hk].
  - apply elem_of_list_to_map; [exact Hnd|].
    apply list_elem_of_fmap. exists k. split; [reflexivity|].
    apply elem_of_remove_dups, Hk.
  - apply not_elem_of_list_to_map. rewrite fst_fmap_clave.
    intros Hin. apply Hk, elem_of_remove_dups, Hin.
Qed.

Lemma length_filter_positivo {A} (P : A -> Prop) `{forall x, Decision (P x)}
    (l : list A) (a : A) :
  a ∈ l -> P a -> (1 <= length (filter P l))%nat.
Proof.
  intros Ha HP.
  assert (Hin : a ∈ filter P l) by (apply list_elem_of_filter; split; assumption).
  destruct (filter P l); [apply elem_of_nil in Hin; contradiction | cbn; lia].
Qed.

(** A count that is not zero over a population that is not zero gives a
    rate that is not zero. *)
Lemma tasa_no_es_cero (total : Z) (poblacion : option Z) :
  total <> 0 -> distinto_de_cero (tasa_100k total poblacion) = true.
Proof.
  intros Ht. unfold tasa_100k. destruct poblacion as [p|]; [|reflexivity].
  destruct (decide (p = 0)) as [|Hp]; [destruct (decide (total = 0)); reflexivity|].
  cbn [distinto_de_cero]. apply negb_true_iff.
  destruct (Qeq_bool _ 0) eqn:Hq; [|reflexivity]. exfalso.
  apply Qeq_bool_eq in Hq.
  assert (Hp' : ~ (inject_Z p == 0)%Q) by (unfold Qeq; cbn; lia).
  assert (Ht' : (inject_Z total == 0)%Q).
  { assert (Hd : (inject_Z total == inject_Z total / inject_Z p * 100000
                                    * (inject_Z p / 100000))%Q) by (field; exact Hp').
    rewrite Hd, Hq. ring. }
  unfold Qeq in Ht'. cbn in Ht'. lia.
Qed.

(** The rows of a key among the confirmed cases. *)
Lemma conteo_de_confirmados (clave : Z -> Z -> string) (datos : list Registro)
    (geo : string) :
  let claves := (fun r => clave (ENTIDAD_RES r) (MUNICIPIO_RES r)) <$> confirmados datos in
  let del_municipio :=
    filter (fun r => ESTATUS_CASO r = 2 /\ clave (ENTIDAD_RES r) (MUNICIPIO_RES r) = geo)
           datos in
  length (filter (fun y => y = geo) claves) = length del_municipio /\
  (geo ∈ claves <-> del_municipio <> []).
Proof.
  intros claves del_municipio.
  assert (Hlen : length (filter (fun y => y = geo) claves) = length del_municipio).
  { unfold claves, del_municipio, confirmados.
    rewrite filter_fmap_gen, length_fmap, list_filter_filter.
    apply length_filter_ext. intros r _. tauto. }
  split; [exact Hlen|]. split.
  - intros Hgeo Hnil.
    pose proof (length_filter_positivo (fun y => y = geo) claves geo Hgeo eq_refl) as H1.
    rewrite Hlen, Hnil in H1. cbn in H1. lia.
  - intros Hno. destruct del_municipio as [|r resto] eqn:Hdel; [contradiction|].
    assert (Hr : r ∈ del_municipio) by (rewrite Hdel; left).
    unfold del_municipio in Hr. apply list_elem_of_filter in Hr as [[H2 Hk] Hr].
    unfold claves. apply list_elem_of_fmap. exists r. split; [symmetry; exact Hk|].
    unfold confirmados. apply list_elem_of_filter. split; assumption.
Qed.

(** A row of the joined frame has the count of its key, which is not
    zero. *)
Lemma lookup_unir_poblacion (clave : Z -> Z -> string) (pop : gmap string Z)
    (datos : list Registro) (geo : string) :
  let n := Z.of_nat (length (filter (fun r => ESTATUS_CASO r = 2 /\
                        clave (ENTIDAD_RES r) (MUNICIPIO_RES r) = geo) datos)) in
  unir_poblacion pop
    (conteo_por_clave ((fun r => clave (ENTIDAD_RES r) (MUNICIPIO_RES r))
                       <$> confirmados datos)) !! geo
  = if decide (n = 0) then None
    else Some {| total_municipio := n; poblacion_municipio := pop !! geo;
                 tasa_municipio := tasa_100k n (pop !! geo) |}.
Proof.
  intros n. unfold unir_poblacion.
  rewrite map_lookup_imap, lookup_conteo_por_clave.
  destruct (conteo_de_confirmados clave datos geo) as [Hlen Hin].
  destruct (decide (geo ∈ _)) as [Hgeo|Hgeo].
  - rewrite Hlen. fold n. cbn [mbind option_bind].
    apply Hin in Hgeo. rewrite decide_False; [reflexivity|].
    unfold n. destruct (filter _ datos); [contradiction | cbn; lia].
  - cbn [mbind option_bind]. rewrite decide_True; [reflexivity|].
    unfold n. destruct (filter _ datos) as [|r resto] eqn:Hfil; [reflexivity|].
    exfalso. apply Hgeo, Hin. discriminate.
Qed.

Lemma distinto_de_inf_tasa (total : Z) (poblacion : option Z) :
  total <> 0 ->
  (distinto_de_inf (tasa_100k total poblacion) = true <-> poblacion <> Some 0).
Proof.
  intros Ht. unfold tasa_100k. destruct poblacion as [p|].
  - destruct (decide (p = 0)) as [->|Hp].
    + rewrite decide_False by exact Ht. cbn. split; [discriminate | congruence].
    + cbn. split; [congruence | reflexivity].
  - cbn. split; [discriminate | reflexivity].
Qed.

(** The second filter, [tasa != 0], removes no row. *)
Lemma filtro_de_ceros (clave : Z -> Z -> string) (pop : gmap string Z)
    (datos : list Registro) :
  tabla_municipal clave pop datos
  = filter (fun p => distinto_de_inf (tasa_municipio p.2) = true)
      (unir_poblacion pop
         (conteo_por_clave ((fun r => clave (ENTIDAD_RES r) (MUNICIPIO_RES r))
                            <$> confirmados datos))).
Proof.
  unfold tabla_municipal. apply map_filter_id. intros geo fila Hfila.
  apply map_lookup_filter_Some in Hfila as [Hfila _].
  rewrite lookup_unir_poblacion in Hfila.
  destruct (decide (_ = 0)) as [|Hn]; [discriminate|].
  injection Hfila as <-. cbn [snd tasa_municipio].
  apply tasa_no_es_cero, Hn.
Qed.

Lemma lookup_tabla_municipal (clave : Z -> Z -> string) (pop : gmap string Z)
    (datos : list Registro) (geo : string) :
  let n := Z.of_nat (length (filter (fun r => ESTATUS_CASO r = 2 /\
                        clave (ENTIDAD_RES r) (MUNICIPIO_RES r) = geo) datos)) in
  tabla_municipal clave pop datos !! geo
  = if decide (n = 0 \/ pop !! geo = Some 0) then None
    else Some {| total_municipio := n; poblacion_municipio := pop !! geo;
                 tasa_municipio := tasa_100k n (pop !! geo) |}.
Proof.
  intros n. rewrite filtro_de_ceros.
  pose proof (lookup_unir_poblacion clave pop datos geo) as Hu.
  cbv zeta in Hu. fold n in Hu.
  destruct (decide (n = 0)) as [Hn|Hn].
  - rewrite decide_True by (left; exact Hn).
    apply map_lookup_filter_None_2. left. exact Hu.
  - destruct (decide (pop !! geo = Some 0)) as [Hp|Hp].
    + rewrite decide_True by (right; exact Hp).
      apply map_lookup_filter_None_2. right. intros fila Hfila.
      rewrite Hu in Hfila. injection Hfila as <-. cbn [snd tasa_municipio].
      intros Hinf. apply (distinto_de_inf_tasa n (pop !! geo) Hn) in Hinf.
      contradiction.
    + rewrite decide_False by tauto.
      apply map_lookup_filter_Some_2; [exact Hu|]. cbn [snd tasa_municipio].
      apply distinto_de_inf_tasa; assumption.
Qed.

End Municipios.

(** X10. The map of the municipalities never fails on a key of the
    GeoJSON: it gives one value per key, in order.  The value of a key is
    the number of confirmed cases of that key, except that it is missing
    when there is no such case or when the population of the key is 0; a
    key with cases and without a row in the population table keeps its
    count (its rate is [NaN], which both filters let through).  The
    filter [tasa != 0] removes no row, since every row has at least one
    case. *)
Theorem X10_valores_del_mapa_municipal (pop : gmap string Z)
    (datos : list Registro) (geojson : list string) :
  let casos := fun geo =>
    filter (fun r => ESTATUS_CASO r = 2 /\
                     CVE_mapa (ENTIDAD_RES r) (MUNICIPIO_RES r) = geo) datos in
  valores_municipal pop datos geojson
  = (fun geo => if decide (casos geo = [] \/ pop !! geo = Some 0) then None
                else Some (Z.of_nat (length (casos geo)))) <$> geojson /\
  tabla_municipal CVE_mapa pop datos
  = filter (fun p => distinto_de_inf (tasa_municipio p.2) = true)
      (unir_poblacion pop
         (conteo_por_clave ((fun r => CVE_mapa (ENTIDAD_RES r) (MUNICIPIO_RES r))
                            <$> confirmados datos))) /\
  (forall geo fila, tabla_municipal CVE_mapa pop datos !! geo = Some fila ->
     1 <= total_municipio fila /\
     tasa_municipio fila <> infinito /\
     (pop !! geo = None -> tasa_municipio fila = NaN)).
Proof.
  intros casos. split; [|split].
  - unfold valores_municipal. apply list_fmap_ext. intros _ geo _.
    rewrite lookup_tabla_municipal. fold (casos geo).
    destruct (decide (casos geo = [] \/ pop !! geo = Some 0)) as [Hd|Hd].
    + rewrite decide_True; [reflexivity|].
      destruct Hd as [->|Hp]; [left; reflexivity | right; exact Hp].
    + rewrite decide_False; [reflexivity|].
      intros [Hn|Hp]; apply Hd; [left | right; exact Hp].
      destruct (casos geo); [reflexivity | cbn in Hn; lia].
  - apply filtro_de_ceros.
  - intros geo fila Hfila. rewrite lookup_tabla_municipal in Hfila.
    fold (casos geo) in Hfila.
    destruct (decide (_ \/ _)) as [|Hd]; [discriminate|].
    injection Hfila as <-. cbn [total_municipio tasa_municipio].
    assert (Hn : Z.of_nat (length (casos geo)) <> 0) by tauto.
    split; [lia|]. split.
    + intros Hinf.
      assert (Hb : distinto_de_inf (tasa_100k (Z.of_nat (length (casos geo)))
                                      (pop !! geo)) = true)
        by (apply distinto_de_inf_tasa; [exact Hn | tauto]).
      rewrite Hinf in Hb. discriminate.
    + intros ->. reflexivity.
Qed.

Lemma X10_valores_del_mapa_municipal_witness :
  let fila := fun e m =>
    {| FECHA_SIGN_SINTOMAS := 738000; ESTATUS_CASO := 2; DICTAMEN := 0;
       SEXO := 1; EDAD_ANOS := 30; RESULTADO_PCR := 2; ENTIDAD_RES := e;
       MUNICIPIO_RES := m |} in
  valores_municipal
    (<["07089"%string := 0]> {["01001"%string := 1000]})
    [fila 7 89; fila 1 1; fila 9 9; fila 1 1]
    ["07089"; "01001"; "09009"; "02002"]%string
  = [None; Some 2; Some 1; None].
Proof.
  intros fila.
  rewrite (proj1 (X10_valores_del_mapa_municipal _ _ _)).
  vm_compute. reflexivity.
Defined.

(** ** The table of the 30 municipalities *)

Section TablaDeMunicipios.

Variable sort_values : list (string * FilaMunicipio) -> list (string * FilaMunicipio).
Hypothesis sort_values_permuta : forall l, sort_values l ≡ₚ l.
Variable pop : gmap string Z.
Variable datos : list Registro.

Lemma lookup_top (i pos : nat) (cve : string) (fila : FilaMunicipio) :
  top_municipios_tabla sort_values pop datos !! i = Some (pos, (cve, fila)) <->
  (i < 30)%nat /\ pos = S i /\
  sort_values (map_to_list (municipios_con_100 pop datos)) !! i = Some (cve, fila).
Proof.
  unfold top_municipios_tabla. rewrite lookup_take_Some, list_lookup_imap.
  destruct (sort_values _ !! i) as [[c f]|]; cbn; split.
  - intros [Heq Hi]. injection Heq as <- <- <-. done.
  - intros (Hi & -> & Heq). injection Heq as -> ->. done.
  - intros [? _]. discriminate.
  - intros (_ & _ & ?). discriminate.
Qed.

Lemma elem_of_ordenado (cve : string) (fila : FilaMunicipio) :
  (cve, fila) ∈ sort_values (map_to_list (municipios_con_100 pop datos)) <->
  municipios_con_100 pop datos !! cve = Some fila.
Proof. rewrite sort_values_permuta. apply elem_of_map_to_list. Qed.

Lemma lookup_municipios_con_100 (cve : string) (fila : FilaMunicipio) :
  let n := Z.of_nat (length (filter (fun r => ESTATUS_CASO r = 2 /\
                        CVE_tabla (ENTIDAD_RES r) (MUNICIPIO_RES r) = cve) datos)) in
  municipios_con_100 pop datos !! cve = Some fila <->
  100 <= n /\ pop !! cve <> Some 0 /\
  fila = {| total_municipio := n; poblacion_municipio := pop !! cve;
            tasa_municipio := tasa_100k n (pop !! cve) |}.
Proof.
  intros n. unfold municipios_con_100.
  rewrite map_lookup_filter_Some, lookup_tabla_municipal. fold n. cbn [snd].
  destruct (decide (n = 0 \/ pop !! cve = Some 0)) as [Hd|Hd]; split.
  - intros [? _]. discriminate.
  - intros (Hn & Hp & _). destruct Hd as [Hd|Hd]; [lia | contradiction].
  - intros [Heq Hn]. injection Heq as <-. cbn [total_municipio] in Hn.
    split; [exact Hn | split; [tauto | reflexivity]].
  - intros (Hn & _ & ->). split; [reflexivity | exact Hn].
Qed.

End TablaDeMunicipios.

(** The order of the sort is total and transitive, so a merge sort by it
    is one of the sorts the table may use. *)
Lemma va_antes_total (a b : float64) : va_antes a b = true \/ va_antes b a = true.
Proof.
  destruct a as [x| |], b as [y| |]; cbn; auto.
  rewrite !Qle_bool_iff. destruct (Qlt_le_dec x y) as [Hlt|Hle]; [|auto].
  right. apply Qlt_le_weak, Hlt.
Qed.

Lemma va_antes_transitiva (a b c : float64) :
  va_antes a b = true -> va_antes b c = true -> va_antes a c = true.
Proof.
  destruct a as [x| |], b as [y| |], c as [z| |]; cbn; try done.
  rewrite !Qle_bool_iff. intros H1 H2. apply (Qle_trans _ y); assumption.
Qed.

Lemma merge_sort_por_tasa (l : list (string * FilaMunicipio)) :
  StronglySorted orden_por_tasa (merge_sort orden_por_tasa l).
Proof.
  apply StronglySorted_merge_sort.
  - intros p q r. apply va_antes_transitiva.
  - intros p q. apply va_antes_total.
Qed.

(** X11. The table of municipalities, for any sort that returns its rows
    by decreasing rate with [NaN] last: it has at most 30 rows, numbered
    1, 2, ... in order; each row is a municipality with at least 100
    confirmed cases, exactly its number of confirmed cases, a population
    other than 0 and the rate of that count; no municipality is listed
    twice and the rates never go up.  A municipality with at least 100
    cases (and a population other than 0) is left out only when the table
    is full, and then every listed municipality stands before it in the
    order of the sort. *)
Theorem X11_los_30_municipios
    (sort_values : list (string * FilaMunicipio) -> list (string * FilaMunicipio))
    (pop : gmap string Z) (datos : list Registro) :
  (forall l, sort_values l ≡ₚ l) ->
  (forall l, StronglySorted orden_por_tasa (sort_values l)) ->
  let casos := fun cve =>
    Z.of_nat (length (filter (fun r => ESTATUS_CASO r = 2 /\
                CVE_tabla (ENTIDAD_RES r) (MUNICIPIO_RES r) = cve) datos)) in
  let tabla := top_municipios_tabla sort_values pop datos in
  length tabla = Nat.min 30 (size (municipios_con_100 pop datos)) /\
  (forall i pos cve fila, tabla !! i = Some (pos, (cve, fila)) ->
     pos = S i /\ 100 <= casos cve /\ pop !! cve <> Some 0 /\
     total_municipio fila = casos cve /\
     tasa_municipio fila = tasa_100k (casos cve) (pop !! cve)) /\
  (forall i j pi ci fi pj cj fj, (i < j)%nat ->
     tabla !! i = Some (pi, (ci, fi)) -> tabla !! j = Some (pj, (cj, fj)) ->
     ci <> cj /\ va_antes (tasa_municipio fi) (tasa_municipio fj) = true) /\
  (forall cve, 100 <= casos cve -> pop !! cve <> Some 0 ->
     (forall pos fila, (pos, (cve, fila)) ∉ tabla) ->
     length tabla = 30%nat /\
     forall pos c f, (pos, (c, f)) ∈ tabla ->
       va_antes (tasa_municipio f) (tasa_100k (casos cve) (pop !! cve)) = true).
Proof.
  intros Hperm Hord casos tabla.
  set (ordenado := sort_values (map_to_list (municipios_con_100 pop datos))).
  assert (Hlen : length ordenado = size (municipios_con_100 pop datos)).
  { unfold ordenado. rewrite Hperm. apply length_map_to_list. }
  assert (Hnd : NoDup (ordenado.*1)).
  { unfold ordenado. rewrite Hperm. apply NoDup_fst_map_to_list. }
  assert (Htabla : length tabla = Nat.min 30 (length ordenado)).
  { unfold tabla, top_municipios_tabla. fold ordenado.
    rewrite length_take, length_imap. reflexivity. }
  split; [|split; [|split]].
  - rewrite Htabla, Hlen. reflexivity.
  - intros i pos cve fila Hi.
    apply (lookup_top sort_values pop datos) in Hi as (_ & -> & Hi).
    apply list_elem_of_lookup_2, (elem_of_ordenado sort_values Hperm) in Hi.
    apply lookup_municipios_con_100 in Hi as (Hn & Hp & ->).
    cbn [total_municipio tasa_municipio]. done.
  - intros i j pi ci fi pj cj fj Hij Hi Hj.
    apply (lookup_top sort_values pop datos) in Hi as (_ & _ & Hi).
    apply (lookup_top sort_values pop datos) in Hj as (_ & _ & Hj).
    fold ordenado in Hi, Hj. split.
    + intros ->.
      assert (H1 : ordenado.*1 !! i = Some cj) by (rewrite list_lookup_fmap, Hi; done).
      assert (H2 : ordenado.*1 !! j = Some cj) by (rewrite list_lookup_fmap, Hj; done).
      pose proof (NoDup_lookup _ i j cj Hnd H1 H2). lia.
    + apply (StronglySorted_lookup _ ordenado (Hord _) i j (ci, fi) (cj, fj) Hij Hi Hj).
  - intros cve Hn Hp Hfuera.
    set (fila0 := {| total_municipio := casos cve; poblacion_municipio := pop !! cve;
                     tasa_municipio := tasa_100k (casos cve) (pop !! cve) |}).
    assert (Hin : (cve, fila0) ∈ ordenado).
    { apply (elem_of_ordenado sort_values Hperm), lookup_municipios_con_100. done. }
    apply list_elem_of_lookup_1 in Hin as [k Hk].
    assert (Hk30 : (30 <= k)%nat).
    { destruct (decide (30 <= k)%nat) as [|Hlt]; [assumption|]. exfalso.
      apply (Hfuera (S k) fila0). apply list_elem_of_lookup_2 with k.
      apply lookup_top. split; [lia | split; [reflexivity | exact Hk]]. }
    apply lookup_lt_Some in Hk as Hkl.
    split; [rewrite Htabla; lia|].
    intros pos c f Hcf. apply list_elem_of_lookup_1 in Hcf as [i Hi].
    apply (lookup_top sort_values pop datos) in Hi as (Hi30 & _ & Hi).
    fold ordenado in Hi.
    apply (StronglySorted_lookup _ ordenado (Hord _) i k (c, f) (cve, fila0));
      [lia | exact Hi | exact Hk].
Qed.

Lemma X11_los_30_municipios_witness :
  let fila := fun e m =>
    {| FECHA_SIGN_SINTOMAS := 738000; ESTATUS_CASO := 2; DICTAMEN := 0;
       SEXO := 1; EDAD_ANOS := 30; RESULTADO_PCR := 2; ENTIDAD_RES := e;
       MUNICIPIO_RES := m |} in
  let pop : gmap string Z := <["07089"%string := 350000]> {["01001"%string := 900000]} in
  let datos := replicate 120 (fila 7 89) ++ replicate 100 (fila 1 1)
               ++ replicate 99 (fila 2 2) in
  length (top_municipios_tabla (merge_sort orden_por_tasa) pop datos)
  = Nat.min 30 (size (municipios_con_100 pop datos)).
Proof.
  intros fila pop datos.
  exact (proj1 (X11_los_30_municipios (merge_sort orden_por_tasa) pop datos
                  (fun l => merge_sort_Permutation orden_por_tasa l)
                  merge_sort_por_tasa)).
Defined.
